(** * Zaku Colony Destroyer: the combat core, embedded and verified

    A shallow embedding of the per-frame combat simulation of the game:
    [ScoreSystem] (combo scoring), [Colony] (the destructible structure),
    [Zaku] (boost energy, fire-rate gate, bullets) and the two hit paths of
    [Game] ([handleShooting] and [checkBulletCollisions]).  Around the
    core: the final score, the high score and the rankings of
    [ScoreSystem] with the [localStorage] behind them; [MathUtils] ([lerp],
    [clamp], [formatTime], [formatNumber]); [CameraController];
    [InputManager]; the tilt of the [Zaku]; and the mission of [Game]
    (the game loop, [update], the end of a game, crashes and restarts).

    Numbers.  JavaScript numbers are modelled by exact rationals ([Q]):
    [Math.floor] is [Qfloor], [Math.max] and [Math.min] are [Qmax] and
    [Qmin], comparisons are the boolean comparisons of [Q].  Quantities the
    code only ever counts (score, combo, statistics, clock readings in
    milliseconds) are integers ([Z]).  The program computes in binary64,
    where sums, products and quotients are rounded; the properties below
    are stated so that they do not depend on exact sums: as equations
    between the expressions the code evaluates, as invariants of the
    values it stores, as monotonicity, and as bounds against its own
    constants.  Module [Binary64] embeds [ScoreSystem.addScore] and
    [Zaku.updateBullets] a second time over the binary64 numbers of
    JavaScript, for the inputs on which rounding changes what the code
    does.

    Scene graph.  A three.js object is a node with an identity ([uuid]), the
    [isMesh] and [visible] flags and its children; reference equality
    ([===]) is equality of identities.  Ray casting, the clock and the
    world transform of the gun muzzle belong to collaborators of the core
    and enter the functions below as arguments. *)

From Stdlib Require Import ZArith QArith Qround Qminmax Lia Lqa Bool List.
From Stdlib Require Ascii String DecimalString.
From Stdlib Require Import PrimFloat.
From Stdlib Require FloatOps SpecFloat Uint63.
From stdpp Require Import base list gmap strings sorting.

Local Open Scope Q_scope.

(** ** JavaScript arithmetic *)

Definition Math_floor (x : Q) : Z := Qfloor x.
Definition Math_max (x y : Q) : Q := Qmax x y.
Definition Math_min (x y : Q) : Q := Qmin x y.

(** [a < b], [a <= b] and [a >= b] on numbers, as booleans. *)
Definition js_lt (a b : Q) : bool := negb (Qle_bool b a).
Definition js_le (a b : Q) : bool := Qle_bool a b.
Definition js_ge (a b : Q) : bool := Qle_bool b a.
Definition js_gt (a b : Q) : bool := negb (Qle_bool a b).

(** [arr[i]]: [undefined] (here [None]) outside [0 .. length-1]. *)
Definition at_index {A : Type} (arr : list A) (i : Z) : option A :=
  if (i <? 0)%Z then None else arr !! Z.to_nat i.

(** ** THREE.Vector3 *)

Record Vector3 := { x : Q; y : Q; z : Q }.

Definition multiplyScalar (v : Vector3) (s : Q) : Vector3 :=
  {| x := x v * s; y := y v * s; z := z v * s |}.

Definition add (v w : Vector3) : Vector3 :=
  {| x := x v + x w; y := y v + y w; z := z v + z w |}.

(** ** THREE.Object3D *)

Local Unset Elimination Schemes.
Inductive Object3D : Type :=
  Obj (uuid : nat) (isMesh : bool) (visible : bool) (children : list Object3D).
Local Set Elimination Schemes.

Definition uuid (o : Object3D) : nat := let 'Obj u _ _ _ := o in u.
Definition isMesh (o : Object3D) : bool := let 'Obj _ m _ _ := o in m.
Definition visible (o : Object3D) : bool := let 'Obj _ _ v _ := o in v.
Definition children (o : Object3D) : list Object3D := let 'Obj _ _ _ cs := o in cs.

Definition set_visible (o : Object3D) (v : bool) : Object3D :=
  Obj (uuid o) (isMesh o) v (children o).

(** [o.traverse(cb)] visits [o] itself and then every descendant; the list
    is the sequence of objects handed to the callback. *)
Fixpoint traverse (o : Object3D) : list Object3D :=
  match o with
  | Obj _ _ _ cs => o :: flat_map traverse cs
  end.

(** One entry of the array returned by [Raycaster.intersectObjects]: the
    object hit, the chain [object.parent], [object.parent.parent], ... up to
    the root (by identity), and the hit point. *)
Record Intersection := {
  object : Object3D;
  parents : list nat;
  point : Vector3
}.

(** ** ScoreSystem *)

Module ScoreSystem.

Record Stats := {
  totalDamage : Q;
  sectionsDestroyed : Z;
  maxCombo : Z;
  accuracy : Q;
  shotsFired : Z;
  shotsHit : Z
}.

Record t := {
  score : Z;
  combo : Z;
  comboTimer : Q;
  comboTimeout : Q;
  stats : Stats
}.

(** [GAME.comboTimeout], in milliseconds. *)
Definition GAME_comboTimeout : Q := 3000.

Definition initialStats : Stats :=
  {| totalDamage := 0; sectionsDestroyed := 0; maxCombo := 0;
     accuracy := 0; shotsFired := 0; shotsHit := 0 |}.

Definition new : t :=
  {| score := 0; combo := 0; comboTimer := 0;
     comboTimeout := GAME_comboTimeout; stats := initialStats |}.

Record AddScoreResult := {
  points : Z;
  r_combo : Z;
  multiplier : Q
}.

Definition set_maxCombo (st : Stats) (m : Z) : Stats :=
  {| totalDamage := totalDamage st; sectionsDestroyed := sectionsDestroyed st;
     maxCombo := m; accuracy := accuracy st;
     shotsFired := shotsFired st; shotsHit := shotsHit st |}.

Definition addScore (s : t) (basePoints : Q) : AddScoreResult * t :=
  let comboMultiplier := 1 + inject_Z (combo s) * (1 # 10) in
  let pts := Math_floor (basePoints * comboMultiplier) in
  let combo' := (combo s + 1)%Z in
  let stats' :=
    if (maxCombo (stats s) <? combo')%Z
    then set_maxCombo (stats s) combo' else stats s in
  ({| points := pts; r_combo := combo'; multiplier := comboMultiplier |},
   {| score := (score s + pts)%Z; combo := combo';
      comboTimer := comboTimeout s; comboTimeout := comboTimeout s;
      stats := stats' |}).

Definition resetCombo (s : t) : t :=
  {| score := score s; combo := 0; comboTimer := 0;
     comboTimeout := comboTimeout s; stats := stats s |}.

Definition update (s : t) (deltaTime : Q) : t :=
  if (0 <? combo s)%Z then
    let s1 := {| score := score s; combo := combo s;
                 comboTimer := comboTimer s - deltaTime * 1000;
                 comboTimeout := comboTimeout s; stats := stats s |} in
    if js_le (comboTimer s1) 0 then resetCombo s1 else s1
  else s.

Definition getComboTimerPercent (s : t) : Q :=
  if (combo s =? 0)%Z then 0 else (comboTimer s / comboTimeout s) * 100.

Definition with_stats (s : t) (st : Stats) : t :=
  {| score := score s; combo := combo s; comboTimer := comboTimer s;
     comboTimeout := comboTimeout s; stats := st |}.

Definition recordShot (s : t) (hit : bool) : t :=
  let st := stats s in
  let fired := (shotsFired st + 1)%Z in
  let hits := if hit then (shotsHit st + 1)%Z else shotsHit st in
  with_stats s
    {| totalDamage := totalDamage st; sectionsDestroyed := sectionsDestroyed st;
       maxCombo := maxCombo st;
       accuracy := (inject_Z hits / inject_Z fired) * 100;
       shotsFired := fired; shotsHit := hits |}.

Definition recordDamage (s : t) (damage : Q) : t :=
  let st := stats s in
  with_stats s
    {| totalDamage := totalDamage st + damage;
       sectionsDestroyed := sectionsDestroyed st;
       maxCombo := maxCombo st; accuracy := accuracy st;
       shotsFired := shotsFired st; shotsHit := shotsHit st |}.

Definition recordDestruction (s : t) : t :=
  let st := stats s in
  with_stats s
    {| totalDamage := totalDamage st;
       sectionsDestroyed := (sectionsDestroyed st + 1)%Z;
       maxCombo := maxCombo st; accuracy := accuracy st;
       shotsFired := shotsFired st; shotsHit := shotsHit st |}.

Definition reset (s : t) : t :=
  {| score := 0; combo := 0; comboTimer := 0;
     comboTimeout := comboTimeout s; stats := initialStats |}.

(** The three operations that touch the combo, and a run of them. *)
Inductive Op :=
| OpAddScore (basePoints : Q)
| OpUpdate (deltaTime : Q)
| OpResetCombo.

Definition step (s : t) (op : Op) : t :=
  match op with
  | OpAddScore basePoints => snd (addScore s basePoints)
  | OpUpdate deltaTime => update s deltaTime
  | OpResetCombo => resetCombo s
  end.

Definition run (s : t) (ops : list Op) : t := fold_left step ops s.

(** *** Final score, high score and rankings *)

Record FinalScore := {
  baseScore : Z;
  timeBonus : Z;
  destructionBonus : Z;
  comboBonus : Z;
  finalScore : Z
}.

Definition calculateFinalScore (s : t) (timeRemaining destructionPercent : Q)
    : FinalScore :=
  let timeBonus' := Math_floor (timeRemaining * 50) in
  let destructionBonus' := Math_floor (destructionPercent * 100) in
  let comboBonus' := (maxCombo (stats s) * 100)%Z in
  {| baseScore := score s; timeBonus := timeBonus';
     destructionBonus := destructionBonus'; comboBonus := comboBonus';
     finalScore := (score s + timeBonus' + destructionBonus' + comboBonus')%Z |}.

(** One entry of the stored rankings; [date] is an ISO time stamp. *)
Record Entry := {
  e_score : Z;
  e_destruction : Z;
  e_time : Z;
  e_date : string
}.

(** [localStorage] as the score system uses it: the two items, read back
    as the values that were written ([None] is a missing or unreadable
    item), and whether [getItem] and [setItem] throw. *)
Record LocalStorage := {
  getItemThrows : bool;
  setItemThrows : bool;
  highScoreItem : option Z;
  rankingsItem : option (list Entry)
}.

Definition loadHighScore (ls : LocalStorage) : Z :=
  if getItemThrows ls then 0%Z
  else match highScoreItem ls with
       | Some saved => saved
       | None => 0%Z
       end.

Definition saveHighScore (highScore : Z) (ls : LocalStorage) : LocalStorage :=
  if setItemThrows ls then ls
  else {| getItemThrows := getItemThrows ls; setItemThrows := setItemThrows ls;
          highScoreItem := Some highScore; rankingsItem := rankingsItem ls |}.

(** [checkHighScore()], on the score, the high score field and the
    storage. *)
Definition checkHighScore (s : t) (highScore : Z) (ls : LocalStorage)
    : bool * Z * LocalStorage :=
  if (highScore <? score s)%Z
  then (true, score s, saveHighScore (score s) ls)
  else (false, highScore, ls).

Definition loadRankings (ls : LocalStorage) : list Entry :=
  if getItemThrows ls then []
  else match rankingsItem ls with
       | Some saved => saved
       | None => []
       end.

(** [rankings.sort((a, b) => b.score - a.score)]: a stable sort by
    descending score.  Entries are inserted from left to right, each
    behind the entries that score at least as much. *)
Fixpoint insertByScore (e : Entry) (l : list Entry) : list Entry :=
  match l with
  | [] => [e]
  | a :: rest =>
      if (e_score a <? e_score e)%Z then e :: l
      else a :: insertByScore e rest
  end.

Definition sortByScore (l : list Entry) : list Entry :=
  fold_left (fun acc e => insertByScore e acc) l [].

(** [topTen.findIndex(entry => entry.score === newEntry.score &&
    entry.date === newEntry.date)], from index [i] on; [-1] when absent. *)
Fixpoint findIndex_from (i : Z) (newEntry : Entry) (l : list Entry) : Z :=
  match l with
  | [] => (-1)%Z
  | a :: rest =>
      if (e_score a =? e_score newEntry)%Z && String.eqb (e_date a) (e_date newEntry)
      then i
      else findIndex_from (i + 1)%Z newEntry rest
  end.

(** [saveToRankings(finalScore, destructionPercent, timeRemaining)];
    [date] is [new Date().toISOString()]. *)
Definition saveToRankings (ls : LocalStorage) (finalScore' : Z)
    (destructionPercent timeRemaining : Q) (date : string)
    : Z * LocalStorage :=
  let rankings := loadRankings ls in
  let newEntry := {| e_score := finalScore';
                     e_destruction := Math_floor destructionPercent;
                     e_time := Math_floor timeRemaining;
                     e_date := date |} in
  let topTen := take 10 (sortByScore (rankings ++ [newEntry])) in
  if setItemThrows ls then ((-1)%Z, ls)
  else
    let ls' := {| getItemThrows := getItemThrows ls;
                  setItemThrows := setItemThrows ls;
                  highScoreItem := highScoreItem ls;
                  rankingsItem := Some topTen |} in
    let rank := findIndex_from 0 newEntry topTen in
    (if (rank =? -1)%Z then (-1)%Z else (rank + 1)%Z, ls').

Definition getRankings (ls : LocalStorage) : list Entry := loadRankings ls.

(** A run of [recordShot] calls. *)
Definition recordShots (s : t) (hits : list bool) : t :=
  fold_left recordShot hits s.

End ScoreSystem.

(** ** Colony *)

Module Colony.

Inductive SectionType :=
  window | solarPanel | dockingBay | controlTower | hullSection.

(** One entry of [this.sections]. *)
Record section := {
  mesh : Object3D;
  type : SectionType;
  health : Q;
  maxHealth : Q;
  points : Q;
  destroyed : bool
}.

(** The destructible sections and the totals.  The root group, the
    explosion particles and the scene reference only serve rendering. *)
Record t := {
  sections : list section;
  totalHealth : Q;
  currentHealth : Q;
  destructionPercentage : Q
}.

(** The object returned by [damageSection] ([null] is [None]). *)
Record HitResult := {
  r_points : Q;
  r_destroyed : bool;
  r_type : SectionType
}.

(** *** Construction *)

Definition newMesh (id : nat) (cs : list Object3D) : Object3D := Obj id true true cs.
Definition newGroup (id : nat) (cs : list Object3D) : Object3D := Obj id false true cs.
Definition newLine (id : nat) : Object3D := Obj id false true [].

Definition newSection (m : Object3D) (ty : SectionType) (hp pts : Q) : section :=
  {| mesh := m; type := ty; health := hp; maxHealth := hp; points := pts;
     destroyed := false |}.

(** [this.sections.push(section); this.totalHealth += section.maxHealth]. *)
Definition push (c : t) (s : section) : t :=
  {| sections := sections c ++ [s];
     totalHealth := totalHealth c + maxHealth s;
     currentHealth := currentHealth c;
     destructionPercentage := destructionPercentage c |}.

(** The builders take the next free object identity and return it
    advanced by the number of objects they created. *)
Definition windowSection (id : nat) : section * nat :=
  (newSection (newMesh id []) window 50 100, S id).

Definition solarPanelSection (id : nat) : section * nat :=
  let panel := newMesh (id + 1) [] in
  let arm := newMesh (id + 2) [] in
  let lines := map (fun g => newLine (id + 3 + g)) (seq 0 9) in
  (newSection (newGroup id (panel :: arm :: lines)) solarPanel 100 200,
   (id + 12)%nat).

Definition dockingBaySection (id : nat) : section * nat :=
  let dock := newMesh (id + 1) [] in
  let arms := map (fun a => newMesh (id + 2 + a) []) (seq 0 4) in
  let light1 := newMesh (id + 6) [] in
  (newSection (newGroup id (dock :: arms ++ [light1])) dockingBay 200 500,
   (id + 7)%nat).

Definition controlTowerSection (id : nat) : section * nat :=
  let tower := newMesh (id + 1) [] in
  let antenna := newMesh (id + 2) [] in
  let dish := newMesh (id + 3) [] in
  (newSection (newGroup id [tower; antenna; dish]) controlTower 150 300,
   (id + 4)%nat).

Definition hullSectionSection (id : nat) : section * nat :=
  (newSection (newMesh id []) hullSection 500 1000, S id).

(** [count] iterations of a loop whose body pushes one section. *)
Fixpoint pushMany (build : nat -> section * nat) (count : nat)
    (st : t * nat) : t * nat :=
  match count with
  | O => st
  | S k =>
      let '(s, id') := build (snd st) in
      pushMany build k (push (fst st) s, id')
  end.

(** [createColony]: 6 x 3 windows, 4 solar panels, 2 docking bays, the
    control tower and 8 hull sections, in this order.  The first five
    identities go to the root group, the two hulls and the two end caps,
    none of which is a section. *)
Definition createColony (c : t) : t :=
  let st := pushMany windowSection (6 * 3) (c, 5%nat) in
  let st := pushMany solarPanelSection 4 st in
  let st := pushMany dockingBaySection 2 st in
  let st := pushMany controlTowerSection 1 st in
  let st := pushMany hullSectionSection 8 st in
  let c' := fst st in
  {| sections := sections c'; totalHealth := totalHealth c';
     currentHealth := totalHealth c';
     destructionPercentage := destructionPercentage c' |}.

Definition new : t :=
  createColony
    {| sections := []; totalHealth := 0; currentHealth := 0;
       destructionPercentage := 0 |}.

(** *** Damage *)

Definition updateDestructionPercentage (c : t) : t :=
  let destroyedHealth := totalHealth c - currentHealth c in
  {| sections := sections c; totalHealth := totalHealth c;
     currentHealth := currentHealth c;
     destructionPercentage := (destroyedHealth / totalHealth c) * 100 |}.

Definition getDestructionPercentage (c : t) : Q := destructionPercentage c.

Definition set_section (c : t) (i : nat) (s : section) : t :=
  {| sections := <[i := s]> (sections c); totalHealth := totalHealth c;
     currentHealth := currentHealth c;
     destructionPercentage := destructionPercentage c |}.

(** [destroySection(section)]: hides the mesh of the section stored at
    [i] and recomputes the percentage. *)
Definition destroySection (c : t) (i : nat) (s : section) : t :=
  let s' := {| mesh := set_visible (mesh s) false; type := type s;
               health := health s; maxHealth := maxHealth s;
               points := points s; destroyed := destroyed s |} in
  updateDestructionPercentage (set_section c i s').

(** [damageSection(sectionIndex, damage)].  The darkening of the mesh
    colour between the two health tests is a visual effect and is left
    out. *)
Definition damageSection (c : t) (sectionIndex : Z) (damage : Q)
    : option HitResult * t :=
  match at_index (sections c) sectionIndex with
  | None => (None, c)
  | Some s =>
      if destroyed s then (None, c)
      else
        let i := Z.to_nat sectionIndex in
        let s1 := {| mesh := mesh s; type := type s;
                     health := health s - damage; maxHealth := maxHealth s;
                     points := points s; destroyed := destroyed s |} in
        let c1 := {| sections := <[i := s1]> (sections c);
                     totalHealth := totalHealth c;
                     currentHealth := currentHealth c - damage;
                     destructionPercentage := destructionPercentage c |} in
        if js_le (health s1) 0 then
          let s2 := {| mesh := mesh s1; type := type s1; health := health s1;
                       maxHealth := maxHealth s1; points := points s1;
                       destroyed := true |} in
          (Some {| r_points := points s2; r_destroyed := true;
                   r_type := type s2 |},
           destroySection c1 i s2)
        else
          (Some {| r_points := inject_Z (Math_floor damage);
                   r_destroyed := false; r_type := type s1 |},
           c1)
  end.

(** *** Hit testing *)

(** The [for] loop of [getSectionAtPoint], from index [i] on. *)
Fixpoint getSectionAtPoint_from (i : nat) (ss : list section)
    (intersect : Intersection) : option (nat * section) :=
  match ss with
  | [] => None
  | s :: rest =>
      let target := object intersect in
      if destroyed s then getSectionAtPoint_from (S i) rest intersect
      else if Nat.eqb (uuid (mesh s)) (uuid target) then Some (i, s)
      else if existsb (Nat.eqb (uuid (mesh s))) (parents intersect)
           then Some (i, s)
      else getSectionAtPoint_from (S i) rest intersect
  end.

Definition getSectionAtPoint (c : t) (intersect : Intersection)
    : option (nat * section) :=
  getSectionAtPoint_from 0 (sections c) intersect.

Definition getHitTargets (c : t) : list Object3D :=
  flat_map
    (fun s =>
       if destroyed s then []
       else mesh s :: List.filter isMesh (traverse (mesh s)))
    (sections c).

(** The identities of the objects under a section's mesh, the mesh
    included, and those of all sections. *)
Definition sectionIds (s : section) : list nat := map uuid (traverse (mesh s)).

Definition objectIds (c : t) : list nat := flat_map sectionIds (sections c).

(** A sequence of [damageSection(index, damage)] calls: the structure they
    leave behind. *)
Definition damageAll (c : t) (calls : list (Z * Q)) : t :=
  fold_left (fun c' call => snd (damageSection c' (fst call) (snd call))) calls c.

(** The value [updateDestructionPercentage] would store. *)
Definition healthRemoved (c : t) : Q :=
  ((totalHealth c - currentHealth c) / totalHealth c) * 100.

(** A section after [section.health -= damage], and after it was marked
    destroyed and hidden as well. *)
Definition damaged (s : section) (damage : Q) : section :=
  {| mesh := mesh s; type := type s; health := health s - damage;
     maxHealth := maxHealth s; points := points s; destroyed := destroyed s |}.

Definition wrecked (s : section) (damage : Q) : section :=
  {| mesh := set_visible (mesh s) false; type := type s;
     health := health s - damage; maxHealth := maxHealth s;
     points := points s; destroyed := true |}.

(** A structure with a single segment of [maxHealth] 50 worth 100 points. *)
Definition oneSegment : t :=
  {| sections := [newSection (newMesh 0 []) window 50 100];
     totalHealth := 50; currentHealth := 50; destructionPercentage := 0 |}.

End Colony.

(** The three outcomes of [damageSection(i, d)] on [c]: the value returned
    and the structure left behind. *)
Inductive DamageOutcome (c : Colony.t) (i : Z) (d : Q)
    : option Colony.HitResult -> Colony.t -> Prop :=
| outcome_null :
    at_index (Colony.sections c) i = None \/
    (exists s, at_index (Colony.sections c) i = Some s /\
               Colony.destroyed s = true) ->
    DamageOutcome c i d None c
| outcome_hit (s : Colony.section) (c' : Colony.t) :
    at_index (Colony.sections c) i = Some s ->
    Colony.destroyed s = false ->
    0 < Colony.health s - d ->
    Colony.sections c' = <[Z.to_nat i := Colony.damaged s d]> (Colony.sections c) ->
    Colony.totalHealth c' = Colony.totalHealth c ->
    Colony.currentHealth c' = Colony.currentHealth c - d ->
    Colony.destructionPercentage c' = Colony.destructionPercentage c ->
    DamageOutcome c i d
      (Some {| Colony.r_points := inject_Z (Math_floor d);
               Colony.r_destroyed := false;
               Colony.r_type := Colony.type s |}) c'
| outcome_destroyed (s : Colony.section) (c' : Colony.t) :
    at_index (Colony.sections c) i = Some s ->
    Colony.destroyed s = false ->
    Colony.health s - d <= 0 ->
    Colony.sections c' = <[Z.to_nat i := Colony.wrecked s d]> (Colony.sections c) ->
    Colony.totalHealth c' = Colony.totalHealth c ->
    Colony.currentHealth c' = Colony.currentHealth c - d ->
    Colony.destructionPercentage c' = Colony.healthRemoved c' ->
    DamageOutcome c i d
      (Some {| Colony.r_points := Colony.points s;
               Colony.r_destroyed := true;
               Colony.r_type := Colony.type s |}) c'.

(** ** Zaku *)

Module Zaku.

(** [WEAPONS.machineGun]. *)
Definition WEAPONS_machineGun_damage : Q := 10.
Definition WEAPONS_machineGun_fireRate : Z := 100.
Definition WEAPONS_machineGun_range : Q := 60.

(** [bullet.userData]. *)
Record UserData := {
  startPosition : Vector3;
  direction : Vector3;
  distanceTraveled : Q;
  maxDistance : Q;
  damage : Q;
  speed : Q
}.

Record Bullet := {
  position : Vector3;
  userData : UserData
}.

(** The fields of a Zaku that the combat core reads and writes.  Position,
    velocity and the yaw, pitch and roll angles are integrated with
    trigonometric functions and are not part of this record; none of the
    statements modelled below reads them. *)
Record t := {
  isMoving : bool;
  isBoosting : bool;
  boostEnergy : Q;
  maxBoostEnergy : Q;
  boostRegenRate : Q;
  boostDrainRate : Q;
  isFiring : bool;
  lastFireTime : Z;
  fireRate : Z;
  bullets : list Bullet;
  bulletSpeed : Q;
  bulletRange : Q;
  bulletDamage : Q
}.

Definition new : t :=
  {| isMoving := false; isBoosting := false;
     boostEnergy := 100; maxBoostEnergy := 100;
     boostRegenRate := 15; boostDrainRate := 25;
     isFiring := false; lastFireTime := 0;
     fireRate := WEAPONS_machineGun_fireRate;
     bullets := [];
     bulletSpeed := 150;
     bulletRange := WEAPONS_machineGun_range;
     bulletDamage := WEAPONS_machineGun_damage |}.

(** The sample returned by [InputManager.getMovementInput]. *)
Record Input := {
  forward : Z; backward : Z; left : Z; right : Z; up : Z; down : Z;
  rotateLeft : Z; rotateRight : Z;
  boost : bool
}.

(** [processMovement], on the fields of [t]. *)
Definition processMovement (zk : t) (input : Input) (deltaTime : Q) : t :=
  let moveX := (right input - left input)%Z in
  let moveZ := (backward input - forward input)%Z in
  let moveY := (up input - down input)%Z in
  let isMoving' :=
    negb (moveX =? 0)%Z || negb (moveZ =? 0)%Z || negb (moveY =? 0)%Z in
  let isBoosting' := boost input && js_gt (boostEnergy zk) 0 in
  let boostEnergy' :=
    if isBoosting'
    then Math_max 0 (boostEnergy zk - boostDrainRate zk * deltaTime)
    else Math_min (maxBoostEnergy zk)
                  (boostEnergy zk + boostRegenRate zk * deltaTime) in
  {| isMoving := isMoving'; isBoosting := isBoosting';
     boostEnergy := boostEnergy'; maxBoostEnergy := maxBoostEnergy zk;
     boostRegenRate := boostRegenRate zk; boostDrainRate := boostDrainRate zk;
     isFiring := isFiring zk; lastFireTime := lastFireTime zk;
     fireRate := fireRate zk; bullets := bullets zk;
     bulletSpeed := bulletSpeed zk; bulletRange := bulletRange zk;
     bulletDamage := bulletDamage zk |}.

Definition getBoostPercentage (zk : t) : Q :=
  (boostEnergy zk / maxBoostEnergy zk) * 100.

Definition with_bullets (zk : t) (bs : list Bullet) : t :=
  {| isMoving := isMoving zk; isBoosting := isBoosting zk;
     boostEnergy := boostEnergy zk; maxBoostEnergy := maxBoostEnergy zk;
     boostRegenRate := boostRegenRate zk; boostDrainRate := boostDrainRate zk;
     isFiring := isFiring zk; lastFireTime := lastFireTime zk;
     fireRate := fireRate zk; bullets := bs;
     bulletSpeed := bulletSpeed zk; bulletRange := bulletRange zk;
     bulletDamage := bulletDamage zk |}.

(** What [getObjectByName('muzzlePoint')] finds: nothing, or a node whose
    world position and (unit) world direction are the two vectors. *)
Definition MuzzlePoint : Type := option (Vector3 * Vector3).

Definition spawnBullet (zk : t) (muzzlePoint : MuzzlePoint) : t :=
  match muzzlePoint with
  | None => zk
  | Some (startPos, dir) =>
      let bullet :=
        {| position := startPos;
           userData := {| startPosition := startPos; direction := dir;
                          distanceTraveled := 0;
                          maxDistance := bulletRange zk;
                          damage := bulletDamage zk;
                          speed := bulletSpeed zk |} |} in
      with_bullets zk (bullets zk ++ [bullet])
  end.

(** [fire()]; [now] is the reading of [Date.now()]. *)
Definition fire (zk : t) (now : Z) (muzzlePoint : MuzzlePoint) : bool * t :=
  if (now - lastFireTime zk <? fireRate zk)%Z then (false, zk)
  else
    let zk1 :=
      {| isMoving := isMoving zk; isBoosting := isBoosting zk;
         boostEnergy := boostEnergy zk; maxBoostEnergy := maxBoostEnergy zk;
         boostRegenRate := boostRegenRate zk;
         boostDrainRate := boostDrainRate zk;
         isFiring := isFiring zk; lastFireTime := now;
         fireRate := fireRate zk; bullets := bullets zk;
         bulletSpeed := bulletSpeed zk; bulletRange := bulletRange zk;
         bulletDamage := bulletDamage zk |} in
    let zk2 := spawnBullet zk1 muzzlePoint in
    (true,
     {| isMoving := isMoving zk2; isBoosting := isBoosting zk2;
        boostEnergy := boostEnergy zk2; maxBoostEnergy := maxBoostEnergy zk2;
        boostRegenRate := boostRegenRate zk2;
        boostDrainRate := boostDrainRate zk2;
        isFiring := true; lastFireTime := lastFireTime zk2;
        fireRate := fireRate zk2; bullets := bullets zk2;
        bulletSpeed := bulletSpeed zk2; bulletRange := bulletRange zk2;
        bulletDamage := bulletDamage zk2 |}).

(** The body of the loop of [updateBullets] up to the range test: the
    bullet moved by [speed * deltaTime] along its direction. *)
Definition moveBullet (bullet : Bullet) (deltaTime : Q) : Bullet :=
  let ud := userData bullet in
  let moveDistance := speed ud * deltaTime in
  {| position := add (position bullet) (multiplyScalar (direction ud) moveDistance);
     userData := {| startPosition := startPosition ud; direction := direction ud;
                    distanceTraveled := distanceTraveled ud + moveDistance;
                    maxDistance := maxDistance ud; damage := damage ud;
                    speed := speed ud |} |}.

Definition exceededRange (bullet : Bullet) : bool :=
  js_ge (distanceTraveled (userData bullet)) (maxDistance (userData bullet)).

(** [for (let i = bullets.length - 1; i >= 0; i--)], with [n = i + 1]
    iterations left.  [bullets[i]] is read at every iteration; were it
    [undefined] the access to [userData] would throw, which is [None]. *)
Fixpoint updateBullets_loop (n : nat) (bs : list Bullet) (deltaTime : Q)
    : option (list Bullet) :=
  match n with
  | O => Some bs
  | S i =>
      match bs !! i with
      | None => None
      | Some bullet =>
          let bs1 := <[i := moveBullet bullet deltaTime]> bs in
          if exceededRange (moveBullet bullet deltaTime)
          then updateBullets_loop i (delete i bs1) deltaTime
          else updateBullets_loop i bs1 deltaTime
      end
  end.

Definition updateBullets (zk : t) (deltaTime : Q) : option t :=
  match updateBullets_loop (length (bullets zk)) (bullets zk) deltaTime with
  | Some bs => Some (with_bullets zk bs)
  | None => None
  end.

Definition getBullets (zk : t) : list Bullet := bullets zk.

(** A run of [processMovement] calls. *)
Definition processMovements (zk : t) (frames : list (Input * Q)) : t :=
  fold_left (fun zk' frame => processMovement zk' (fst frame) (snd frame))
            frames zk.

(** What [updateBullets] leaves of a list of bullets: every bullet moved,
    those that reached their range dropped, the order kept. *)
Definition survivors (bs : list Bullet) (deltaTime : Q) : list Bullet :=
  List.filter (fun b => negb (exceededRange b))
              (map (fun b => moveBullet b deltaTime) bs).

(** A run of [updateBullets] calls. *)
Fixpoint updateBulletsMany (zk : t) (dts : list Q) : option t :=
  match dts with
  | [] => Some zk
  | dt :: rest =>
      match updateBullets zk dt with
      | None => None
      | Some zk' => updateBulletsMany zk' rest
      end
  end.

End Zaku.

(** ** Game: the two hit paths *)

(** A ray handed to the ray caster. *)
Record Ray := {
  origin : Vector3;
  rayDirection : Vector3;
  near : Q;
  far : Q
}.

Module Game.

(** The entities and systems the hit paths work on, and the frame time.
    Explosions, debris, sounds, camera shake and the HUD are consumers of
    the events below and carry no state of the core. *)
Record t := {
  zaku : Zaku.t;
  colony : Colony.t;
  scoreSystem : ScoreSystem.t;
  deltaTime : Q
}.

Definition with_zaku (g : t) (zk : Zaku.t) : t :=
  {| zaku := zk; colony := colony g; scoreSystem := scoreSystem g;
     deltaTime := deltaTime g |}.

Definition with_colony (g : t) (c : Colony.t) : t :=
  {| zaku := zaku g; colony := c; scoreSystem := scoreSystem g;
     deltaTime := deltaTime g |}.

Definition with_scoreSystem (g : t) (s : ScoreSystem.t) : t :=
  {| zaku := zaku g; colony := colony g; scoreSystem := s;
     deltaTime := deltaTime g |}.

Definition with_deltaTime (g : t) (dt : Q) : t :=
  {| zaku := zaku g; colony := colony g; scoreSystem := scoreSystem g;
     deltaTime := dt |}.

Definition new : t :=
  {| zaku := Zaku.new; colony := Colony.new; scoreSystem := ScoreSystem.new;
     deltaTime := 0 |}.

Section Raycasting.

(** [Raycaster.intersectObjects(targets, true)] for a given ray: the
    intersections, nearest first.  It is the rendering collaborator's and
    is left unspecified. *)
Variable intersectObjects : Ray -> list Object3D -> list Intersection.

(** The statements both hit paths run once a section has been found:
    damage it and, when the call had an effect, record the statistics and
    score the destruction. *)
Definition applyHit (g : t) (index : nat) (damage : Q) : t :=
  let '(result, colony') :=
    Colony.damageSection (colony g) (Z.of_nat index) damage in
  let g1 := with_colony g colony' in
  match result with
  | None => g1
  | Some r =>
      let s1 := ScoreSystem.recordShot (scoreSystem g1) true in
      let s2 := ScoreSystem.recordDamage s1 damage in
      if Colony.r_destroyed r then
        let s3 := ScoreSystem.recordDestruction s2 in
        let '(_, s4) := ScoreSystem.addScore s3 (Colony.r_points r) in
        with_scoreSystem g1 s4
      else with_scoreSystem g1 s2
  end.

(** [handleShooting()]: [now] and [muzzlePoint] feed [zaku.fire()],
    [cameraRay] is the ray through the centre of the view. *)
Definition handleShooting (g : t) (now : Z) (muzzlePoint : Zaku.MuzzlePoint)
    (cameraRay : Ray) : t :=
  let g0 := with_zaku g (snd (Zaku.fire (zaku g) now muzzlePoint)) in
  let targets := Colony.getHitTargets (colony g0) in
  let intersects := intersectObjects cameraRay targets in
  match intersects with
  | hit :: _ =>
      match Colony.getSectionAtPoint (colony g0) hit with
      | Some (index, _) =>
          let damage := 10 * deltaTime g0 * 60 in
          applyHit g0 index damage
      | None => g0
      end
  | [] =>
      with_scoreSystem g0 (ScoreSystem.recordShot (scoreSystem g0) false)
  end.

Definition bulletRay (bullet : Zaku.Bullet) (dt : Q) : Ray :=
  {| origin := Zaku.position bullet;
     rayDirection := Zaku.direction (Zaku.userData bullet);
     near := 0;
     far := Zaku.speed (Zaku.userData bullet) * dt * 2 |}.

(** The loop of [checkBulletCollisions], [n = i + 1] iterations left;
    [targets] is computed once, before the loop. *)
Fixpoint checkBulletCollisions_loop (n : nat) (targets : list Object3D)
    (g : t) : option t :=
  match n with
  | O => Some g
  | S i =>
      match Zaku.bullets (zaku g) !! i with
      | None => None
      | Some bullet =>
          match intersectObjects (bulletRay bullet (deltaTime g)) targets with
          | hit :: _ =>
              let g1 :=
                match Colony.getSectionAtPoint (colony g) hit with
                | Some (index, _) =>
                    applyHit g index (Zaku.damage (Zaku.userData bullet))
                | None => g
                end in
              checkBulletCollisions_loop i targets
                (with_zaku g1
                   (Zaku.with_bullets (zaku g1)
                      (delete i (Zaku.bullets (zaku g1)))))
          | [] => checkBulletCollisions_loop i targets g
          end
      end
  end.

Definition checkBulletCollisions (g : t) : option t :=
  checkBulletCollisions_loop
    (length (Zaku.getBullets (zaku g)))
    (Colony.getHitTargets (colony g)) g.

(** The bullet steps of one frame of [update(deltaTime)], in the order of
    the source: [zaku.update] moves and expires bullets, then
    [checkBulletCollisions] resolves their hits. *)
Definition bulletFrame (g : t) (dt : Q) : option t :=
  match Zaku.updateBullets (zaku g) dt with
  | None => None
  | Some zk => checkBulletCollisions (with_zaku (with_deltaTime g dt) zk)
  end.

Fixpoint bulletFrames (g : t) (dts : list Q) : option t :=
  match dts with
  | [] => Some g
  | dt :: rest =>
      match bulletFrame g dt with
      | None => None
      | Some g' => bulletFrames g' rest
      end
  end.

End Raycasting.

(** A ray caster that reports the first target it is given, and one that
    never reports anything. *)
Definition hitFirstTarget (_ : Ray) (targets : list Object3D)
    : list Intersection :=
  match targets with
  | o :: _ => [{| object := o; parents := [];
                  point := {| x := 0; y := 0; z := 0 |} |}]
  | [] => []
  end.

Definition noIntersection (_ : Ray) (_ : list Object3D) : list Intersection := [].

(** Sample inputs: a game at its start with a frame time of 1/60 s or of
    1/10 s, a muzzle at the origin pointing along z, a camera ray along z. *)
Definition atFrameTime (dt : Q) : t := with_deltaTime new dt.

Definition sampleMuzzle : Zaku.MuzzlePoint :=
  Some ({| x := 0; y := 0; z := 0 |}, {| x := 0; y := 0; z := 1 |}).

Definition sampleRay : Ray :=
  {| origin := {| x := 0; y := 0; z := 0 |};
     rayDirection := {| x := 0; y := 0; z := 1 |};
     near := 0; far := 2000 |}.

End Game.

(** ** MathUtils *)

Module MathUtils.

Import Stdlib.Strings.Ascii.

Definition lerp (start stop t : Q) : Q := start + (stop - start) * t.

Definition clamp (value min max : Q) : Q := Math_max min (Math_min max value).

Definition easeInOutCubic (t : Q) : Q :=
  if js_lt t (1 # 2) then 4 * t * t * t
  else 1 - Qpower (-2 * t + 2) 3 / 2.

(** The [%] of JavaScript: the remainder has the sign of the dividend. *)
Definition truncate (a : Q) : Z := if js_le 0 a then Qfloor a else Qceiling a.

Definition js_rem (a b : Q) : Q := a - b * inject_Z (truncate (a / b)).

(** [n.toString()] for an integer below 2^53 in absolute value: such an
    integer is a number, and is printed with all its digits (from 10^21
    on JavaScript prints an exponent). *)
Definition toString (n : Z) : string :=
  DecimalString.NilZero.string_of_int (Z.to_int n).

(** [s.padStart(targetLength, "0")]. *)
Definition padStart0 (targetLength : nat) (s : string) : string :=
  String.append
    (String.string_of_list_ascii
       (repeat "0"%char (targetLength - String.length s)))
    s.

Definition formatTime (seconds : Q) : string :=
  let mins := Math_floor (seconds / 60) in
  let secs := Math_floor (js_rem seconds 60) in
  String.append (padStart0 2 (toString mins))
    (String.append ":" (padStart0 2 (toString secs))).

(** The classes [\d] and [\w] of regular expressions. *)
Definition isDigit (c : ascii) : bool :=
  let n := Ascii.nat_of_ascii c in (48 <=? n)%nat && (n <=? 57)%nat.

Definition isWordChar (c : ascii) : bool :=
  let n := Ascii.nat_of_ascii c in
  isDigit c || ((65 <=? n)%nat && (n <=? 90)%nat)
            || ((97 <=? n)%nat && (n <=? 122)%nat) || (n =? 95)%nat.

(** The number of digits a text starts with. *)
Fixpoint digitRun (l : list ascii) : nat :=
  match l with
  | c :: rest => if isDigit c then S (digitRun rest) else O
  | [] => O
  end.

(** Whether [/\B(?=(\d{3})+(?!\d))/] matches at the position between the
    character [prev] (if any) and the text [rest]: the position is inside
    a word, and [rest] starts with a run of 3, 6, 9, ... digits. *)
Definition groupStartsHere (prev : option ascii) (rest : list ascii) : bool :=
  match prev with
  | Some p => isWordChar p
  | None => false
  end
  && (0 <? digitRun rest)%nat && (digitRun rest mod 3 =? 0)%nat.

(** [text.replace(/\B(?=(\d{3})+(?!\d))/g, ",")]. *)
Fixpoint insertCommas (prev : option ascii) (rest : list ascii) : list ascii :=
  match rest with
  | [] => []
  | c :: rest' =>
      (if groupStartsHere prev rest then [","%char] else [])
      ++ c :: insertCommas (Some c) rest'
  end.

Definition formatNumber (num : Z) : string :=
  String.string_of_list_ascii
    (insertCommas None (String.list_ascii_of_string (toString num))).

(** The comma and the minus sign as characters. *)
Definition comma : ascii := ","%char.
Definition minus : ascii := "-"%char.

End MathUtils.

(** ** CameraController *)

Module CameraController.

Inductive ViewMode := third_person | first_person | cockpit.

(** The angles, the zoom, the shake and the view mode; the positions the
    camera is moved to are computed with trigonometric functions and are
    not kept here. *)
Record t := {
  horizontalAngle : Q;
  verticalAngle : Q;
  minVerticalAngle : Q;
  maxVerticalAngle : Q;
  zoomLevel : Q;
  minZoom : Q;
  maxZoom : Q;
  shakeIntensity : Q;
  shakeDuration : Q;
  shakeTimer : Q;
  viewMode : option ViewMode;
  viewModes : list ViewMode;
  currentViewIndex : nat
}.

Definition new : t :=
  {| horizontalAngle := 0; verticalAngle := 1 # 5;
     minVerticalAngle := - (1 # 2); maxVerticalAngle := 4 # 5;
     zoomLevel := 1; minZoom := 1 # 2; maxZoom := 2;
     shakeIntensity := 0; shakeDuration := 0; shakeTimer := 0;
     viewMode := Some third_person;
     viewModes := [third_person; first_person; cockpit];
     currentViewIndex := 0 |}.

(** [toggleViewMode()]; the value returned is the new [viewMode]. *)
Definition toggleViewMode (c : t) : t :=
  let index := ((currentViewIndex c + 1) mod length (viewModes c))%nat in
  {| horizontalAngle := horizontalAngle c; verticalAngle := verticalAngle c;
     minVerticalAngle := minVerticalAngle c;
     maxVerticalAngle := maxVerticalAngle c;
     zoomLevel := zoomLevel c; minZoom := minZoom c; maxZoom := maxZoom c;
     shakeIntensity := shakeIntensity c; shakeDuration := shakeDuration c;
     shakeTimer := shakeTimer c;
     viewMode := viewModes c !! index;
     viewModes := viewModes c;
     currentViewIndex := index |}.

Definition rotate (c : t) (deltaX deltaY : Q) : t :=
  let sensitivity := 2 # 1000 in
  {| horizontalAngle := horizontalAngle c + deltaX * sensitivity;
     verticalAngle :=
       MathUtils.clamp (verticalAngle c + deltaY * sensitivity)
                       (minVerticalAngle c) (maxVerticalAngle c);
     minVerticalAngle := minVerticalAngle c;
     maxVerticalAngle := maxVerticalAngle c;
     zoomLevel := zoomLevel c; minZoom := minZoom c; maxZoom := maxZoom c;
     shakeIntensity := shakeIntensity c; shakeDuration := shakeDuration c;
     shakeTimer := shakeTimer c;
     viewMode := viewMode c; viewModes := viewModes c;
     currentViewIndex := currentViewIndex c |}.

Definition zoom (c : t) (delta : Q) : t :=
  {| horizontalAngle := horizontalAngle c; verticalAngle := verticalAngle c;
     minVerticalAngle := minVerticalAngle c;
     maxVerticalAngle := maxVerticalAngle c;
     zoomLevel := MathUtils.clamp (zoomLevel c + delta * (1 # 10))
                                  (minZoom c) (maxZoom c);
     minZoom := minZoom c; maxZoom := maxZoom c;
     shakeIntensity := shakeIntensity c; shakeDuration := shakeDuration c;
     shakeTimer := shakeTimer c;
     viewMode := viewMode c; viewModes := viewModes c;
     currentViewIndex := currentViewIndex c |}.

Definition shake (c : t) (intensity duration : Q) : t :=
  {| horizontalAngle := horizontalAngle c; verticalAngle := verticalAngle c;
     minVerticalAngle := minVerticalAngle c;
     maxVerticalAngle := maxVerticalAngle c;
     zoomLevel := zoomLevel c; minZoom := minZoom c; maxZoom := maxZoom c;
     shakeIntensity := intensity; shakeDuration := duration;
     shakeTimer := duration;
     viewMode := viewMode c; viewModes := viewModes c;
     currentViewIndex := currentViewIndex c |}.

Definition reset (c : t) : t :=
  {| horizontalAngle := 0; verticalAngle := 1 # 5;
     minVerticalAngle := minVerticalAngle c;
     maxVerticalAngle := maxVerticalAngle c;
     zoomLevel := 1; minZoom := minZoom c; maxZoom := maxZoom c;
     shakeIntensity := shakeIntensity c; shakeDuration := shakeDuration c;
     shakeTimer := 0;
     viewMode := viewMode c; viewModes := viewModes c;
     currentViewIndex := currentViewIndex c |}.

(** The calls the game makes on the camera, and a run of them. *)
Inductive Op :=
| OpToggleViewMode
| OpRotate (deltaX deltaY : Q)
| OpZoom (delta : Q)
| OpShake (intensity duration : Q)
| OpReset.

Definition step (c : t) (op : Op) : t :=
  match op with
  | OpToggleViewMode => toggleViewMode c
  | OpRotate deltaX deltaY => rotate c deltaX deltaY
  | OpZoom delta => zoom c delta
  | OpShake intensity duration => shake c intensity duration
  | OpReset => reset c
  end.

Definition run (c : t) (ops : list Op) : t := fold_left step ops c.

End CameraController.

(** ** InputManager *)

Module InputManager.

(** [KEYS]. *)
Definition KEYS_forward : string := "KeyW".
Definition KEYS_backward : string := "KeyS".
Definition KEYS_left : string := "KeyA".
Definition KEYS_right : string := "KeyD".
Definition KEYS_rotateLeft : string := "KeyQ".
Definition KEYS_rotateRight : string := "KeyE".
Definition KEYS_up : string := "Space".
Definition KEYS_down : string := "ShiftLeft".
Definition KEYS_boost : string := "ControlLeft".
Definition KEYS_reload : string := "KeyR".
Definition KEYS_fire : Z := 0.
Definition KEYS_altFire : Z := 2.

Record Mouse := {
  x : Q;
  y : Q;
  normalizedX : Q;
  normalizedY : Q;
  deltaX : Q;
  deltaY : Q;
  buttons : gset Z;
  buttonsJustPressed : gset Z;
  buttonsJustReleased : gset Z;
  wheel : Z
}.

Record t := {
  keys : gset string;
  keysJustPressed : gset string;
  keysJustReleased : gset string;
  mouse : Mouse
}.

Definition new : t :=
  {| keys := ∅; keysJustPressed := ∅; keysJustReleased := ∅;
     mouse := {| x := 0; y := 0; normalizedX := 0; normalizedY := 0;
                 deltaX := 0; deltaY := 0;
                 buttons := ∅; buttonsJustPressed := ∅;
                 buttonsJustReleased := ∅; wheel := 0 |} |}.

Definition with_mouse (im : t) (ms : Mouse) : t :=
  {| keys := keys im; keysJustPressed := keysJustPressed im;
     keysJustReleased := keysJustReleased im; mouse := ms |}.

Definition onKeyDown (im : t) (code : string) : t :=
  {| keys := {[code]} ∪ keys im;
     keysJustPressed :=
       if bool_decide (code ∈ keys im) then keysJustPressed im
       else {[code]} ∪ keysJustPressed im;
     keysJustReleased := keysJustReleased im;
     mouse := mouse im |}.

Definition onKeyUp (im : t) (code : string) : t :=
  {| keys := keys im ∖ {[code]};
     keysJustPressed := keysJustPressed im;
     keysJustReleased := {[code]} ∪ keysJustReleased im;
     mouse := mouse im |}.

Definition onMouseDown (im : t) (button : Z) : t :=
  let ms := mouse im in
  with_mouse im
    {| x := x ms; y := y ms; normalizedX := normalizedX ms;
       normalizedY := normalizedY ms; deltaX := deltaX ms; deltaY := deltaY ms;
       buttons := {[button]} ∪ buttons ms;
       buttonsJustPressed :=
         if bool_decide (button ∈ buttons ms) then buttonsJustPressed ms
         else {[button]} ∪ buttonsJustPressed ms;
       buttonsJustReleased := buttonsJustReleased ms;
       wheel := wheel ms |}.

Definition onMouseUp (im : t) (button : Z) : t :=
  let ms := mouse im in
  with_mouse im
    {| x := x ms; y := y ms; normalizedX := normalizedX ms;
       normalizedY := normalizedY ms; deltaX := deltaX ms; deltaY := deltaY ms;
       buttons := buttons ms ∖ {[button]};
       buttonsJustPressed := buttonsJustPressed ms;
       buttonsJustReleased := {[button]} ∪ buttonsJustReleased ms;
       wheel := wheel ms |}.

(** A [mousemove] event with the size of the window at its time;
    [movementX] and [movementY] may be missing. *)
Record MouseMove := {
  clientX : Q;
  clientY : Q;
  movementX : option Q;
  movementY : option Q;
  innerWidth : Q;
  innerHeight : Q
}.

(** [value || 0] for a number that may be undefined. *)
Definition orZero (value : option Q) : Q :=
  match value with
  | Some v => v
  | None => 0
  end.

Definition onMouseMove (im : t) (event : MouseMove) : t :=
  let ms := mouse im in
  with_mouse im
    {| x := clientX event; y := clientY event;
       normalizedX := (clientX event / innerWidth event) * 2 - 1;
       normalizedY := - (clientY event / innerHeight event) * 2 + 1;
       deltaX := deltaX ms + orZero (movementX event);
       deltaY := deltaY ms + orZero (movementY event);
       buttons := buttons ms; buttonsJustPressed := buttonsJustPressed ms;
       buttonsJustReleased := buttonsJustReleased ms;
       wheel := wheel ms |}.

(** [Math.sign]. *)
Definition Math_sign (v : Q) : Z := Z.sgn (Qnum v).

Definition onWheel (im : t) (eventDeltaY : Q) : t :=
  let ms := mouse im in
  with_mouse im
    {| x := x ms; y := y ms; normalizedX := normalizedX ms;
       normalizedY := normalizedY ms; deltaX := deltaX ms; deltaY := deltaY ms;
       buttons := buttons ms; buttonsJustPressed := buttonsJustPressed ms;
       buttonsJustReleased := buttonsJustReleased ms;
       wheel := (wheel ms + Math_sign eventDeltaY)%Z |}.

Definition isKeyDown (im : t) (keyCode : string) : bool :=
  bool_decide (keyCode ∈ keys im).

Definition isKeyJustPressed (im : t) (keyCode : string) : bool :=
  bool_decide (keyCode ∈ keysJustPressed im).

Definition isKeyJustReleased (im : t) (keyCode : string) : bool :=
  bool_decide (keyCode ∈ keysJustReleased im).

Definition isMouseButtonDown (im : t) (button : Z) : bool :=
  bool_decide (button ∈ buttons (mouse im)).

Definition isMouseButtonJustPressed (im : t) (button : Z) : bool :=
  bool_decide (button ∈ buttonsJustPressed (mouse im)).

Definition isMouseButtonJustReleased (im : t) (button : Z) : bool :=
  bool_decide (button ∈ buttonsJustReleased (mouse im)).

(** [cond ? 1 : 0]. *)
Definition oneIf (cond : bool) : Z := if cond then 1%Z else 0%Z.

Definition getMovementInput (im : t) : Zaku.Input :=
  {| Zaku.forward := oneIf (isKeyDown im KEYS_forward);
     Zaku.backward := oneIf (isKeyDown im KEYS_backward);
     Zaku.left := oneIf (isKeyDown im KEYS_left);
     Zaku.right := oneIf (isKeyDown im KEYS_right);
     Zaku.up := oneIf (isKeyDown im KEYS_up);
     Zaku.down := oneIf (isKeyDown im KEYS_down);
     Zaku.rotateLeft := oneIf (isKeyDown im KEYS_rotateRight);
     Zaku.rotateRight := oneIf (isKeyDown im KEYS_rotateLeft);
     Zaku.boost := isKeyDown im KEYS_boost |}.

(** [getMouseDelta()]: the delta read, and the manager with the delta
    reset. *)
Definition getMouseDelta (im : t) : (Q * Q) * t :=
  let ms := mouse im in
  ((deltaX ms, deltaY ms),
   with_mouse im
     {| x := x ms; y := y ms; normalizedX := normalizedX ms;
        normalizedY := normalizedY ms; deltaX := 0; deltaY := 0;
        buttons := buttons ms; buttonsJustPressed := buttonsJustPressed ms;
        buttonsJustReleased := buttonsJustReleased ms;
        wheel := wheel ms |}).

Definition getMouseWheel (im : t) : Z * t :=
  let ms := mouse im in
  (wheel ms,
   with_mouse im
     {| x := x ms; y := y ms; normalizedX := normalizedX ms;
        normalizedY := normalizedY ms; deltaX := deltaX ms; deltaY := deltaY ms;
        buttons := buttons ms; buttonsJustPressed := buttonsJustPressed ms;
        buttonsJustReleased := buttonsJustReleased ms;
        wheel := 0 |}).

(** [update()], called at the end of every frame. *)
Definition update (im : t) : t :=
  let ms := mouse im in
  {| keys := keys im; keysJustPressed := ∅; keysJustReleased := ∅;
     mouse := {| x := x ms; y := y ms; normalizedX := normalizedX ms;
                 normalizedY := normalizedY ms;
                 deltaX := deltaX ms; deltaY := deltaY ms;
                 buttons := buttons ms; buttonsJustPressed := ∅;
                 buttonsJustReleased := ∅; wheel := wheel ms |} |}.

(** The browser events the manager listens to, and the end of a frame. *)
Inductive Event :=
| KeyDown (code : string)
| KeyUp (code : string)
| MouseDown (button : Z)
| MouseUp (button : Z)
| MouseMoved (event : MouseMove)
| Wheel (eventDeltaY : Q)
| FrameEnd.

Definition handle (im : t) (event : Event) : t :=
  match event with
  | KeyDown code => onKeyDown im code
  | KeyUp code => onKeyUp im code
  | MouseDown button => onMouseDown im button
  | MouseUp button => onMouseUp im button
  | MouseMoved e => onMouseMove im e
  | Wheel d => onWheel im d
  | FrameEnd => update im
  end.

Definition handleAll (im : t) (events : list Event) : t :=
  fold_left handle events im.

(** The last [keydown] or [keyup] of [code] in a sequence of events:
    [Some true] for a [keydown], [None] when there is none. *)
Fixpoint lastKeyEvent (code : string) (events : list Event) : option bool :=
  match events with
  | [] => None
  | e :: rest =>
      match lastKeyEvent code rest with
      | Some b => Some b
      | None =>
          match e with
          | KeyDown c => if String.eqb c code then Some true else None
          | KeyUp c => if String.eqb c code then Some false else None
          | _ => None
          end
      end
  end.

(** The sum of the horizontal movements reported in a sequence of events. *)
Fixpoint totalMovementX (events : list Event) : Q :=
  match events with
  | [] => 0
  | MouseMoved e :: rest => orZero (movementX e) + totalMovementX rest
  | _ :: rest => totalMovementX rest
  end.

Fixpoint totalMovementY (events : list Event) : Q :=
  match events with
  | [] => 0
  | MouseMoved e :: rest => orZero (movementY e) + totalMovementY rest
  | _ :: rest => totalMovementY rest
  end.

End InputManager.

(** ** Zaku: pitch and roll *)

Module ZakuPose.

(** The tilt state of a Zaku, which [processMovement] smooths towards a
    target that depends on the movement keys. *)
Record t := {
  pitch : Q;
  roll : Q;
  targetPitch : Q;
  targetRoll : Q
}.

(** [animConfig]. *)
Definition maxTiltAngle : Q := 6 # 10.
Definition boostTiltAngle : Q := 9 # 10.
Definition tiltSpeed : Q := 4.

Definition new : t :=
  {| pitch := 0; roll := 0; targetPitch := 0; targetRoll := 0 |}.

(** [processMovement] on the fields of [Zaku.t] and on the tilt. *)
Definition processMovement (zk : Zaku.t) (pose : t) (input : Zaku.Input)
    (deltaTime : Q) : Zaku.t * t :=
  let zk' := Zaku.processMovement zk input deltaTime in
  let moveX := (Zaku.right input - Zaku.left input)%Z in
  let moveZ := (Zaku.backward input - Zaku.forward input)%Z in
  let tiltAngle :=
    if Zaku.isBoosting zk' then boostTiltAngle else maxTiltAngle in
  let targetPitch' := inject_Z moveZ * tiltAngle in
  let targetRoll' := inject_Z (- moveX) * tiltAngle in
  (zk',
   {| pitch := MathUtils.lerp (pitch pose) targetPitch' (tiltSpeed * deltaTime);
      roll := MathUtils.lerp (roll pose) targetRoll' (tiltSpeed * deltaTime);
      targetPitch := targetPitch'; targetRoll := targetRoll' |}).

Definition resetPose (pose : t) : t := new.

End ZakuPose.

(** ** Game: the mission *)

Module Mission.

(** [GAME]. *)
Definition GAME_missionTime : Q := 300.
Definition GAME_targetDestructionRate : Q := 70.

Inductive State := menu | playing | paused | gameover.

(** The [reason] argument of [endGame]; it defaults to ['timeout']. *)
Inductive Reason := timeout | collision.

Inductive Title := MISSION_COMPLETE | DESTROYED | TIME_UP.

(** [lastGameData], with the title handed to the game-over screen. *)
Record GameData := {
  scoreData : ScoreSystem.FinalScore;
  destruction : Q;
  timeRemaining : Q;
  isHighScore : bool;
  rank : Z;
  title : Title;
  isVictory : bool
}.

(** The game around the combat core: its state, the mission timer, the
    record of the last game over, the high score of the score system with
    the storage behind it, whether the Zaku is shown, and the number of
    crash timers ([setTimeout] callbacks that will call
    [endGame(false, 'collision')]) not yet fired. *)
Record t := {
  game : Game.t;
  state : State;
  missionTimer : Q;
  lastGameData : option GameData;
  highScore : Z;
  localStorage : ScoreSystem.LocalStorage;
  zakuVisible : bool;
  crashTimers : nat
}.

Definition with_game (m : t) (g : Game.t) : t :=
  {| game := g; state := state m; missionTimer := missionTimer m;
     lastGameData := lastGameData m; highScore := highScore m;
     localStorage := localStorage m; zakuVisible := zakuVisible m;
     crashTimers := crashTimers m |}.

Definition with_state (m : t) (st : State) : t :=
  {| game := game m; state := st; missionTimer := missionTimer m;
     lastGameData := lastGameData m; highScore := highScore m;
     localStorage := localStorage m; zakuVisible := zakuVisible m;
     crashTimers := crashTimers m |}.

Definition with_missionTimer (m : t) (timer : Q) : t :=
  {| game := game m; state := state m; missionTimer := timer;
     lastGameData := lastGameData m; highScore := highScore m;
     localStorage := localStorage m; zakuVisible := zakuVisible m;
     crashTimers := crashTimers m |}.

(** The game after [init()]: entities and systems created, [startGame()]
    run. *)
Definition new (ls : ScoreSystem.LocalStorage) : t :=
  {| game := Game.with_scoreSystem Game.new (ScoreSystem.reset ScoreSystem.new);
     state := playing; missionTimer := GAME_missionTime;
     lastGameData := None;
     highScore := ScoreSystem.loadHighScore ls;
     localStorage := ls; zakuVisible := true; crashTimers := 0 |}.

Definition pauseGame (m : t) : t := with_state m paused.

Definition resumeGame (m : t) : t := with_state m playing.

(** The [blur] listener of the window. *)
Definition onBlur (m : t) : t :=
  match state m with
  | playing => pauseGame m
  | _ => m
  end.

(** [endGame(victory, reason)]; [date] is the time stamp taken by
    [saveToRankings]. *)
Definition endGame (m : t) (victory : bool) (reason : Reason) (date : string)
    : t :=
  match state m with
  | gameover => m
  | _ =>
      let percentage := Colony.getDestructionPercentage (Game.colony (game m)) in
      let scoreData' :=
        ScoreSystem.calculateFinalScore (Game.scoreSystem (game m))
          (missionTimer m) percentage in
      let '(isHighScore', highScore', ls1) :=
        ScoreSystem.checkHighScore (Game.scoreSystem (game m))
          (highScore m) (localStorage m) in
      let '(rank', ls2) :=
        ScoreSystem.saveToRankings ls1 (ScoreSystem.finalScore scoreData')
          percentage (missionTimer m) date in
      let title' :=
        if victory then MISSION_COMPLETE
        else match reason with
             | collision => DESTROYED
             | timeout => TIME_UP
             end in
      {| game := game m; state := gameover; missionTimer := missionTimer m;
         lastGameData :=
           Some {| scoreData := scoreData'; destruction := percentage;
                   timeRemaining := missionTimer m;
                   isHighScore := isHighScore'; rank := rank';
                   title := title'; isVictory := victory |};
         highScore := highScore'; localStorage := ls2;
         zakuVisible := zakuVisible m; crashTimers := crashTimers m |}
  end.

(** [handleZakuCrash()]: the Zaku is hidden and one more crash timer is
    pending. *)
Definition handleZakuCrash (m : t) : t :=
  {| game := game m; state := state m; missionTimer := missionTimer m;
     lastGameData := lastGameData m; highScore := highScore m;
     localStorage := localStorage m; zakuVisible := false;
     crashTimers := S (crashTimers m) |}.

(** A pending crash timer fires. *)
Definition crashTimerFires (m : t) (date : string) : t :=
  match crashTimers m with
  | O => m
  | S k =>
      endGame
        {| game := game m; state := state m; missionTimer := missionTimer m;
           lastGameData := lastGameData m; highScore := highScore m;
           localStorage := localStorage m; zakuVisible := zakuVisible m;
           crashTimers := k |}
        false collision date
  end.

(** [restartGame()]. *)
Definition restartGame (m : t) : t :=
  let g := game m in
  let zk := Game.zaku g in
  let zk' :=
    {| Zaku.isMoving := Zaku.isMoving zk; Zaku.isBoosting := Zaku.isBoosting zk;
       Zaku.boostEnergy := Zaku.maxBoostEnergy zk;
       Zaku.maxBoostEnergy := Zaku.maxBoostEnergy zk;
       Zaku.boostRegenRate := Zaku.boostRegenRate zk;
       Zaku.boostDrainRate := Zaku.boostDrainRate zk;
       Zaku.isFiring := Zaku.isFiring zk;
       Zaku.lastFireTime := Zaku.lastFireTime zk;
       Zaku.fireRate := Zaku.fireRate zk; Zaku.bullets := Zaku.bullets zk;
       Zaku.bulletSpeed := Zaku.bulletSpeed zk;
       Zaku.bulletRange := Zaku.bulletRange zk;
       Zaku.bulletDamage := Zaku.bulletDamage zk |} in
  {| game := {| Game.zaku := zk'; Game.colony := Colony.new;
                Game.scoreSystem := ScoreSystem.reset (Game.scoreSystem g);
                Game.deltaTime := Game.deltaTime g |};
     state := playing; missionTimer := GAME_missionTime;
     lastGameData := lastGameData m; highScore := highScore m;
     localStorage := localStorage m; zakuVisible := true;
     crashTimers := crashTimers m |}.

(** What one iteration of the game loop reads from its collaborators: the
    frame time, the input sample, whether the left mouse button is held,
    the clock and the muzzle for [zaku.fire()], the camera ray, whether
    the Zaku's bounding sphere is found inside the colony, and the time
    stamp a game over in this frame would carry. *)
Record Frame := {
  frameTime : Q;
  movement : Zaku.Input;
  fireHeld : bool;
  now : Z;
  muzzlePoint : Zaku.MuzzlePoint;
  cameraRay : Ray;
  collides : bool;
  date : string
}.

Section Raycasting.

Variable intersectObjects : Ray -> list Object3D -> list Intersection.

(** [update(deltaTime)].  [None] stands for an exception in one of the
    bullet loops. *)
Definition update (m : t) (f : Frame) : option t :=
  let dt := frameTime f in
  let m1 := with_missionTimer m (missionTimer m - dt) in
  if js_le (missionTimer m1) 0 then Some (endGame m1 false timeout (date f))
  else
    let g := game m1 in
    let zk1 := Zaku.processMovement (Game.zaku g) (movement f) dt in
    match Zaku.updateBullets zk1 dt with
    | None => None
    | Some zk2 =>
        let g1 := Game.with_zaku g zk2 in
        let g2 :=
          if fireHeld f
          then Game.handleShooting intersectObjects g1 (now f)
                 (muzzlePoint f) (cameraRay f)
          else g1 in
        match Game.checkBulletCollisions intersectObjects g2 with
        | None => None
        | Some g3 =>
            let g4 :=
              Game.with_scoreSystem g3
                (ScoreSystem.update (Game.scoreSystem g3) dt) in
            let m2 := with_game m1 g4 in
            let m3 := if collides f then handleZakuCrash m2 else m2 in
            if js_ge (Colony.getDestructionPercentage (Game.colony g4))
                     GAME_targetDestructionRate
            then Some (endGame m3 true timeout (date f))
            else Some m3
        end
    end.

(** One iteration of [gameLoop()]: the frame time is stored, and the game
    is updated only while playing. *)
Definition gameLoop (m : t) (f : Frame) : option t :=
  let m0 := with_game m (Game.with_deltaTime (game m) (frameTime f)) in
  match state m0 with
  | playing => update m0 f
  | _ => Some m0
  end.

(** What can happen to a running game, and a run of such events. *)
Inductive Event :=
| Loop (f : Frame)
| CrashTimer (date : string)
| Blur
| Restart.

Definition handle (m : t) (e : Event) : option t :=
  match e with
  | Loop f => gameLoop m f
  | CrashTimer d => Some (crashTimerFires m d)
  | Blur => Some (onBlur m)
  | Restart => Some (restartGame m)
  end.

Fixpoint handleAll (m : t) (events : list Event) : option t :=
  match events with
  | [] => Some m
  | e :: rest =>
      match handle m e with
      | None => None
      | Some m' => handleAll m' rest
      end
  end.

End Raycasting.

(** A frame of 1/60 s with no key and no button held and the camera
    looking along z; [withFire] holds the left button. *)
Definition idleFrame : Frame :=
  {| frameTime := 1 # 60;
     movement := {| Zaku.forward := 0; Zaku.backward := 0; Zaku.left := 0;
                    Zaku.right := 0; Zaku.up := 0; Zaku.down := 0;
                    Zaku.rotateLeft := 0; Zaku.rotateRight := 0;
                    Zaku.boost := false |};
     fireHeld := false; now := 1000;
     muzzlePoint := Game.sampleMuzzle; cameraRay := Game.sampleRay;
     collides := false; date := "2024-01-01T00:00:00.000Z" |}.

Definition withFrameTime (f : Frame) (dt : Q) : Frame :=
  {| frameTime := dt; movement := movement f; fireHeld := fireHeld f;
     now := now f; muzzlePoint := muzzlePoint f; cameraRay := cameraRay f;
     collides := collides f; date := date f |}.

Definition withFire (f : Frame) : Frame :=
  {| frameTime := frameTime f; movement := movement f; fireHeld := true;
     now := now f; muzzlePoint := muzzlePoint f; cameraRay := cameraRay f;
     collides := collides f; date := date f |}.

Definition withCollision (f : Frame) : Frame :=
  {| frameTime := frameTime f; movement := movement f; fireHeld := fireHeld f;
     now := now f; muzzlePoint := muzzlePoint f; cameraRay := cameraRay f;
     collides := true; date := date f |}.

(** A storage that works and is empty. *)
Definition emptyStorage : ScoreSystem.LocalStorage :=
  {| ScoreSystem.getItemThrows := false; ScoreSystem.setItemThrows := false;
     ScoreSystem.highScoreItem := None; ScoreSystem.rankingsItem := None |}.

End Mission.

(** ** Binary64: the numbers of JavaScript

    A JavaScript number is an IEEE 754 binary64 value, and every sum,
    product and quotient of the program is rounded to the nearest such
    value.  The modules above compute with exact rationals; this module
    holds the statements of the program whose outcome the rounding can
    decide, over Rocq's primitive binary64 numbers, so that they can be
    run as the program runs them. *)

Module Binary64.

Local Open Scope float_scope.
#[local] Set Warnings "-inexact-float".

(** The rational a finite number stands for (0 for the others). *)
Definition toQ (v : float) : Q :=
  match FloatOps.Prim2SF v with
  | SpecFloat.S754_finite sign m e =>
      ((if sign then - (1) else 1) * inject_Z (Z.pos m) * Qpower 2 e)%Q
  | _ => 0%Q
  end.

(** An integer below 2^53 in absolute value as a number. *)
Definition ofZ (n : Z) : float :=
  if (n <? 0)%Z then - of_uint63 (Uint63.of_Z (- n))
  else of_uint63 (Uint63.of_Z n).

(** [Math.floor]: a number whose exponent is not negative is an integer
    already; infinities and NaN are returned as they are. *)
Definition Math_floor (v : float) : float :=
  match FloatOps.Prim2SF v with
  | SpecFloat.S754_finite sign m e =>
      if (0 <=? e)%Z then v
      else
        let whole := (Z.pos m / 2 ^ (- e))%Z in
        if (Z.pos m mod 2 ^ (- e) =? 0)%Z then v
        else if sign then ofZ (- (whole + 1)) else ofZ whole
  | _ => v
  end.

(** [a >= b] and [a > b]. *)
Definition js_ge (a b : float) : bool := b <=? a.
Definition js_gt (a b : float) : bool := b <? a.

(** *** ScoreSystem.addScore *)

(** The fields [addScore] reads and writes; [maxCombo] is
    [stats.maxCombo]. *)
Record ScoreSystem := {
  score : float;
  combo : float;
  comboTimer : float;
  comboTimeout : float;
  maxCombo : float
}.

Record AddScoreResult := {
  points : float;
  r_combo : float;
  multiplier : float
}.

Definition addScore (s : ScoreSystem) (basePoints : float)
    : AddScoreResult * ScoreSystem :=
  let comboMultiplier := 1 + combo s * 0.1 in
  let pts := Math_floor (basePoints * comboMultiplier) in
  let combo' := combo s + 1 in
  ({| points := pts; r_combo := combo'; multiplier := comboMultiplier |},
   {| score := score s + pts; combo := combo';
      comboTimer := comboTimeout s; comboTimeout := comboTimeout s;
      maxCombo := if js_gt combo' (maxCombo s) then combo' else maxCombo s |}).

(** A score system in the middle of a streak of [streak] destructions. *)
Definition inStreak (streak : float) : ScoreSystem :=
  {| score := 0; combo := streak; comboTimer := 3000; comboTimeout := 3000;
     maxCombo := streak |}.

(** *** Zaku.updateBullets *)

Record Vector3 := { x : float; y : float; z : float }.

Definition multiplyScalar (v : Vector3) (s : float) : Vector3 :=
  {| x := x v * s; y := y v * s; z := z v * s |}.

Definition add (v w : Vector3) : Vector3 :=
  {| x := x v + x w; y := y v + y w; z := z v + z w |}.

Record UserData := {
  startPosition : Vector3;
  direction : Vector3;
  distanceTraveled : float;
  maxDistance : float;
  damage : float;
  speed : float
}.

Record Bullet := {
  position : Vector3;
  userData : UserData
}.

Definition moveBullet (bullet : Bullet) (deltaTime : float) : Bullet :=
  let ud := userData bullet in
  let moveDistance := speed ud * deltaTime in
  {| position := add (position bullet) (multiplyScalar (direction ud) moveDistance);
     userData := {| startPosition := startPosition ud; direction := direction ud;
                    distanceTraveled := distanceTraveled ud + moveDistance;
                    maxDistance := maxDistance ud; damage := damage ud;
                    speed := speed ud |} |}.

Definition exceededRange (bullet : Bullet) : bool :=
  js_ge (distanceTraveled (userData bullet)) (maxDistance (userData bullet)).

(** The loop of [updateBullets], as in [Zaku.updateBullets_loop]. *)
Fixpoint updateBullets_loop (n : nat) (bs : list Bullet) (deltaTime : float)
    : option (list Bullet) :=
  match n with
  | O => Some bs
  | S i =>
      match bs !! i with
      | None => None
      | Some bullet =>
          let bs1 := <[i := moveBullet bullet deltaTime]> bs in
          if exceededRange (moveBullet bullet deltaTime)
          then updateBullets_loop i (delete i bs1) deltaTime
          else updateBullets_loop i bs1 deltaTime
      end
  end.

Definition updateBullets (bs : list Bullet) (deltaTime : float)
    : option (list Bullet) :=
  updateBullets_loop (length bs) bs deltaTime.

(** A run of [updateBullets] calls. *)
Fixpoint updateBulletsMany (bs : list Bullet) (dts : list float)
    : option (list Bullet) :=
  match dts with
  | [] => Some bs
  | dt :: rest =>
      match updateBullets bs dt with
      | None => None
      | Some bs' => updateBulletsMany bs' rest
      end
  end.

(** The bullet [spawnBullet] creates with the range 60, the damage 10
    and the speed 150 of the Zaku as built, at the origin, flying along
    z. *)
Definition newBullet : Bullet :=
  let origin := {| x := 0; y := 0; z := 0 |} in
  {| position := origin;
     userData := {| startPosition := origin;
                    direction := {| x := 0; y := 0; z := 1 |};
                    distanceTraveled := 0; maxDistance := 60;
                    damage := 10; speed := 150 |} |}.

(** Frame times: the binary64 value of 1/65 s, and of 0.1 s. *)
Definition oneSixtyFifth : float := 1 / 65.
Definition oneTenth : float := 0.1.

(** The time the frames of a list take, as a rational of seconds. *)
Definition elapsed (dts : list float) : Q :=
  fold_right (fun dt total => (toQ dt + total)%Q) 0%Q dts.

(** *** MathUtils.formatTime: the minutes *)

Definition minutes (seconds : float) : float := Math_floor (seconds / 60).

End Binary64.

(** ** Notions used by the properties *)

(** What [damageSection] never touches in a section: the identity of its
    mesh, its type, its maximal health and its points. *)
Definition fixedPart (s : Colony.section) : nat * Colony.SectionType * Q * Q :=
  (uuid (Colony.mesh s), Colony.type s, Colony.maxHealth s, Colony.points s).

(** A structure in which the destroyed sections are exactly the hidden
    ones and exactly those without health left. *)
Definition coherent (c : Colony.t) : Prop :=
  Forall (fun s =>
            if Colony.destroyed s
            then Colony.health s <= 0 /\ visible (Colony.mesh s) = false
            else 0 < Colony.health s /\ visible (Colony.mesh s) = true)
         (Colony.sections c).

(** The order of the rankings: [a] may stand before [b]. *)
Definition byScore (a b : ScoreSystem.Entry) : Prop :=
  (ScoreSystem.e_score b <= ScoreSystem.e_score a)%Z.

(** The number of entries that score at least [score]. *)
Definition atLeast (score : Z) (l : list ScoreSystem.Entry) : nat :=
  length (List.filter (fun a => (score <=? ScoreSystem.e_score a)%Z) l).

(** No entry of [l] has both the score and the date of [e]. *)
Definition unseen (e : ScoreSystem.Entry) (l : list ScoreSystem.Entry) : Prop :=
  Forall (fun a => ~ (ScoreSystem.e_score a = ScoreSystem.e_score e /\
                      ScoreSystem.e_date a = ScoreSystem.e_date e)) l.

(** A storage holding three ranked games, two of them with 300 points. *)
Definition sampleStorage : ScoreSystem.LocalStorage :=
  {| ScoreSystem.getItemThrows := false; ScoreSystem.setItemThrows := false;
     ScoreSystem.highScoreItem := Some 450%Z;
     ScoreSystem.rankingsItem :=
       Some [ {| ScoreSystem.e_score := 500; ScoreSystem.e_destruction := 70;
                 ScoreSystem.e_time := 12;
                 ScoreSystem.e_date := "2024-01-01T10:00:00.000Z" |};
              {| ScoreSystem.e_score := 300; ScoreSystem.e_destruction := 41;
                 ScoreSystem.e_time := 0;
                 ScoreSystem.e_date := "2024-01-02T10:00:00.000Z" |};
              {| ScoreSystem.e_score := 300; ScoreSystem.e_destruction := 39;
                 ScoreSystem.e_time := 0;
                 ScoreSystem.e_date := "2024-01-03T10:00:00.000Z" |} ] |}.

(** Whether the ray of a bullet meets none of the targets in a frame of
    length [dt]. *)
Definition missed (intersectObjects : Ray -> list Object3D -> list Intersection)
    (dt : Q) (targets : list Object3D) (bullet : Zaku.Bullet) : bool :=
  match intersectObjects (Game.bulletRay bullet dt) targets with
  | [] => true
  | _ :: _ => false
  end.

(** The number of destroyed sections of a structure. *)
Definition destroyedCount (c : Colony.t) : nat :=
  length (List.filter Colony.destroyed (Colony.sections c)).

(** The counters of a score system agree with a structure: the
    destructions recorded are its destroyed sections, no more hits than
    shots are recorded, and the combo is bounded by its maximum, which is
    bounded by the number of destructions. *)
Definition consistent (c : Colony.t) (s : ScoreSystem.t) : Prop :=
  let st := ScoreSystem.stats s in
  ScoreSystem.sectionsDestroyed st = Z.of_nat (destroyedCount c) /\
  (0 <= ScoreSystem.shotsHit st <= ScoreSystem.shotsFired st)%Z /\
  (0 <= ScoreSystem.combo s <= ScoreSystem.maxCombo st)%Z /\
  (ScoreSystem.maxCombo st <= ScoreSystem.sectionsDestroyed st)%Z.

(** What a game-over record says about the game it closes: the bonuses
    shown are those of the time and the destruction shown, a completed
    mission reached the target with time left, a timed-out one had no time
    left, a crashed one had time left, and neither of the two had reached
    the target. *)
Definition justified (d : Mission.GameData) : Prop :=
  ScoreSystem.timeBonus (Mission.scoreData d) =
    Math_floor (Mission.timeRemaining d * 50) /\
  ScoreSystem.destructionBonus (Mission.scoreData d) =
    Math_floor (Mission.destruction d * 100) /\
  match Mission.title d with
  | Mission.MISSION_COMPLETE =>
      Mission.isVictory d = true /\
      Mission.GAME_targetDestructionRate <= Mission.destruction d /\
      0 < Mission.timeRemaining d
  | Mission.TIME_UP =>
      Mission.isVictory d = false /\
      Mission.destruction d < Mission.GAME_targetDestructionRate /\
      Mission.timeRemaining d <= 0
  | Mission.DESTROYED =>
      Mission.isVictory d = false /\
      Mission.destruction d < Mission.GAME_targetDestructionRate /\
      0 < Mission.timeRemaining d
  end.

(** The invariant of a mission: it has left the menu; while it is not
    over there is time left and the target is not reached; once it is over
    there is a record of it; and the record kept is justified. *)
Definition live (m : Mission.t) : Prop :=
  Mission.state m <> Mission.menu /\
  (Mission.state m <> Mission.gameover ->
   0 < Mission.missionTimer m /\
   Colony.getDestructionPercentage (Game.colony (Mission.game m))
     < Mission.GAME_targetDestructionRate) /\
  (Mission.state m = Mission.gameover -> Mission.lastGameData m <> None) /\
  (forall d, Mission.lastGameData m = Some d -> justified d).

(** Sample missions: one that ended in a crash right after its start, one
    in its last hundredth of a second, and one with a crash timer pending. *)
Definition crashedMission : Mission.t :=
  Mission.endGame (Mission.new Mission.emptyStorage) false Mission.collision
    "2024-01-01T00:00:01.000Z".

Definition lateMission : Mission.t :=
  Mission.with_missionTimer (Mission.new Mission.emptyStorage) (1 # 100).

Definition crashingMission : Mission.t :=
  Mission.handleZakuCrash (Mission.new sampleStorage).

(** A Zaku with an empty boost tank, and the input sample of a player
    who holds nothing but the boost key. *)
Definition emptyTank : Zaku.t :=
  {| Zaku.isMoving := false; Zaku.isBoosting := true;
     Zaku.boostEnergy := 0; Zaku.maxBoostEnergy := 100;
     Zaku.boostRegenRate := 15; Zaku.boostDrainRate := 25;
     Zaku.isFiring := false; Zaku.lastFireTime := 0;
     Zaku.fireRate := Zaku.WEAPONS_machineGun_fireRate;
     Zaku.bullets := [];
     Zaku.bulletSpeed := 150;
     Zaku.bulletRange := Zaku.WEAPONS_machineGun_range;
     Zaku.bulletDamage := Zaku.WEAPONS_machineGun_damage |}.

Definition boostHeld : Zaku.Input :=
  InputManager.getMovementInput
    (InputManager.onKeyDown InputManager.new InputManager.KEYS_boost).

(** The input manager with the keys W, D and the boost key down. *)
Definition forwardRightBoost : InputManager.t :=
  InputManager.handleAll InputManager.new
    [InputManager.KeyDown InputManager.KEYS_forward;
     InputManager.KeyDown InputManager.KEYS_right;
     InputManager.KeyDown InputManager.KEYS_boost].

(** The number of [toggleViewMode] calls in a run of camera calls. *)
Fixpoint toggles (ops : list CameraController.Op) : nat :=
  match ops with
  | [] => 0
  | CameraController.OpToggleViewMode :: rest => S (toggles rest)
  | _ :: rest => toggles rest
  end.

(** Digits written in groups of three counted from the right: a comma
    follows a digit when the number of digits after it is a positive
    multiple of three. *)
Fixpoint grouped (digits : list Ascii.ascii) : list Ascii.ascii :=
  match digits with
  | [] => []
  | c :: rest =>
      c :: (if (0 <? length rest)%nat && (length rest mod 3 =? 0)%nat
            then MathUtils.comma :: grouped rest
            else grouped rest)
  end.

(** A text without its commas. *)
Definition withoutCommas (text : string) : list Ascii.ascii :=
  List.filter (fun c => negb (Ascii.eqb c MathUtils.comma))
              (String.list_ascii_of_string text).

(** The high score of a mission that started with the storage [ls0]: it
    is at least the one loaded at the start and at least the stored one,
    it is the stored one when the storage works, the storage works or
    fails as at the start, and the base score of the last game over does
    not exceed it. *)
Definition highScoreKept (ls0 : ScoreSystem.LocalStorage) (m : Mission.t) : Prop :=
  let ls := Mission.localStorage m in
  (ScoreSystem.loadHighScore ls0 <= Mission.highScore m)%Z /\
  (ScoreSystem.loadHighScore ls <= Mission.highScore m)%Z /\
  ScoreSystem.getItemThrows ls = ScoreSystem.getItemThrows ls0 /\
  ScoreSystem.setItemThrows ls = ScoreSystem.setItemThrows ls0 /\
  (ScoreSystem.getItemThrows ls0 = false ->
   ScoreSystem.setItemThrows ls0 = false ->
   ScoreSystem.loadHighScore ls = Mission.highScore m) /\
  (forall d, Mission.lastGameData m = Some d ->
             (ScoreSystem.baseScore (Mission.scoreData d) <= Mission.highScore m)%Z).



(** * Properties *)

(** ** Comparisons *)

Lemma js_le_true (a b : Q) : js_le a b = true <-> a <= b.
Proof. unfold js_le. apply Qle_bool_iff. Qed.

Lemma js_le_false (a b : Q) : js_le a b = false <-> b < a.
Proof.
  unfold js_le. split; intros H.
  - apply Qnot_le_lt. intros Hle. apply Qle_bool_iff in Hle. congruence.
  - destruct (Qle_bool a b) eqn:E; [|reflexivity].
    apply Qle_bool_iff in E. exfalso. apply (Qlt_not_le _ _ H E).
Qed.

Lemma js_ge_true (a b : Q) : js_ge a b = true <-> b <= a.
Proof. unfold js_ge. apply Qle_bool_iff. Qed.

Lemma js_ge_false (a b : Q) : js_ge a b = false <-> a < b.
Proof. apply js_le_false. Qed.

Lemma js_gt_true (a b : Q) : js_gt a b = true <-> b < a.
Proof.
  unfold js_gt. rewrite negb_true_iff. apply js_le_false.
Qed.

Lemma js_gt_false (a b : Q) : js_gt a b = false <-> a <= b.
Proof.
  unfold js_gt. rewrite negb_false_iff. apply js_le_true.
Qed.

Lemma at_index_Some {A : Type} (arr : list A) (i : Z) (a : A) :
  at_index arr i = Some a ->
  (0 <= i)%Z /\ arr !! Z.to_nat i = Some a /\ (Z.to_nat i < length arr)%nat.
Proof.
  unfold at_index. destruct (Z.ltb_spec i 0); [discriminate|].
  intros H1. split; [assumption|]. split; [assumption|].
  eapply lookup_lt_Some; eassumption.
Qed.

Lemma at_index_out_of_range {A : Type} (arr : list A) (i : Z) :
  (i < 0 \/ Z.of_nat (length arr) <= i)%Z -> at_index arr i = None.
Proof.
  unfold at_index. intros [H|H].
  - apply Z.ltb_lt in H. rewrite H. reflexivity.
  - destruct (Z.ltb_spec i 0); [reflexivity|].
    apply lookup_ge_None. lia.
Qed.

(** ** damageSection on an invalid index or a destroyed section *)

Lemma damageSection_undefined (c : Colony.t) (i : Z) (d : Q) :
  at_index (Colony.sections c) i = None ->
  Colony.damageSection c i d = (None, c).
Proof. intros H. unfold Colony.damageSection. rewrite H. reflexivity. Qed.

Lemma damageSection_destroyed (c : Colony.t) (i : Z) (d : Q) (s : Colony.section) :
  at_index (Colony.sections c) i = Some s -> Colony.destroyed s = true ->
  Colony.damageSection c i d = (None, c).
Proof.
  intros H Hd. unfold Colony.damageSection. rewrite H, Hd. reflexivity.
Qed.

Lemma damageAll_cons (c : Colony.t) (call : Z * Q) (calls : list (Z * Q)) :
  Colony.damageAll c (call :: calls) =
  Colony.damageAll (snd (Colony.damageSection c (fst call) (snd call))) calls.
Proof. reflexivity. Qed.

Lemma damageAll_app (c : Colony.t) (calls1 calls2 : list (Z * Q)) :
  Colony.damageAll c (calls1 ++ calls2) =
  Colony.damageAll (Colony.damageAll c calls1) calls2.
Proof. unfold Colony.damageAll. apply fold_left_app. Qed.

(** C4.  [damageSection] returns [null] and leaves the whole structure,
    hence the section's health and the structure-wide current health, as it
    was whenever the index is out of range or the section at the index is
    already destroyed; any number of further calls on such an index, with
    any damage amounts, return [null] again and change nothing. *)
Theorem damageSection_invalid_or_destroyed_is_noop
    (c : Colony.t) (i : Z) (d : Q) :
  (i < 0)%Z \/ (Z.of_nat (length (Colony.sections c)) <= i)%Z \/
  (exists s, at_index (Colony.sections c) i = Some s /\
             Colony.destroyed s = true) ->
  Colony.damageSection c i d = (None, c) /\
  forall ds : list Q,
    Colony.damageAll c (map (fun d' => (i, d')) ds) = c /\
    Forall (fun d' => fst (Colony.damageSection c i d') = None) ds.
Proof.
  intros H.
  assert (Hnull : forall d', Colony.damageSection c i d' = (None, c)).
  { intros d'. destruct H as [H|[H|(s & Hs & Hd)]].
    - apply damageSection_undefined, at_index_out_of_range. lia.
    - apply damageSection_undefined, at_index_out_of_range. lia.
    - eapply damageSection_destroyed; eassumption. }
  split; [apply Hnull|].
  intros ds. split.
  - induction ds as [|d' ds IH]; [reflexivity|].
    cbn [map]. rewrite damageAll_cons. cbn [fst snd].
    rewrite Hnull. exact IH.
  - apply Forall_forall. intros d' _. rewrite Hnull. reflexivity.
Qed.

(** ** The three outcomes of damageSection *)

Lemma damageSection_outcome (c : Colony.t) (i : Z) (d : Q) :
  DamageOutcome c i d (fst (Colony.damageSection c i d))
                      (snd (Colony.damageSection c i d)).
Proof.
  unfold Colony.damageSection.
  destruct (at_index (Colony.sections c) i) as [s|] eqn:Hi.
  2:{ cbn. apply outcome_null. left. exact Hi. }
  destruct (Colony.destroyed s) eqn:Hd.
  { cbn. apply outcome_null. right. exists s. split; [exact Hi|assumption]. }
  cbn [Colony.health Colony.mesh Colony.type Colony.points Colony.maxHealth].
  destruct (js_le (Colony.health s - d) 0) eqn:Hle.
  - cbn [fst snd]. apply js_le_true in Hle.
    apply outcome_destroyed; try assumption; try reflexivity.
    cbn. rewrite list_insert_insert_eq. unfold Colony.wrecked.
    reflexivity.
  - cbn [fst snd]. apply js_le_false in Hle.
    rewrite <- Hd at 2.
    apply outcome_hit; try assumption; reflexivity.
Qed.

(** C10.  The exposed destruction percentage is recomputed only when a
    section is destroyed: a call that damages a section without destroying
    it lowers the structure-wide current health by the damage and leaves
    the value of [getDestructionPercentage] as it was, a call that returns
    [null] leaves it as it was too, and a destroying call stores the
    percentage of health removed. *)
Theorem percentage_recomputed_only_on_destruction
    (c : Colony.t) (i : Z) (d : Q) :
  let result := fst (Colony.damageSection c i d) in
  let c' := snd (Colony.damageSection c i d) in
  match result with
  | None => Colony.getDestructionPercentage c' = Colony.getDestructionPercentage c
  | Some r =>
      Colony.currentHealth c' = Colony.currentHealth c - d /\
      (0 < d -> Colony.currentHealth c' < Colony.currentHealth c) /\
      if Colony.r_destroyed r
      then Colony.getDestructionPercentage c' = Colony.healthRemoved c'
      else Colony.getDestructionPercentage c' = Colony.getDestructionPercentage c
  end.
Proof.
  cbv zeta.
  destruct (damageSection_outcome c i d) as [H|s c' Hi Hd Hh Hs Ht Hc Hp|s c' Hi Hd Hh Hs Ht Hc Hp].
  - reflexivity.
  - cbn [Colony.r_destroyed]. split; [exact Hc|]. split; [|exact Hp].
    intros Hpos. rewrite Hc. lra.
  - cbn [Colony.r_destroyed]. split; [exact Hc|]. split; [|exact Hp].
    intros Hpos. rewrite Hc. lra.
Qed.

(** ** The scenario of one segment hit twice *)

(** C2, as amended.  On a structure with one segment of [maxHealth] 50 and
    [points] 100, the first [damageSection(0, 30)] returns
    [{destroyed: false, points: 30}] and leaves the segment's health at 20;
    the second returns [{destroyed: true, points: 100}] and marks the
    segment destroyed, but nothing is clamped: the segment's health is left
    at 20 - 30 = -10, the structure-wide current health at -10, and
    [getDestructionPercentage] returns 120. *)
Theorem one_segment_two_hits :
  let first := Colony.damageSection Colony.oneSegment 0 30 in
  let second := Colony.damageSection (snd first) 0 30 in
  fst first = Some {| Colony.r_points := 30;
                      Colony.r_destroyed := false;
                      Colony.r_type := Colony.window |} /\
  (exists s, Colony.sections (snd first) = [s] /\
             Colony.health s == 20 /\ Colony.destroyed s = false) /\
  fst second = Some {| Colony.r_points := 100;
                       Colony.r_destroyed := true;
                       Colony.r_type := Colony.window |} /\
  (exists s, Colony.sections (snd second) = [s] /\
             Colony.health s == -10 /\ Colony.destroyed s = true) /\
  Colony.currentHealth (snd second) == -10 /\
  Colony.getDestructionPercentage (snd second) == 120.
Proof.
  cbv zeta. repeat split.
  - eexists. split; [vm_compute; reflexivity|]. split; reflexivity.
  - eexists. split; [vm_compute; reflexivity|]. split; reflexivity.
Qed.

(** C2 as stated fails: after the second hit the segment's health is not 0
    and the exposed percentage is not 100. *)
Lemma one_segment_two_hits_not_clamped :
  let first := Colony.damageSection Colony.oneSegment 0 30 in
  let second := Colony.damageSection (snd first) 0 30 in
  (forall s, Colony.sections (snd second) = [s] -> ~ Colony.health s == 0) /\
  ~ Colony.getDestructionPercentage (snd second) == 100 /\
  ~ ((exists s, Colony.sections (snd second) = [s] /\ Colony.health s == 0) /\
     Colony.getDestructionPercentage (snd second) == 100).
Proof.
  cbv zeta. split; [|split].
  - intros s Hs. vm_compute in Hs. injection Hs as <-.
    vm_compute. discriminate.
  - vm_compute. discriminate.
  - intros [_ H]. vm_compute in H. discriminate H.
Qed.

(** ** The percentage of health removed *)









Example exact_destruction_gives_100 :
  let c := Colony.damageAll Colony.oneSegment [(0%Z, 30); (0%Z, 20)] in
  Forall (fun s => Colony.destroyed s = true) (Colony.sections c) /\
  Colony.getDestructionPercentage c == 100.
Proof. cbv zeta. split; [vm_compute; repeat constructor|reflexivity]. Qed.


(** The noop theorem at work: the first window of the colony, destroyed by
    a hit of 50, is hit again. *)
Lemma damageSection_invalid_or_destroyed_is_noop_witness :
  let c := snd (Colony.damageSection Colony.new 0 50) in
  ((0 < 0)%Z \/ (Z.of_nat (length (Colony.sections c)) <= 0)%Z \/
   (exists s, at_index (Colony.sections c) 0 = Some s /\
              Colony.destroyed s = true)) /\
  Colony.damageSection c 0 10 = (None, c) /\
  forall ds : list Q,
    Colony.damageAll c (map (fun d' => (0%Z, d')) ds) = c /\
    Forall (fun d' => fst (Colony.damageSection c 0 d') = None) ds.
Proof.
  cbv zeta.
  assert (H : exists s,
             at_index (Colony.sections (snd (Colony.damageSection Colony.new 0 50))) 0 = Some s /\
             Colony.destroyed s = true).
  { eexists. split; vm_compute; reflexivity. }
  split; [right; right; exact H|].
  apply (damageSection_invalid_or_destroyed_is_noop
           (snd (Colony.damageSection Colony.new 0 50)) 0 10).
  right; right; exact H.
Defined.

(** ** Combo scoring *)

Lemma addScore_points (s : ScoreSystem.t) (basePoints : Q) :
  ScoreSystem.points (fst (ScoreSystem.addScore s basePoints)) =
  Math_floor (basePoints * (1 + inject_Z (ScoreSystem.combo s) * (1 # 10))).
Proof. reflexivity. Qed.

Lemma addScore_state (s : ScoreSystem.t) (basePoints : Q) :
  let s' := snd (ScoreSystem.addScore s basePoints) in
  ScoreSystem.score s' =
    (ScoreSystem.score s +
     ScoreSystem.points (fst (ScoreSystem.addScore s basePoints)))%Z /\
  ScoreSystem.combo s' = (ScoreSystem.combo s + 1)%Z /\
  ScoreSystem.comboTimer s' = ScoreSystem.comboTimeout s /\
  ScoreSystem.comboTimeout s' = ScoreSystem.comboTimeout s.
Proof. cbv zeta. repeat split. Qed.

Lemma update_cases (s : ScoreSystem.t) (dt : Q) :
  let s' := ScoreSystem.update s dt in
  ((ScoreSystem.combo s <= 0)%Z /\ s' = s) \/
  ((0 < ScoreSystem.combo s)%Z /\
   ScoreSystem.comboTimer s - dt * 1000 <= 0 /\
   ScoreSystem.combo s' = 0%Z /\ ScoreSystem.comboTimer s' = 0) \/
  ((0 < ScoreSystem.combo s)%Z /\
   0 < ScoreSystem.comboTimer s - dt * 1000 /\
   ScoreSystem.combo s' = ScoreSystem.combo s /\
   ScoreSystem.comboTimer s' = ScoreSystem.comboTimer s - dt * 1000).
Proof.
  cbv zeta. unfold ScoreSystem.update.
  destruct (Z.ltb_spec 0 (ScoreSystem.combo s)) as [Hc|Hc].
  - right. cbn [ScoreSystem.comboTimer].
    destruct (js_le (ScoreSystem.comboTimer s - dt * 1000) 0) eqn:Hle.
    + left. apply js_le_true in Hle. repeat split; assumption.
    + right. apply js_le_false in Hle. repeat split; assumption.
  - left. split; [assumption|reflexivity].
Qed.

Lemma step_keeps_timer (s : ScoreSystem.t) (op : ScoreSystem.Op) :
  0 < ScoreSystem.comboTimeout s ->
  let s' := ScoreSystem.step s op in
  0 < ScoreSystem.comboTimeout s' /\
  ((0 < ScoreSystem.combo s')%Z -> 0 < ScoreSystem.comboTimer s').
Proof.
  intros Htimeout. destruct op as [basePoints|dt|]; cbv zeta; cbn [ScoreSystem.step].
  - split; [exact Htimeout|]. intros _. exact Htimeout.
  - assert (Hsame : ScoreSystem.comboTimeout (ScoreSystem.update s dt) =
                    ScoreSystem.comboTimeout s).
    { unfold ScoreSystem.update.
      destruct (0 <? ScoreSystem.combo s)%Z; [|reflexivity].
      destruct (js_le _ 0); reflexivity. }
    rewrite Hsame. split; [exact Htimeout|].
    destruct (update_cases s dt)
      as [[Hc Heq]|[(Hc & Hle & Hc' & Ht')|(Hc & Hlt & Hc' & Ht')]].
    + rewrite Heq. intros Hpos. lia.
    + rewrite Hc'. intros Hpos. lia.
    + intros _. rewrite Ht'. exact Hlt.
  - split; [exact Htimeout|]. cbn. intros Hpos. lia.
Qed.

(** C5.  After each of [addScore], [update] and [resetCombo] a positive
    combo comes with a positive combo timer; [addScore] increments the
    combo by exactly 1 and sets the timer to the full timeout; and an
    [update] during which the timer of a running combo reaches 0 (or
    passes it) resets the combo to exactly 0. *)
Theorem combo_invariant (s : ScoreSystem.t) :
  0 < ScoreSystem.comboTimeout s ->
  (forall op : ScoreSystem.Op,
     let s' := ScoreSystem.step s op in
     0 < ScoreSystem.comboTimeout s' /\
     ((0 < ScoreSystem.combo s')%Z -> 0 < ScoreSystem.comboTimer s')) /\
  (forall basePoints : Q,
     let s' := snd (ScoreSystem.addScore s basePoints) in
     ScoreSystem.combo s' = (ScoreSystem.combo s + 1)%Z /\
     ScoreSystem.comboTimer s' = ScoreSystem.comboTimeout s) /\
  (forall dt : Q,
     (0 < ScoreSystem.combo s)%Z ->
     ScoreSystem.comboTimer s - dt * 1000 <= 0 ->
     ScoreSystem.combo (ScoreSystem.update s dt) = 0%Z).
Proof.
  intros Htimeout. split; [|split].
  - intros op. apply step_keeps_timer. exact Htimeout.
  - intros basePoints. cbv zeta. split; reflexivity.
  - intros dt Hc Hle.
    destruct (update_cases s dt)
      as [[Hc' _]|[(_ & _ & Hc' & _)|(_ & Hlt & _)]].
    + lia.
    + exact Hc'.
    + lra.
Qed.

Lemma combo_invariant_witness :
  0 < ScoreSystem.comboTimeout ScoreSystem.new /\
  (forall op : ScoreSystem.Op,
     let s' := ScoreSystem.step ScoreSystem.new op in
     0 < ScoreSystem.comboTimeout s' /\
     ((0 < ScoreSystem.combo s')%Z -> 0 < ScoreSystem.comboTimer s')) /\
  (forall basePoints : Q,
     let s' := snd (ScoreSystem.addScore ScoreSystem.new basePoints) in
     ScoreSystem.combo s' = (ScoreSystem.combo ScoreSystem.new + 1)%Z /\
     ScoreSystem.comboTimer s' = ScoreSystem.comboTimeout ScoreSystem.new) /\
  (forall dt : Q,
     (0 < ScoreSystem.combo ScoreSystem.new)%Z ->
     ScoreSystem.comboTimer ScoreSystem.new - dt * 1000 <= 0 ->
     ScoreSystem.combo (ScoreSystem.update ScoreSystem.new dt) = 0%Z).
Proof.
  split; [reflexivity|].
  apply (combo_invariant ScoreSystem.new). reflexivity.
Defined.

(** The invariant along every run that starts from a fresh score system. *)
Lemma fresh_run_keeps_timer (ops : list ScoreSystem.Op) :
  let s := ScoreSystem.run ScoreSystem.new ops in
  0 < ScoreSystem.comboTimeout s /\
  ((0 < ScoreSystem.combo s)%Z -> 0 < ScoreSystem.comboTimer s).
Proof.
  cbv zeta. unfold ScoreSystem.run.
  induction ops as [|op ops IH] using rev_ind.
  - split; [reflexivity|]. cbn. intros H. lia.
  - rewrite fold_left_app. cbn [fold_left].
    destruct IH as [Ht _].
    exact (step_keeps_timer _ op Ht).
Qed.

(** A combo of one, left without a hit for the 3000 ms of the window, is
    reset by the update that completes the window. *)
Example combo_times_out :
  let s1 := snd (ScoreSystem.addScore ScoreSystem.new 100) in
  let s2 := ScoreSystem.update s1 1 in
  let s3 := ScoreSystem.update s2 2 in
  ScoreSystem.combo s1 = 1%Z /\ ScoreSystem.combo s2 = 1%Z /\
  ScoreSystem.combo s3 = 0%Z.
Proof. cbv zeta. repeat split. Qed.

(** ** Hit testing *)


Lemma traverse_set_visible_ids (o : Object3D) (v : bool) :
  map uuid (traverse (set_visible o v)) = map uuid (traverse o).
Proof. destruct o. reflexivity. Qed.

Lemma objectIds_insert (ss : list Colony.section) (n : nat)
    (s s' : Colony.section) :
  ss !! n = Some s ->
  Colony.sectionIds s' = Colony.sectionIds s ->
  flat_map Colony.sectionIds (<[n := s']> ss) = flat_map Colony.sectionIds ss.
Proof.
  revert n. induction ss as [|a ss IH]; intros n Hn Hids; [discriminate Hn|].
  destruct n as [|n].
  - injection Hn as ->.
    change (<[0%nat := s']> (s :: ss)) with (s' :: ss).
    cbn [flat_map]. rewrite Hids. reflexivity.
  - change (<[S n := s']> (a :: ss)) with (a :: <[n := s']> ss).
    cbn [flat_map]. rewrite (IH n Hn Hids). reflexivity.
Qed.

Lemma damageSection_objectIds (c : Colony.t) (i : Z) (d : Q) :
  Colony.objectIds (snd (Colony.damageSection c i d)) = Colony.objectIds c.
Proof.
  unfold Colony.objectIds.
  destruct (damageSection_outcome c i d)
    as [H|s c' Hi _ _ Hs _ _ _|s c' Hi _ _ Hs _ _ _].
  - reflexivity.
  - apply at_index_Some in Hi as (_ & Hi & _).
    rewrite Hs. eapply objectIds_insert; [exact Hi|reflexivity].
  - apply at_index_Some in Hi as (_ & Hi & _).
    rewrite Hs. eapply objectIds_insert; [exact Hi|].
    unfold Colony.sectionIds. cbn [Colony.mesh Colony.wrecked].
    apply traverse_set_visible_ids.
Qed.

(** Every structure reached from the colony as built has pairwise distinct
    objects under its sections. *)
Lemma objectIds_NoDup (calls : list (Z * Q)) :
  NoDup (Colony.objectIds (Colony.damageAll Colony.new calls)).
Proof.
  assert (Hids : Colony.objectIds (Colony.damageAll Colony.new calls) =
                 Colony.objectIds Colony.new).
  { unfold Colony.damageAll. generalize Colony.new as c.
    induction calls as [|call calls IH]; intros c; [reflexivity|].
    cbn [fold_left]. rewrite IH. apply damageSection_objectIds. }
  rewrite Hids. apply (bool_decide_unpack _). vm_compute. reflexivity.
Qed.



Lemma getSectionAtPoint_from_spec (ss : list Colony.section) (k : nat)
    (hit : Intersection) (i : nat) (s : Colony.section) :
  Colony.getSectionAtPoint_from k ss hit = Some (i, s) ->
  (k <= i)%nat /\ ss !! (i - k)%nat = Some s /\
  Colony.destroyed s = false /\
  (uuid (Colony.mesh s) = uuid (object hit) \/
   In (uuid (Colony.mesh s)) (parents hit)).
Proof.
  revert k. induction ss as [|a ss IH]; intros k H; [discriminate H|].
  cbn [Colony.getSectionAtPoint_from] in H.
  assert (Hnext : Colony.getSectionAtPoint_from (S k) ss hit = Some (i, s) ->
                  (k <= i)%nat /\ (a :: ss) !! (i - k)%nat = Some s /\
                  Colony.destroyed s = false /\
                  (uuid (Colony.mesh s) = uuid (object hit) \/
                   In (uuid (Colony.mesh s)) (parents hit))).
  { intros Hn. apply IH in Hn as (Hk & Hl & Hrest).
    split; [lia|]. split; [|exact Hrest].
    replace (i - k)%nat with (S (i - S k)) by lia. exact Hl. }
  destruct (Colony.destroyed a) eqn:Hd; [exact (Hnext H)|].
  destruct (Nat.eqb_spec (uuid (Colony.mesh a)) (uuid (object hit))) as [He|_].
  { injection H as <- <-. split; [lia|]. rewrite Nat.sub_diag.
    split; [reflexivity|]. split; [exact Hd|]. left. exact He. }
  destruct (existsb (Nat.eqb (uuid (Colony.mesh a))) (parents hit)) eqn:Hp.
  { injection H as <- <-. split; [lia|]. rewrite Nat.sub_diag.
    split; [reflexivity|]. split; [exact Hd|]. right.
    apply existsb_exists in Hp as (p & Hin & Heq).
    apply Nat.eqb_eq in Heq. rewrite Heq. exact Hin. }
  exact (Hnext H).
Qed.

Lemma getSectionAtPoint_live (c : Colony.t) (hit : Intersection)
    (i : nat) (s : Colony.section) :
  Colony.getSectionAtPoint c hit = Some (i, s) ->
  at_index (Colony.sections c) (Z.of_nat i) = Some s /\
  Colony.destroyed s = false /\
  (uuid (Colony.mesh s) = uuid (object hit) \/
   In (uuid (Colony.mesh s)) (parents hit)).
Proof.
  intros H. apply getSectionAtPoint_from_spec in H as (_ & Hl & Hrest).
  rewrite Nat.sub_0_r in Hl. split; [|exact Hrest].
  unfold at_index. destruct (Z.ltb_spec (Z.of_nat i) 0); [lia|].
  rewrite Nat2Z.id. exact Hl.
Qed.

Lemma damageSection_live (c : Colony.t) (i : Z) (d : Q) (s : Colony.section) :
  at_index (Colony.sections c) i = Some s -> Colony.destroyed s = false ->
  exists r, fst (Colony.damageSection c i d) = Some r /\
            Colony.currentHealth (snd (Colony.damageSection c i d)) =
              Colony.currentHealth c - d.
Proof.
  intros Hi Hd. unfold Colony.damageSection. rewrite Hi, Hd.
  destruct (js_le _ 0); eexists; split; reflexivity.
Qed.

(** ** Scoring of hits *)

Lemma applyHit_colony (g : Game.t) (index : nat) (damage : Q) :
  Game.colony (Game.applyHit g index damage) =
  snd (Colony.damageSection (Game.colony g) (Z.of_nat index) damage).
Proof.
  unfold Game.applyHit.
  destruct (Colony.damageSection (Game.colony g) (Z.of_nat index) damage)
    as [[r|] c']; cbn [snd]; [|reflexivity].
  destruct (Colony.r_destroyed r); reflexivity.
Qed.

Lemma applyHit_zaku (g : Game.t) (index : nat) (damage : Q) :
  Game.zaku (Game.applyHit g index damage) = Game.zaku g /\
  Game.deltaTime (Game.applyHit g index damage) = Game.deltaTime g.
Proof.
  unfold Game.applyHit.
  destruct (Colony.damageSection (Game.colony g) (Z.of_nat index) damage)
    as [[r|] c']; [|split; reflexivity].
  destruct (Colony.r_destroyed r); split; reflexivity.
Qed.


Lemma fire_colony_score (g : Game.t) (now : Z) (muzzlePoint : Zaku.MuzzlePoint) :
  let g0 := Game.with_zaku g (snd (Zaku.fire (Game.zaku g) now muzzlePoint)) in
  Game.colony g0 = Game.colony g /\ Game.scoreSystem g0 = Game.scoreSystem g /\
  Game.deltaTime g0 = Game.deltaTime g.
Proof. repeat split. Qed.










Example destroying_beam_scores_100 :
  ScoreSystem.score
    (Game.scoreSystem
       (Game.handleShooting Game.hitFirstTarget (Game.atFrameTime (1 # 10))
          1000 Game.sampleMuzzle Game.sampleRay)) = 100%Z.
Proof. reflexivity. Qed.

(** The award in the arithmetic of the program.  For the 100 points of a
    window, [addScore] pays 100 with no streak and 130 in a streak of 3,
    as the exact product does; in a streak of 13 the multiplier
    [1 + 13 * 0.1] is rounded below 2.3, the product below 230, and
    [addScore] pays 229 where the exact product gives 230. *)
Example award_in_binary64 :
  let award streak :=
    Binary64.points (fst (Binary64.addScore (Binary64.inStreak streak) 100)) in
  award 0%float = 100%float /\
  award 3%float = 130%float /\
  award 13%float = 229%float /\
  (let streak13 :=
     Nat.iter 13 (fun s => snd (ScoreSystem.addScore s 100)) ScoreSystem.new in
   ScoreSystem.combo streak13 = 13%Z /\
   ScoreSystem.points (fst (ScoreSystem.addScore streak13 100)) = 230%Z).
Proof. cbv zeta. repeat split; vm_compute; reflexivity. Qed.


(** ** The fire-rate gate *)

Lemma fire_rejected (zk : Zaku.t) (now : Z) (muzzlePoint : Zaku.MuzzlePoint) :
  (now - Zaku.lastFireTime zk < Zaku.fireRate zk)%Z ->
  Zaku.fire zk now muzzlePoint = (false, zk).
Proof.
  intros H. unfold Zaku.fire. apply Z.ltb_lt in H. rewrite H. reflexivity.
Qed.

Lemma fire_accepted (zk : Zaku.t) (now : Z) (startPos dir : Vector3) :
  (Zaku.fireRate zk <= now - Zaku.lastFireTime zk)%Z ->
  let bullet :=
    {| Zaku.position := startPos;
       Zaku.userData :=
         {| Zaku.startPosition := startPos; Zaku.direction := dir;
            Zaku.distanceTraveled := 0;
            Zaku.maxDistance := Zaku.bulletRange zk;
            Zaku.damage := Zaku.bulletDamage zk;
            Zaku.speed := Zaku.bulletSpeed zk |} |} in
  fst (Zaku.fire zk now (Some (startPos, dir))) = true /\
  Zaku.bullets (snd (Zaku.fire zk now (Some (startPos, dir)))) =
    Zaku.bullets zk ++ [bullet] /\
  Zaku.lastFireTime (snd (Zaku.fire zk now (Some (startPos, dir)))) = now /\
  Zaku.fireRate (snd (Zaku.fire zk now (Some (startPos, dir)))) = Zaku.fireRate zk.
Proof.
  intros H. cbv zeta. unfold Zaku.fire.
  destruct (Z.ltb_spec (now - Zaku.lastFireTime zk) (Zaku.fireRate zk)); [lia|].
  repeat split.
Qed.

(** C6.  A fire request less than [fireRate] milliseconds after the last
    accepted one returns [false] and changes nothing, so no bullet is
    spawned; any other request returns [true], appends exactly one bullet
    to the live ones and records its time as the last fire time.  Hence of
    two requests, the second within the window opened by the first being
    accepted, the second returns [false] and one bullet was added in all. *)
Theorem fire_rate_gate
    (zk : Zaku.t) (now : Z) (startPos dir : Vector3) :
  let muzzlePoint := Some (startPos, dir) in
  let fired := fst (Zaku.fire zk now muzzlePoint) in
  let zk' := snd (Zaku.fire zk now muzzlePoint) in
  ((now - Zaku.lastFireTime zk < Zaku.fireRate zk)%Z ->
   fired = false /\ zk' = zk) /\
  ((Zaku.fireRate zk <= now - Zaku.lastFireTime zk)%Z ->
   fired = true /\
   length (Zaku.bullets zk') = S (length (Zaku.bullets zk)) /\
   (exists bullet, Zaku.bullets zk' = Zaku.bullets zk ++ [bullet]) /\
   Zaku.lastFireTime zk' = now /\
   forall (now2 : Z) (startPos2 dir2 : Vector3),
     (now2 - now < Zaku.fireRate zk)%Z ->
     fst (Zaku.fire zk' now2 (Some (startPos2, dir2))) = false /\
     snd (Zaku.fire zk' now2 (Some (startPos2, dir2))) = zk' /\
     length (Zaku.bullets (snd (Zaku.fire zk' now2 (Some (startPos2, dir2))))) =
       S (length (Zaku.bullets zk))).
Proof.
  cbv zeta. split.
  - intros H. rewrite (fire_rejected zk now _ H). split; reflexivity.
  - intros H.
    destruct (fire_accepted zk now startPos dir H) as (Hf & Hb & Hl & Hr).
    cbv zeta in Hb.
    assert (Hlen : length (Zaku.bullets (snd (Zaku.fire zk now (Some (startPos, dir)))))
                   = S (length (Zaku.bullets zk))).
    { rewrite Hb, length_app. cbn. lia. }
    split; [exact Hf|]. split; [exact Hlen|].
    split; [eexists; exact Hb|]. split; [exact Hl|].
    intros now2 startPos2 dir2 H2.
    rewrite fire_rejected by (rewrite Hl, Hr; exact H2).
    cbn [fst snd]. repeat split. exact Hlen.
Qed.

(** The theorem at work on a fresh Zaku: a request at clock reading 1000
    is accepted, one at 1050 falls into the window of 100 ms. *)
Lemma fire_rate_gate_witness :
  let origin := {| x := 0; y := 0; z := 0 |} in
  let ahead := {| x := 0; y := 0; z := 1 |} in
  let zk' := snd (Zaku.fire Zaku.new 1000 (Some (origin, ahead))) in
  (Zaku.fireRate Zaku.new <= 1000 - Zaku.lastFireTime Zaku.new)%Z /\
  (1050 - 1000 < Zaku.fireRate Zaku.new)%Z /\
  fst (Zaku.fire Zaku.new 1000 (Some (origin, ahead))) = true /\
  length (Zaku.bullets zk') = 1%nat /\
  fst (Zaku.fire zk' 1050 (Some (origin, ahead))) = false /\
  length (Zaku.bullets (snd (Zaku.fire zk' 1050 (Some (origin, ahead))))) = 1%nat.
Proof.
  cbv zeta.
  assert (H1 : (Zaku.fireRate Zaku.new <= 1000 - Zaku.lastFireTime Zaku.new)%Z)
    by (vm_compute; discriminate).
  assert (H2 : (1050 - 1000 < Zaku.fireRate Zaku.new)%Z) by reflexivity.
  split; [exact H1|]. split; [exact H2|].
  destruct (fire_rate_gate Zaku.new 1000
              {| x := 0; y := 0; z := 0 |} {| x := 0; y := 0; z := 1 |})
    as [_ Haccept].
  destruct (Haccept H1) as (Hfired & Hlen & _ & _ & Hsecond).
  destruct (Hsecond 1050%Z {| x := 0; y := 0; z := 0 |}
              {| x := 0; y := 0; z := 1 |} H2) as (Hrej & _ & Hlen2).
  split; [exact Hfired|]. split; [exact Hlen|]. split; [exact Hrej|].
  exact Hlen2.
Defined.

(** Two requests 50 ms apart on a fresh Zaku whose clock reads 1000 and
    1050: the first is accepted, the second rejected, one bullet is live. *)
Example fire_twice_within_100ms :
  let first := Zaku.fire Zaku.new 1000 Game.sampleMuzzle in
  let second := Zaku.fire (snd first) 1050 Game.sampleMuzzle in
  fst first = true /\ fst second = false /\
  length (Zaku.bullets (snd second)) = 1%nat.
Proof. cbv zeta. repeat split. Qed.

(** The guard of [spawnBullet]: without a muzzle node an accepted request
    would return [true] and add no bullet.  The gun built by
    [createMachineGun] always carries the node, and nothing removes it. *)
Example fire_without_muzzle_node :
  fst (Zaku.fire Zaku.new 1000 None) = true /\
  Zaku.bullets (snd (Zaku.fire Zaku.new 1000 None)) = [].
Proof. split; reflexivity. Qed.

(** ** Boost energy *)

Lemma processMovement_energy (zk : Zaku.t) (input : Zaku.Input) (dt : Q) :
  let zk' := Zaku.processMovement zk input dt in
  0 <= dt ->
  0 <= Zaku.boostDrainRate zk -> 0 <= Zaku.boostRegenRate zk ->
  0 <= Zaku.boostEnergy zk <= Zaku.maxBoostEnergy zk ->
  0 <= Zaku.boostEnergy zk' <= Zaku.maxBoostEnergy zk' /\
  (Zaku.isBoosting zk' = true -> Zaku.boostEnergy zk' <= Zaku.boostEnergy zk) /\
  (Zaku.isBoosting zk' = false -> Zaku.boostEnergy zk <= Zaku.boostEnergy zk') /\
  Zaku.maxBoostEnergy zk' = Zaku.maxBoostEnergy zk /\
  Zaku.boostDrainRate zk' = Zaku.boostDrainRate zk /\
  Zaku.boostRegenRate zk' = Zaku.boostRegenRate zk.
Proof.
  cbv zeta. intros Hdt Hdrain Hregen [Hlo Hhi].
  unfold Zaku.processMovement.
  cbn [Zaku.boostEnergy Zaku.maxBoostEnergy Zaku.isBoosting
       Zaku.boostDrainRate Zaku.boostRegenRate].
  assert (Hd : 0 <= Zaku.boostDrainRate zk * dt) by (apply Qmult_le_0_compat; assumption).
  assert (Hr : 0 <= Zaku.boostRegenRate zk * dt) by (apply Qmult_le_0_compat; assumption).
  destruct (Zaku.boost input && js_gt (Zaku.boostEnergy zk) 0).
  - unfold Math_max.
    assert (Hmax : Qmax 0 (Zaku.boostEnergy zk - Zaku.boostDrainRate zk * dt)
                   <= Zaku.boostEnergy zk).
    { apply Q.max_lub; lra. }
    pose proof (Q.le_max_l 0 (Zaku.boostEnergy zk - Zaku.boostDrainRate zk * dt)).
    repeat split; try assumption; try lra; try discriminate.
  - unfold Math_min.
    assert (Hmin : Zaku.boostEnergy zk <=
                   Qmin (Zaku.maxBoostEnergy zk)
                        (Zaku.boostEnergy zk + Zaku.boostRegenRate zk * dt)).
    { apply Q.min_glb; lra. }
    pose proof (Q.le_min_l (Zaku.maxBoostEnergy zk)
                  (Zaku.boostEnergy zk + Zaku.boostRegenRate zk * dt)).
    repeat split; try assumption; try lra; try discriminate.
Qed.

Lemma processMovement_step (zk : Zaku.t) (input : Zaku.Input) (dt : Q) :
  let zk' := Zaku.processMovement zk input dt in
  Zaku.isBoosting zk' = Zaku.boost input && js_gt (Zaku.boostEnergy zk) 0 /\
  (Zaku.isBoosting zk' = true ->
     Zaku.boostEnergy zk' =
       Math_max 0 (Zaku.boostEnergy zk - Zaku.boostDrainRate zk * dt) /\
     (Zaku.boostDrainRate zk * dt <= Zaku.boostEnergy zk ->
        Zaku.boostEnergy zk' ==
          Zaku.boostEnergy zk - Zaku.boostDrainRate zk * dt) /\
     (Zaku.boostEnergy zk <= Zaku.boostDrainRate zk * dt ->
        Zaku.boostEnergy zk' == 0)) /\
  (Zaku.isBoosting zk' = false ->
     Zaku.boostEnergy zk' =
       Math_min (Zaku.maxBoostEnergy zk)
                (Zaku.boostEnergy zk + Zaku.boostRegenRate zk * dt) /\
     (Zaku.boostEnergy zk + Zaku.boostRegenRate zk * dt
        <= Zaku.maxBoostEnergy zk ->
        Zaku.boostEnergy zk' ==
          Zaku.boostEnergy zk + Zaku.boostRegenRate zk * dt) /\
     (Zaku.maxBoostEnergy zk
        <= Zaku.boostEnergy zk + Zaku.boostRegenRate zk * dt ->
        Zaku.boostEnergy zk' == Zaku.maxBoostEnergy zk)).
Proof.
  cbv zeta. unfold Zaku.processMovement.
  cbn [Zaku.boostEnergy Zaku.maxBoostEnergy Zaku.isBoosting
       Zaku.boostDrainRate Zaku.boostRegenRate].
  split; [reflexivity|].
  destruct (Zaku.boost input && js_gt (Zaku.boostEnergy zk) 0).
  - split; [|intros H; discriminate H]. intros _.
    split; [reflexivity|]. unfold Math_max. split; intros H.
    + apply Q.max_r. lra.
    + apply Q.max_l. lra.
  - split; [intros H; discriminate H|]. intros _.
    split; [reflexivity|]. unfold Math_min. split; intros H.
    + apply Q.min_r. exact H.
    + apply Q.min_l. exact H.
Qed.

(** C9.  Along every sequence of [processMovement] calls with non-negative
    frame times and any inputs, the boost energy stays within
    [0, maxBoostEnergy].  A call boosts exactly when the boost flag is set
    and the energy it finds is above 0.  A boosting call leaves
    [max 0 (energy - drainRate * dt)]: the energy less the drain when the
    drain does not exceed it, and 0 otherwise; it never raises the energy.
    Any other call leaves [min maxBoostEnergy (energy + regenRate * dt)]:
    the energy plus the regeneration when that does not exceed the
    maximum, and the maximum otherwise; it never lowers the energy.  The
    maximum and the two rates are never written. *)
Theorem boost_energy_in_range
    (zk : Zaku.t) (frames : list (Zaku.Input * Q)) :
  0 <= Zaku.boostDrainRate zk -> 0 <= Zaku.boostRegenRate zk ->
  0 <= Zaku.boostEnergy zk <= Zaku.maxBoostEnergy zk ->
  Forall (fun frame => 0 <= snd frame) frames ->
  let zk' := Zaku.processMovements zk frames in
  0 <= Zaku.boostEnergy zk' <= Zaku.maxBoostEnergy zk' /\
  Zaku.maxBoostEnergy zk' = Zaku.maxBoostEnergy zk /\
  Zaku.boostDrainRate zk' = Zaku.boostDrainRate zk /\
  Zaku.boostRegenRate zk' = Zaku.boostRegenRate zk /\
  forall (input : Zaku.Input) (dt : Q),
    0 <= dt ->
    let zk'' := Zaku.processMovement zk' input dt in
    0 <= Zaku.boostEnergy zk'' <= Zaku.maxBoostEnergy zk'' /\
    Zaku.isBoosting zk'' =
      Zaku.boost input && js_gt (Zaku.boostEnergy zk') 0 /\
    (Zaku.isBoosting zk'' = true ->
       Zaku.boostEnergy zk'' <= Zaku.boostEnergy zk' /\
       Zaku.boostEnergy zk'' =
         Math_max 0 (Zaku.boostEnergy zk' - Zaku.boostDrainRate zk' * dt) /\
       (Zaku.boostDrainRate zk' * dt <= Zaku.boostEnergy zk' ->
          Zaku.boostEnergy zk'' ==
            Zaku.boostEnergy zk' - Zaku.boostDrainRate zk' * dt) /\
       (Zaku.boostEnergy zk' <= Zaku.boostDrainRate zk' * dt ->
          Zaku.boostEnergy zk'' == 0)) /\
    (Zaku.isBoosting zk'' = false ->
       Zaku.boostEnergy zk' <= Zaku.boostEnergy zk'' /\
       Zaku.boostEnergy zk'' =
         Math_min (Zaku.maxBoostEnergy zk')
                  (Zaku.boostEnergy zk' + Zaku.boostRegenRate zk' * dt) /\
       (Zaku.boostEnergy zk' + Zaku.boostRegenRate zk' * dt
          <= Zaku.maxBoostEnergy zk' ->
          Zaku.boostEnergy zk'' ==
            Zaku.boostEnergy zk' + Zaku.boostRegenRate zk' * dt) /\
       (Zaku.maxBoostEnergy zk'
          <= Zaku.boostEnergy zk' + Zaku.boostRegenRate zk' * dt ->
          Zaku.boostEnergy zk'' == Zaku.maxBoostEnergy zk')).
Proof.
  intros Hdrain Hregen Hrange Hframes. cbv zeta.
  assert (Hinv : Zaku.maxBoostEnergy (Zaku.processMovements zk frames)
                   = Zaku.maxBoostEnergy zk /\
                 Zaku.boostDrainRate (Zaku.processMovements zk frames)
                   = Zaku.boostDrainRate zk /\
                 Zaku.boostRegenRate (Zaku.processMovements zk frames)
                   = Zaku.boostRegenRate zk /\
                 0 <= Zaku.boostEnergy (Zaku.processMovements zk frames)
                   <= Zaku.maxBoostEnergy (Zaku.processMovements zk frames)).
  { unfold Zaku.processMovements. revert zk Hdrain Hregen Hrange.
    induction Hframes as [|frame frames Hdt _ IH]; intros zk Hdrain Hregen Hrange.
    - cbn. repeat split; tauto.
    - cbn [fold_left].
      destruct (processMovement_energy zk (fst frame) (snd frame)
                  Hdt Hdrain Hregen Hrange) as (Hr' & _ & _ & Hm' & Hd' & Hg').
      rewrite <- Hm', <- Hd', <- Hg'.
      apply IH; [rewrite Hd'|rewrite Hg'|]; assumption. }
  destruct Hinv as (Hm' & Hd' & Hg' & Hr').
  split; [exact Hr'|]. split; [exact Hm'|]. split; [exact Hd'|].
  split; [exact Hg'|].
  intros input dt Hdt.
  assert (Hd0 : 0 <= Zaku.boostDrainRate (Zaku.processMovements zk frames))
    by (rewrite Hd'; exact Hdrain).
  assert (Hg0 : 0 <= Zaku.boostRegenRate (Zaku.processMovements zk frames))
    by (rewrite Hg'; exact Hregen).
  destruct (processMovement_energy _ input dt Hdt Hd0 Hg0 Hr')
    as (H1 & H2 & H3 & _).
  destruct (processMovement_step (Zaku.processMovements zk frames) input dt)
    as (Hb & Hon & Hoff).
  split; [exact H1|]. split; [exact Hb|]. split.
  - intros Hboost. destruct (Hon Hboost) as (Ha & Hb1 & Hc).
    split; [exact (H2 Hboost)|]. split; [exact Ha|]. split; assumption.
  - intros Hboost. destruct (Hoff Hboost) as (Ha & Hb1 & Hc).
    split; [exact (H3 Hboost)|]. split; [exact Ha|]. split; assumption.
Qed.

(** The theorem at work on a fresh Zaku: after 3 s of boost the tank holds
    25 of 100; one more second of boost drains it to 0, and one second
    without boost regenerates 15. *)
Lemma boost_energy_in_range_witness :
  let boosting :=
    {| Zaku.forward := 1; Zaku.backward := 0; Zaku.left := 0; Zaku.right := 0;
       Zaku.up := 0; Zaku.down := 0; Zaku.rotateLeft := 0;
       Zaku.rotateRight := 0; Zaku.boost := true |} in
  let idle :=
    {| Zaku.forward := 0; Zaku.backward := 0; Zaku.left := 0; Zaku.right := 0;
       Zaku.up := 0; Zaku.down := 0; Zaku.rotateLeft := 0;
       Zaku.rotateRight := 0; Zaku.boost := false |} in
  let frames := [(boosting, 3)] in
  0 <= Zaku.boostDrainRate Zaku.new /\ 0 <= Zaku.boostRegenRate Zaku.new /\
  0 <= Zaku.boostEnergy Zaku.new <= Zaku.maxBoostEnergy Zaku.new /\
  Forall (fun frame : Zaku.Input * Q => 0 <= snd frame) frames /\
  let zk' := Zaku.processMovements Zaku.new frames in
  Zaku.boostEnergy zk' == 25 /\
  Zaku.boostEnergy (Zaku.processMovement zk' boosting 1) == 0 /\
  Zaku.boostEnergy (Zaku.processMovement zk' idle 1) == 40.
Proof.
  cbv zeta.
  assert (H1 : 0 <= Zaku.boostDrainRate Zaku.new) by (vm_compute; discriminate).
  assert (H2 : 0 <= Zaku.boostRegenRate Zaku.new) by (vm_compute; discriminate).
  assert (H3 : 0 <= Zaku.boostEnergy Zaku.new <= Zaku.maxBoostEnergy Zaku.new)
    by (split; vm_compute; discriminate).
  split; [exact H1|]. split; [exact H2|]. split; [exact H3|].
  match goal with |- Forall ?P ?l /\ _ =>
    assert (H4 : Forall P l) by (repeat constructor; vm_compute; discriminate)
  end.
  split; [exact H4|].
  destruct (boost_energy_in_range Zaku.new _ H1 H2 H3 H4)
    as (_ & _ & _ & _ & Hstep).
  split; [reflexivity|]. split.
  - match goal with |- Zaku.boostEnergy (Zaku.processMovement _ ?i ?d) == _ =>
      destruct (Hstep i d) as (_ & _ & Hon & _); [vm_compute; discriminate|]
    end.
    destruct Hon as (_ & _ & _ & Hzero); [reflexivity|].
    apply Hzero. vm_compute. discriminate.
  - match goal with |- Zaku.boostEnergy (Zaku.processMovement _ ?i ?d) == _ =>
      destruct (Hstep i d) as (_ & _ & _ & Hoff); [vm_compute; discriminate|]
    end.
    destruct Hoff as (_ & _ & Hadd & _); [reflexivity|].
    rewrite Hadd; [reflexivity|]. vm_compute. discriminate.
Defined.

(** Boosting for 3 s and then 2 s drains the 100 units at 25 per second to
    25 and then to 0.  With the energy at 0 a held boost key no longer
    counts as boosting, so the next second regenerates 15.  From 0, 4 s
    without boost bring 60 back and 4 more stop at the maximum. *)
Example boost_drains_to_zero_and_refills :
  let boosting :=
    {| Zaku.forward := 1; Zaku.backward := 0; Zaku.left := 0; Zaku.right := 0;
       Zaku.up := 0; Zaku.down := 0; Zaku.rotateLeft := 0;
       Zaku.rotateRight := 0; Zaku.boost := true |} in
  let idle :=
    {| Zaku.forward := 0; Zaku.backward := 0; Zaku.left := 0; Zaku.right := 0;
       Zaku.up := 0; Zaku.down := 0; Zaku.rotateLeft := 0;
       Zaku.rotateRight := 0; Zaku.boost := false |} in
  let energy frames := Zaku.boostEnergy (Zaku.processMovements Zaku.new frames) in
  energy [(boosting, 3)] == 25 /\
  energy [(boosting, 3); (boosting, 2)] == 0 /\
  energy [(boosting, 3); (boosting, 2); (boosting, 1)] == 15 /\
  energy [(boosting, 3); (boosting, 2); (idle, 4)] == 60 /\
  energy [(boosting, 3); (boosting, 2); (idle, 4); (idle, 4)] == 100.
Proof. cbv zeta. repeat split. Qed.

(** ** Bullets *)

Lemma survivors_app (l1 l2 : list Zaku.Bullet) (dt : Q) :
  Zaku.survivors (l1 ++ l2) dt = Zaku.survivors l1 dt ++ Zaku.survivors l2 dt.
Proof.
  unfold Zaku.survivors. rewrite map_app. apply List.filter_app.
Qed.

Lemma survivors_one (b : Zaku.Bullet) (dt : Q) :
  Zaku.survivors [b] dt =
  if Zaku.exceededRange (Zaku.moveBullet b dt) then []
  else [Zaku.moveBullet b dt].
Proof.
  unfold Zaku.survivors. cbn.
  destruct (Zaku.exceededRange (Zaku.moveBullet b dt)); reflexivity.
Qed.

(** The loop invariant of [updateBullets]: with the bullets of [back]
    already visited and those of [front] still to visit, the loop ends
    with the survivors of [front] in front of [back]. *)
Lemma updateBullets_loop_spec (front back : list Zaku.Bullet) (dt : Q) :
  Zaku.updateBullets_loop (length front) (front ++ back) dt =
  Some (Zaku.survivors front dt ++ back).
Proof.
  revert back. induction front as [|b front IH] using rev_ind; intros back.
  - reflexivity.
  - rewrite length_app, Nat.add_1_r. cbn [Zaku.updateBullets_loop].
    rewrite <- app_assoc. cbn [app].
    rewrite list_lookup_middle by reflexivity.
    rewrite insert_app_r_alt by lia. rewrite Nat.sub_diag. cbn [insert list_insert].
    rewrite survivors_app, survivors_one.
    destruct (Zaku.exceededRange (Zaku.moveBullet b dt)).
    + rewrite delete_middle, app_nil_r. apply IH.
    + rewrite IH, <- app_assoc. reflexivity.
Qed.

Lemma updateBullets_spec (zk : Zaku.t) (dt : Q) :
  Zaku.updateBullets zk dt =
  Some (Zaku.with_bullets zk (Zaku.survivors (Zaku.bullets zk) dt)).
Proof.
  unfold Zaku.updateBullets.
  pose proof (updateBullets_loop_spec (Zaku.bullets zk) [] dt) as H.
  rewrite !app_nil_r in H. rewrite H. reflexivity.
Qed.

Lemma checkBulletCollisions_loop_no_hit (n : nat) (targets : list Object3D)
    (g : Game.t) :
  (n <= length (Zaku.bullets (Game.zaku g)))%nat ->
  Game.checkBulletCollisions_loop Game.noIntersection n targets g = Some g.
Proof.
  induction n as [|i IH]; intros Hn; [reflexivity|].
  cbn [Game.checkBulletCollisions_loop].
  destruct (lookup_lt_is_Some_2 (Zaku.bullets (Game.zaku g)) i) as [b Hb]; [lia|].
  rewrite Hb. cbn. apply IH. lia.
Qed.

Lemma bulletFrames_no_hit (g : Game.t) (dts : list Q) :
  exists g' : Game.t,
    Game.bulletFrames Game.noIntersection g dts = Some g' /\
    Game.colony g' = Game.colony g /\
    Game.scoreSystem g' = Game.scoreSystem g /\
    Zaku.bullets (Game.zaku g') =
      fold_left Zaku.survivors dts (Zaku.bullets (Game.zaku g)).
Proof.
  revert g. induction dts as [|dt dts IH]; intros g.
  - exists g. repeat split.
  - cbn [Game.bulletFrames fold_left]. unfold Game.bulletFrame.
    rewrite updateBullets_spec. unfold Game.checkBulletCollisions.
    rewrite checkBulletCollisions_loop_no_hit by reflexivity.
    destruct (IH (Game.with_zaku (Game.with_deltaTime g dt)
                    (Zaku.with_bullets (Game.zaku g)
                       (Zaku.survivors (Zaku.bullets (Game.zaku g)) dt))))
      as (g' & Hrun & Hc & Hs & Hb).
    exists g'. split; [exact Hrun|]. split; [exact Hc|]. split; [exact Hs|].
    exact Hb.
Qed.

(** C7, as amended.  [updateBullets(deltaTime)] always completes; it
    moves every live bullet once, by [direction * speed * deltaTime], adds
    [speed * deltaTime] to its distance travelled, and drops exactly the
    bullets whose accumulated distance has reached their range, keeping
    the others in order: removing during the back-to-front iteration
    neither skips nor revisits a bullet.  Frames in which no ray
    intersects anything leave the colony and the score as they were.  The
    removal is decided on the accumulated distance, not on the time
    elapsed. *)
Theorem bullets_advance_and_expire (zk : Zaku.t) (dt : Q) :
  Zaku.updateBullets zk dt =
    Some (Zaku.with_bullets zk (Zaku.survivors (Zaku.bullets zk) dt)) /\
  (forall b : Zaku.Bullet,
     let ud := Zaku.userData b in
     let b' := Zaku.moveBullet b dt in
     Zaku.position b' =
       add (Zaku.position b) (multiplyScalar (Zaku.direction ud) (Zaku.speed ud * dt)) /\
     Zaku.distanceTraveled (Zaku.userData b') =
       Zaku.distanceTraveled ud + Zaku.speed ud * dt /\
     (In b' (Zaku.survivors [b] dt) <->
      Zaku.distanceTraveled (Zaku.userData b') < Zaku.maxDistance ud)) /\
  (forall (g : Game.t) (dts : list Q),
     exists g' : Game.t,
       Game.bulletFrames Game.noIntersection g dts = Some g' /\
       Game.colony g' = Game.colony g /\
       Game.scoreSystem g' = Game.scoreSystem g /\
       Zaku.bullets (Game.zaku g') =
         fold_left Zaku.survivors dts (Zaku.bullets (Game.zaku g))).
Proof.
  split; [apply updateBullets_spec|]. split.
  - intros b. cbv zeta. split; [reflexivity|]. split; [reflexivity|].
    rewrite survivors_one.
    destruct (Zaku.exceededRange (Zaku.moveBullet b dt)) eqn:Hex.
    + apply js_ge_true in Hex. cbn in Hex. split; [intros []|].
      cbn. intros H. lra.
    + apply js_ge_false in Hex. cbn in Hex. split; [intros _; exact Hex|].
      intros _. left. reflexivity.
  - apply bulletFrames_no_hit.
Qed.

(** The theorem at work: the bullet a fresh Zaku fires, over four frames
    of a tenth of a second. *)
Lemma bullets_advance_and_expire_witness :
  let g := Game.with_zaku Game.new
             (snd (Zaku.fire Zaku.new 1000 Game.sampleMuzzle)) in
  let dts := repeat (1 # 10) 4 in
  exists g' : Game.t,
    Game.bulletFrames Game.noIntersection g dts = Some g' /\
    Game.colony g' = Game.colony g /\
    Game.scoreSystem g' = Game.scoreSystem g /\
    Zaku.bullets (Game.zaku g') =
      fold_left Zaku.survivors dts (Zaku.bullets (Game.zaku g)).
Proof.
  cbv zeta.
  destruct (bullets_advance_and_expire Zaku.new (1 # 10)) as (_ & _ & Hframes).
  apply Hframes.
Defined.

(** C7 as stated fails in the arithmetic of the program: 26 frames of
    1/65 s take 0.4 s or more, and leave the bullet of range 60 and speed
    150 live, its accumulated distance below 60; the next frame removes
    it. *)
Lemma projectile_outlives_its_range_time :
  let dts := repeat Binary64.oneSixtyFifth 26 in
  2 # 5 <= Binary64.elapsed dts /\
  (exists bullet,
     Binary64.updateBulletsMany [Binary64.newBullet] dts = Some [bullet] /\
     Binary64.exceededRange bullet = false /\
     (Binary64.distanceTraveled (Binary64.userData bullet) <? 60)%float = true) /\
  Binary64.updateBulletsMany [Binary64.newBullet]
    (dts ++ [Binary64.oneSixtyFifth]) = Some [].
Proof.
  cbv zeta. split; [vm_compute; discriminate|]. split.
  - eexists. split; [vm_compute; reflexivity|]. split; reflexivity.
  - vm_compute. reflexivity.
Qed.

(** In exact arithmetic the same 26 frames remove the bullet, and frames
    of a tenth of a second remove it at the fourth in both arithmetics. *)
Example exact_arithmetic_removes_at_range_time :
  let b :=
    {| Zaku.position := {| x := 0; y := 0; z := 0 |};
       Zaku.userData :=
         {| Zaku.startPosition := {| x := 0; y := 0; z := 0 |};
            Zaku.direction := {| x := 0; y := 0; z := 1 |};
            Zaku.distanceTraveled := 0; Zaku.maxDistance := 60;
            Zaku.damage := 10; Zaku.speed := 150 |} |} in
  fold_left Zaku.survivors (repeat (1 # 65) 26) [b] = [] /\
  length (fold_left Zaku.survivors (repeat (1 # 10) 3) [b]) = 1%nat /\
  fold_left Zaku.survivors (repeat (1 # 10) 4) [b] = [] /\
  (exists bullet,
     Binary64.updateBulletsMany [Binary64.newBullet]
       (repeat Binary64.oneTenth 3) = Some [bullet]) /\
  Binary64.updateBulletsMany [Binary64.newBullet]
    (repeat Binary64.oneTenth 4) = Some [].
Proof.
  cbv zeta. split; [vm_compute; reflexivity|]. split; [vm_compute; reflexivity|].
  split; [vm_compute; reflexivity|].
  split; [eexists; vm_compute; reflexivity|vm_compute; reflexivity].
Qed.

(** 24 frames of 1/60 s: the bullet fired at the start is live after 23 of
    them, at distance 57.5, and gone after the 24th; the colony was never
    touched. *)
Example bullet_expires_after_24_frames :
  let g := Game.with_zaku Game.new
             (snd (Zaku.fire Zaku.new 1000 Game.sampleMuzzle)) in
  let after n := Game.bulletFrames Game.noIntersection g (repeat (1 # 60) n) in
  (exists g23 b, after 23%nat = Some g23 /\
                 Zaku.bullets (Game.zaku g23) = [b] /\
                 Zaku.distanceTraveled (Zaku.userData b) == 115 # 2) /\
  (exists g24, after 24%nat = Some g24 /\
               Zaku.bullets (Game.zaku g24) = [] /\
               Game.colony g24 = Game.colony g).
Proof.
  cbv zeta. split.
  - eexists. eexists. split; [vm_compute; reflexivity|].
    split; [reflexivity|]. vm_compute. reflexivity.
  - eexists. split; [vm_compute; reflexivity|]. split; reflexivity.
Qed.

(** Three bullets, the middle one and the last one at the end of their
    range: one update drops both and moves the first, without touching it
    twice. *)
Example update_removes_two_of_three :
  let bullet d :=
    {| Zaku.position := {| x := 0; y := 0; z := d |};
       Zaku.userData :=
         {| Zaku.startPosition := {| x := 0; y := 0; z := 0 |};
            Zaku.direction := {| x := 0; y := 0; z := 1 |};
            Zaku.distanceTraveled := d; Zaku.maxDistance := 60;
            Zaku.damage := 10; Zaku.speed := 150 |} |} in
  let zk := Zaku.with_bullets Zaku.new [bullet 0; bullet 59; bullet 58] in
  exists zk' b,
    Zaku.updateBullets zk (1 # 60) = Some zk' /\
    Zaku.bullets zk' = [b] /\
    Zaku.distanceTraveled (Zaku.userData b) == 5 # 2.
Proof.
  cbv zeta. eexists. eexists. split; [vm_compute; reflexivity|].
  split; [reflexivity|]. vm_compute. reflexivity.
Qed.

(** ** Selection of the section hit *)






(** The panel of the destroyed solar panel is no target any more, and an
    intersection reported on it, or on the arm below its group, selects no
    section. *)
Example destroyed_panel_not_selectable :
  let c := snd (Colony.damageSection Colony.new 18 100) in
  let onPanel := {| object := Colony.newMesh 24 []; parents := [23%nat; 0%nat];
                    point := {| x := 0; y := 0; z := 0 |} |} in
  existsb (fun o => Nat.eqb (uuid o) 24) (Colony.getHitTargets Colony.new) = true /\
  existsb (fun o => Nat.eqb (uuid o) 24) (Colony.getHitTargets c) = false /\
  (exists s, Colony.getSectionAtPoint Colony.new onPanel = Some (18%nat, s)) /\
  Colony.getSectionAtPoint c onPanel = None.
Proof.
  cbv zeta. split; [reflexivity|]. split; [reflexivity|].
  split; [eexists; vm_compute; reflexivity|reflexivity].
Qed.

(** Two bullets of damage 60 that both intersect the first window in one
    frame.  The list of targets is computed once, before the loop, so the
    ray of the second bullet visited still intersects the window that the
    first has just destroyed; [getSectionAtPoint] then finds no section,
    nothing is damaged a second time, and both bullets are removed. *)
Example second_bullet_finds_destroyed_window :
  let bullet :=
    {| Zaku.position := {| x := 0; y := 0; z := 0 |};
       Zaku.userData :=
         {| Zaku.startPosition := {| x := 0; y := 0; z := 0 |};
            Zaku.direction := {| x := 0; y := 0; z := 1 |};
            Zaku.distanceTraveled := 0; Zaku.maxDistance := 60;
            Zaku.damage := 60; Zaku.speed := 150 |} |} in
  let g := Game.with_zaku (Game.atFrameTime (1 # 60))
             (Zaku.with_bullets Zaku.new [bullet; bullet]) in
  exists g' s,
    Game.checkBulletCollisions Game.hitFirstTarget g = Some g' /\
    Zaku.bullets (Game.zaku g') = [] /\
    Colony.sections (Game.colony g') !! 0%nat = Some s /\
    Colony.destroyed s = true /\ Colony.health s == -10 /\
    Colony.currentHealth (Game.colony g') == 5850 - 60 /\
    ScoreSystem.shotsHit (ScoreSystem.stats (Game.scoreSystem g')) = 1%Z /\
    ScoreSystem.score (Game.scoreSystem g') = 100%Z.
Proof.
  cbv zeta. eexists. eexists. split; [vm_compute; reflexivity|].
  split; [reflexivity|]. split; [vm_compute; reflexivity|].
  repeat split.
Qed.

(** * Further properties *)

(** ** Colony: what damage preserves *)

Lemma fixedPart_insert (ss : list Colony.section) (n : nat)
    (s s' : Colony.section) :
  ss !! n = Some s -> fixedPart s' = fixedPart s ->
  map fixedPart (<[n := s']> ss) = map fixedPart ss.
Proof.
  revert n. induction ss as [|a ss IH]; intros n Hn Hf; [discriminate Hn|].
  destruct n as [|n].
  - injection Hn as ->.
    change (<[0%nat := s']> (s :: ss)) with (s' :: ss).
    cbn [map]. rewrite Hf. reflexivity.
  - change (<[S n := s']> (a :: ss)) with (a :: <[n := s']> ss).
    cbn [map]. rewrite (IH n Hn Hf). reflexivity.
Qed.

Lemma damageSection_bookkeeping (c : Colony.t) (i : Z) (d : Q) :
  let c' := snd (Colony.damageSection c i d) in
  Colony.totalHealth c' = Colony.totalHealth c /\
  length (Colony.sections c') = length (Colony.sections c) /\
  map fixedPart (Colony.sections c') = map fixedPart (Colony.sections c).
Proof.
  cbv zeta.
  destruct (damageSection_outcome c i d)
    as [H|s c' Hi _ _ Hs Ht Hc _|s c' Hi _ _ Hs Ht Hc _].
  - repeat split.
  - apply at_index_Some in Hi as (_ & Hi & _). rewrite Hs.
    split; [exact Ht|split].
    + apply length_insert.
    + eapply fixedPart_insert; [exact Hi|reflexivity].
  - apply at_index_Some in Hi as (_ & Hi & _). rewrite Hs.
    split; [exact Ht|split].
    + apply length_insert.
    + eapply fixedPart_insert; [exact Hi|].
      unfold fixedPart, Colony.wrecked. cbn. destruct (Colony.mesh s). reflexivity.
Qed.

(** X1.  Whatever the indices and the amounts of a sequence of
    [damageSection] calls, the structure keeps its total health, its
    number of sections and, for every section, the mesh, the type, the
    maximal health and the points. *)
Theorem colony_bookkeeping_preserved (c : Colony.t) (calls : list (Z * Q)) :
  let c' := Colony.damageAll c calls in
  Colony.totalHealth c' = Colony.totalHealth c /\
  length (Colony.sections c') = length (Colony.sections c) /\
  map fixedPart (Colony.sections c') = map fixedPart (Colony.sections c).
Proof.
  cbv zeta. revert c. induction calls as [|call calls IH]; intros c.
  - repeat split.
  - rewrite damageAll_cons.
    destruct (damageSection_bookkeeping c (fst call) (snd call))
      as (Ht & Hl & Hf). cbv zeta in Ht, Hl, Hf.
    destruct (IH (snd (Colony.damageSection c (fst call) (snd call))))
      as (Ht' & Hl' & Hf').
    split; [congruence|]. split; congruence.
Qed.

(** Five calls on the colony as built, two of them refused: the total of
    5850, the 33 sections and their fixed parts are as before. *)
Example bookkeeping_after_five_calls :
  let calls := [(0%Z, 30); (40%Z, 10); (0%Z, - (5)); (18%Z, 250); ((-1)%Z, 3)] in
  let c' := Colony.damageAll Colony.new calls in
  Colony.totalHealth c' = 5850 /\
  length (Colony.sections c') = 33%nat /\
  map fixedPart (Colony.sections c') = map fixedPart (Colony.sections Colony.new).
Proof. cbv zeta. split; [|split]; vm_compute; reflexivity. Qed.

Lemma damageSection_keeps_destroyed (c : Colony.t) (i : Z) (d : Q)
    (n : nat) (s : Colony.section) :
  Colony.sections c !! n = Some s -> Colony.destroyed s = true ->
  Colony.sections (snd (Colony.damageSection c i d)) !! n = Some s.
Proof.
  intros Hn Hd.
  destruct (damageSection_outcome c i d)
    as [H|s0 c' Hi Hnd _ Hs _ _ _|s0 c' Hi Hnd _ Hs _ _ _].
  - exact Hn.
  - apply at_index_Some in Hi as (_ & Hi & _). rewrite Hs.
    rewrite list_lookup_insert_ne; [exact Hn|].
    intros <-. rewrite Hi in Hn. injection Hn as ->. congruence.
  - apply at_index_Some in Hi as (_ & Hi & _). rewrite Hs.
    rewrite list_lookup_insert_ne; [exact Hn|].
    intros <-. rewrite Hi in Hn. injection Hn as ->. congruence.
Qed.

Lemma damageSection_coherent (c : Colony.t) (i : Z) (d : Q) :
  coherent c -> coherent (snd (Colony.damageSection c i d)).
Proof.
  unfold coherent. intros Hc.
  destruct (damageSection_outcome c i d)
    as [H|s c' Hi Hnd Hh Hs _ _ _|s c' Hi Hnd Hh Hs _ _ _].
  - exact Hc.
  - apply at_index_Some in Hi as (_ & Hi & _). rewrite Hs.
    apply Forall_insert; [exact Hc|].
    rewrite Forall_lookup in Hc. specialize (Hc _ _ Hi).
    rewrite Hnd in Hc. cbn. rewrite Hnd. split; [exact Hh|apply Hc].
  - apply at_index_Some in Hi as (_ & Hi & _). rewrite Hs.
    apply Forall_insert; [exact Hc|].
    cbn. split; [exact Hh|]. destruct (Colony.mesh s). reflexivity.
Qed.

(** X2.  Destruction is final: through any later sequence of
    [damageSection] calls a destroyed section stays exactly as it is, with
    its health, hidden and destroyed.  And in a structure where the
    destroyed sections are the hidden ones and the ones whose health is 0
    or less, as in the colony as built, this stays so. *)
Theorem destroyed_sections_are_final (c : Colony.t) (calls : list (Z * Q)) :
  coherent c ->
  coherent (Colony.damageAll c calls) /\
  forall (n : nat) (s : Colony.section),
    Colony.sections c !! n = Some s -> Colony.destroyed s = true ->
    Colony.sections (Colony.damageAll c calls) !! n = Some s.
Proof.
  revert c. induction calls as [|call calls IH]; intros c Hc.
  - split; [exact Hc|]. intros n s Hn _. exact Hn.
  - rewrite damageAll_cons.
    destruct (IH _ (damageSection_coherent c (fst call) (snd call) Hc))
      as [Hc' Hkeep].
    split; [exact Hc'|]. intros n s Hn Hd.
    apply Hkeep; [|exact Hd].
    apply damageSection_keeps_destroyed; assumption.
Qed.

Lemma new_coherent : coherent Colony.new.
Proof.
  unfold coherent. vm_compute.
  repeat (constructor; [split; reflexivity|]). constructor.
Qed.

Lemma destroyed_sections_are_final_witness :
  let c := Colony.damageAll Colony.new [(0%Z, 60); (18%Z, 30)] in
  let calls := [(0%Z, 10); (1%Z, 20); (0%Z, - (100)); (18%Z, 80)] in
  coherent c /\
  coherent (Colony.damageAll c calls) /\
  forall (n : nat) (s : Colony.section),
    Colony.sections c !! n = Some s -> Colony.destroyed s = true ->
    Colony.sections (Colony.damageAll c calls) !! n = Some s.
Proof.
  cbv zeta.
  assert (H : coherent (Colony.damageAll Colony.new [(0%Z, 60); (18%Z, 30)])).
  { unfold coherent. vm_compute.
    repeat (constructor;
            [split; [first [reflexivity | vm_compute; discriminate]
                    | reflexivity] |]).
    constructor. }
  split; [exact H|].
  exact (destroyed_sections_are_final _ _ H).
Defined.

(** A window destroyed by a hit of 60 keeps its health of -10 when it is
    hit again, even with a negative amount. *)
Example destroyed_window_ignores_repair :
  let c1 := Colony.damageAll Colony.new [(0%Z, 60)] in
  let c2 := Colony.damageAll c1 [(0%Z, 10); (0%Z, - (100))] in
  exists s, Colony.sections c1 !! 0%nat = Some s /\
            Colony.sections c2 !! 0%nat = Some s /\
            Colony.destroyed s = true /\ Colony.health s == -10.
Proof.
  cbv zeta. eexists. split; [vm_compute; reflexivity|].
  split; [vm_compute; reflexivity|]. split; reflexivity.
Qed.

(** ** ScoreSystem: combo, statistics and awards *)

Lemma step_maxCombo (s : ScoreSystem.t) (op : ScoreSystem.Op) :
  (0 <= ScoreSystem.combo s <= ScoreSystem.maxCombo (ScoreSystem.stats s))%Z ->
  let s' := ScoreSystem.step s op in
  (0 <= ScoreSystem.combo s' <= ScoreSystem.maxCombo (ScoreSystem.stats s'))%Z /\
  (ScoreSystem.maxCombo (ScoreSystem.stats s) <=
   ScoreSystem.maxCombo (ScoreSystem.stats s'))%Z /\
  (ScoreSystem.maxCombo (ScoreSystem.stats s') =
     ScoreSystem.maxCombo (ScoreSystem.stats s) \/
   ScoreSystem.maxCombo (ScoreSystem.stats s') = ScoreSystem.combo s').
Proof.
  intros [Hlo Hhi]. destruct op as [basePoints|dt|]; cbv zeta; cbn [ScoreSystem.step].
  - unfold ScoreSystem.addScore. cbn [snd ScoreSystem.combo ScoreSystem.stats].
    destruct (Z.ltb_spec (ScoreSystem.maxCombo (ScoreSystem.stats s))
                (ScoreSystem.combo s + 1)); cbn; lia.
  - unfold ScoreSystem.update.
    destruct (0 <? ScoreSystem.combo s)%Z; [|lia].
    destruct (js_le _ 0); cbn; lia.
  - cbn. lia.
Qed.

(** X3.  The recorded maximal combo bounds the combo: along every run of
    [addScore], [update] and [resetCombo] the combo stays between 0 and
    [stats.maxCombo], and [stats.maxCombo] never decreases. *)
Theorem maxCombo_bounds_combo (s : ScoreSystem.t) (ops : list ScoreSystem.Op) :
  (0 <= ScoreSystem.combo s <= ScoreSystem.maxCombo (ScoreSystem.stats s))%Z ->
  let s' := ScoreSystem.run s ops in
  (0 <= ScoreSystem.combo s' <= ScoreSystem.maxCombo (ScoreSystem.stats s'))%Z /\
  (ScoreSystem.maxCombo (ScoreSystem.stats s) <=
   ScoreSystem.maxCombo (ScoreSystem.stats s'))%Z.
Proof.
  cbv zeta. unfold ScoreSystem.run. revert s.
  induction ops as [|op ops IH]; intros s H; [cbn; lia|].
  cbn [fold_left].
  destruct (step_maxCombo s op H) as (H1 & H2 & _). cbv zeta in H1, H2.
  destruct (IH _ H1) as [H3 H4]. split; [exact H3|lia].
Qed.

Lemma maxCombo_bounds_combo_witness :
  let ops := [ScoreSystem.OpAddScore 100; ScoreSystem.OpAddScore 200;
              ScoreSystem.OpUpdate 5; ScoreSystem.OpAddScore 100] in
  (0 <= ScoreSystem.combo ScoreSystem.new
     <= ScoreSystem.maxCombo (ScoreSystem.stats ScoreSystem.new))%Z /\
  let s' := ScoreSystem.run ScoreSystem.new ops in
  (0 <= ScoreSystem.combo s' <= ScoreSystem.maxCombo (ScoreSystem.stats s'))%Z /\
  (ScoreSystem.maxCombo (ScoreSystem.stats ScoreSystem.new) <=
   ScoreSystem.maxCombo (ScoreSystem.stats s'))%Z.
Proof.
  cbv zeta.
  assert (H : (0 <= ScoreSystem.combo ScoreSystem.new
                 <= ScoreSystem.maxCombo (ScoreSystem.stats ScoreSystem.new))%Z)
    by (split; vm_compute; discriminate).
  split; [exact H|].
  exact (maxCombo_bounds_combo ScoreSystem.new _ H).
Defined.

(** Two hits, a pause of 5 s, one hit: the combo is back at 1 and the
    maximum recorded is 2. *)
Example maxCombo_survives_timeout :
  let s := ScoreSystem.run ScoreSystem.new
             [ScoreSystem.OpAddScore 100; ScoreSystem.OpAddScore 200;
              ScoreSystem.OpUpdate 5; ScoreSystem.OpAddScore 100] in
  ScoreSystem.combo s = 1%Z /\
  ScoreSystem.maxCombo (ScoreSystem.stats s) = 2%Z /\
  ScoreSystem.score s = 420%Z.
Proof. cbv zeta. repeat split. Qed.

Lemma multiplier_mono (c1 c2 : Z) (basePoints : Q) :
  0 <= basePoints -> (c1 <= c2)%Z ->
  basePoints * (1 + inject_Z c1 * (1 # 10)) <=
  basePoints * (1 + inject_Z c2 * (1 # 10)).
Proof.
  intros Hb Hc.
  assert (Hq : inject_Z c1 <= inject_Z c2) by (rewrite <- Zle_Qle; exact Hc).
  rewrite !(Qmult_comm basePoints).
  apply Qmult_le_compat_r; [lra|exact Hb].
Qed.

(** X4.  A longer streak never pays less: for non-negative base points
    the points [addScore] awards grow with the combo, they are at least
    [floor(basePoints)] when the combo is not negative, and the score then
    does not go down. *)
Theorem longer_combo_pays_more
    (s1 s2 : ScoreSystem.t) (basePoints : Q) :
  0 <= basePoints ->
  (0 <= ScoreSystem.combo s1 <= ScoreSystem.combo s2)%Z ->
  let awarded s := ScoreSystem.points (fst (ScoreSystem.addScore s basePoints)) in
  (Math_floor basePoints <= awarded s1)%Z /\
  (awarded s1 <= awarded s2)%Z /\
  (ScoreSystem.score s1 <=
   ScoreSystem.score (snd (ScoreSystem.addScore s1 basePoints)))%Z.
Proof.
  intros Hb [H0 H12]. cbv beta zeta. rewrite !addScore_points.
  assert (Hone : basePoints == basePoints * (1 + inject_Z 0 * (1 # 10)))
    by (cbn; ring).
  assert (Hfloor : (Math_floor basePoints <=
                    Math_floor (basePoints *
                       (1 + inject_Z (ScoreSystem.combo s1) * (1 # 10))))%Z).
  { unfold Math_floor. rewrite Hone at 1.
    apply Qfloor_resp_le. apply multiplier_mono; assumption. }
  split; [exact Hfloor|]. split.
  - unfold Math_floor. apply Qfloor_resp_le.
    apply multiplier_mono; assumption.
  - cbn [ScoreSystem.addScore snd ScoreSystem.score].
    assert (0 <= Math_floor basePoints)%Z.
    { unfold Math_floor. change 0%Z with (Qfloor 0).
      apply Qfloor_resp_le. exact Hb. }
    lia.
Qed.

Lemma longer_combo_pays_more_witness :
  let s1 := snd (ScoreSystem.addScore ScoreSystem.new 100) in
  let s2 := snd (ScoreSystem.addScore s1 100) in
  let basePoints := 1005 # 10 in
  0 <= basePoints /\
  (0 <= ScoreSystem.combo s1 <= ScoreSystem.combo s2)%Z /\
  let awarded s := ScoreSystem.points (fst (ScoreSystem.addScore s basePoints)) in
  (Math_floor basePoints <= awarded s1)%Z /\
  (awarded s1 <= awarded s2)%Z /\
  (ScoreSystem.score s1 <=
   ScoreSystem.score (snd (ScoreSystem.addScore s1 basePoints)))%Z.
Proof.
  cbv zeta.
  assert (H1 : 0 <= 1005 # 10) by (vm_compute; discriminate).
  match goal with |- _ /\ ?B /\ _ =>
    assert (H2 : B) by (split; vm_compute; discriminate)
  end.
  split; [exact H1|]. split; [exact H2|].
  exact (longer_combo_pays_more _ _ _ H1 H2).
Defined.

Lemma recordShot_counts (s : ScoreSystem.t) (hit : bool) :
  let st := ScoreSystem.stats s in
  let st' := ScoreSystem.stats (ScoreSystem.recordShot s hit) in
  ScoreSystem.shotsFired st' = (ScoreSystem.shotsFired st + 1)%Z /\
  ScoreSystem.shotsHit st' =
    (ScoreSystem.shotsHit st + if hit then 1 else 0)%Z /\
  ScoreSystem.accuracy st' =
    inject_Z (ScoreSystem.shotsHit st') / inject_Z (ScoreSystem.shotsFired st') * 100.
Proof. cbv zeta. destruct hit; cbn; repeat split; f_equal; lia. Qed.

Lemma ratio_in_range (hits fired : Z) :
  (0 <= hits <= fired)%Z -> (0 < fired)%Z ->
  0 <= inject_Z hits / inject_Z fired * 100 <= 100.
Proof.
  intros [H0 Hle] Hpos.
  assert (Hf : 0 < inject_Z fired) by (change 0 with (inject_Z 0); rewrite <- Zlt_Qlt; exact Hpos).
  assert (Hh : 0 <= inject_Z hits) by (change 0 with (inject_Z 0); rewrite <- Zle_Qle; exact H0).
  assert (Hhf : inject_Z hits <= inject_Z fired) by (rewrite <- Zle_Qle; exact Hle).
  assert (Hr0 : 0 <= inject_Z hits / inject_Z fired).
  { apply Qle_shift_div_l; [exact Hf|]. lra. }
  assert (Hr1 : inject_Z hits / inject_Z fired <= 1).
  { apply Qle_shift_div_r; [exact Hf|]. lra. }
  split; lra.
Qed.

(** X5.  The shot statistics stay consistent: after any sequence of
    [recordShot] calls on statistics with [0 <= shotsHit <= shotsFired],
    [shotsFired] has grown by the number of calls and [shotsHit] by the
    number of hits among them, and after at least one call the accuracy is
    [shotsHit / shotsFired * 100], a value between 0 and 100. *)
Theorem accuracy_in_range (s : ScoreSystem.t) (hits : list bool) :
  (0 <= ScoreSystem.shotsHit (ScoreSystem.stats s)
     <= ScoreSystem.shotsFired (ScoreSystem.stats s))%Z ->
  let st := ScoreSystem.stats s in
  let st' := ScoreSystem.stats (ScoreSystem.recordShots s hits) in
  ScoreSystem.shotsFired st' =
    (ScoreSystem.shotsFired st + Z.of_nat (length hits))%Z /\
  ScoreSystem.shotsHit st' =
    (ScoreSystem.shotsHit st +
     Z.of_nat (length (List.filter (fun hit => hit) hits)))%Z /\
  (hits <> [] ->
   ScoreSystem.accuracy st' ==
     inject_Z (ScoreSystem.shotsHit st') / inject_Z (ScoreSystem.shotsFired st') * 100 /\
   0 <= ScoreSystem.accuracy st' <= 100).
Proof.
  intros Hinv. cbv zeta. unfold ScoreSystem.recordShots.
  induction hits as [|hit hits IH] using rev_ind.
  - cbn. split; [lia|]. split; [lia|]. intros H. contradiction.
  - rewrite fold_left_app. cbn [fold_left].
    destruct IH as (Hf & Hh & _).
    destruct (recordShot_counts (fold_left ScoreSystem.recordShot hits s) hit)
      as (Hf' & Hh' & Ha'). cbv zeta in Hf', Hh', Ha'.
    rewrite length_app, List.filter_app, length_app. cbn [length List.filter].
    assert (Hfired : ScoreSystem.shotsFired
               (ScoreSystem.stats
                  (ScoreSystem.recordShot (fold_left ScoreSystem.recordShot hits s) hit)) =
             (ScoreSystem.shotsFired (ScoreSystem.stats s) +
              Z.of_nat (length hits + 1))%Z) by lia.
    assert (Hhit : ScoreSystem.shotsHit
               (ScoreSystem.stats
                  (ScoreSystem.recordShot (fold_left ScoreSystem.recordShot hits s) hit)) =
             (ScoreSystem.shotsHit (ScoreSystem.stats s) +
              Z.of_nat (length (List.filter (fun hit0 => hit0) hits) +
                        length (if hit then [hit] else [])))%Z).
    { rewrite Hh', Hh. destruct hit; cbn [length]; lia. }
    split; [exact Hfired|]. split; [exact Hhit|].
    intros _. rewrite Ha'. split; [reflexivity|].
    pose proof (List.filter_length_le (fun hit0 => hit0) hits) as Hle.
    apply ratio_in_range.
    + rewrite Hhit, Hfired. destruct hit; cbn [length]; lia.
    + rewrite Hfired. lia.
Qed.

Lemma accuracy_in_range_witness :
  let hits := [true; false; true; true] in
  (0 <= ScoreSystem.shotsHit (ScoreSystem.stats ScoreSystem.new)
     <= ScoreSystem.shotsFired (ScoreSystem.stats ScoreSystem.new))%Z /\
  let st := ScoreSystem.stats ScoreSystem.new in
  let st' := ScoreSystem.stats (ScoreSystem.recordShots ScoreSystem.new hits) in
  ScoreSystem.shotsFired st' =
    (ScoreSystem.shotsFired st + Z.of_nat (length hits))%Z /\
  ScoreSystem.shotsHit st' =
    (ScoreSystem.shotsHit st +
     Z.of_nat (length (List.filter (fun hit => hit) hits)))%Z /\
  (hits <> [] ->
   ScoreSystem.accuracy st' ==
     inject_Z (ScoreSystem.shotsHit st') / inject_Z (ScoreSystem.shotsFired st') * 100 /\
   0 <= ScoreSystem.accuracy st' <= 100).
Proof.
  cbv zeta.
  assert (H : (0 <= ScoreSystem.shotsHit (ScoreSystem.stats ScoreSystem.new)
                 <= ScoreSystem.shotsFired (ScoreSystem.stats ScoreSystem.new))%Z)
    by (split; vm_compute; discriminate).
  split; [exact H|].
  exact (accuracy_in_range ScoreSystem.new _ H).
Defined.

Example accuracy_three_of_four :
  ScoreSystem.accuracy
    (ScoreSystem.stats
       (ScoreSystem.recordShots ScoreSystem.new [true; false; true; true])) == 75.
Proof. reflexivity. Qed.

Lemma step_timer_range (s : ScoreSystem.t) (op : ScoreSystem.Op) :
  0 < ScoreSystem.comboTimeout s ->
  0 <= ScoreSystem.comboTimer s <= ScoreSystem.comboTimeout s ->
  match op with ScoreSystem.OpUpdate dt => 0 <= dt | _ => True end ->
  let s' := ScoreSystem.step s op in
  ScoreSystem.comboTimeout s' = ScoreSystem.comboTimeout s /\
  0 <= ScoreSystem.comboTimer s' <= ScoreSystem.comboTimeout s'.
Proof.
  intros Ht [Hlo Hhi] Hop. destruct op as [basePoints|dt|]; cbv zeta;
    cbn [ScoreSystem.step].
  - cbn. split; [reflexivity|]. split; lra.
  - unfold ScoreSystem.update.
    destruct (0 <? ScoreSystem.combo s)%Z; [|split; [reflexivity|split; assumption]].
    cbn [ScoreSystem.comboTimer].
    destruct (js_le (ScoreSystem.comboTimer s - dt * 1000) 0) eqn:Hle.
    + cbn. split; [reflexivity|]. split; lra.
    + apply js_le_false in Hle. cbn. split; [reflexivity|]. split; lra.
  - cbn. split; [reflexivity|]. split; lra.
Qed.

Lemma timer_percent_range (s : ScoreSystem.t) :
  0 < ScoreSystem.comboTimeout s ->
  0 <= ScoreSystem.comboTimer s <= ScoreSystem.comboTimeout s ->
  0 <= ScoreSystem.getComboTimerPercent s <= 100.
Proof.
  intros Ht [Hlo Hhi]. unfold ScoreSystem.getComboTimerPercent.
  destruct (ScoreSystem.combo s =? 0)%Z; [split; lra|].
  assert (H0 : 0 <= ScoreSystem.comboTimer s / ScoreSystem.comboTimeout s).
  { apply Qle_shift_div_l; [exact Ht|]. lra. }
  assert (H1 : ScoreSystem.comboTimer s / ScoreSystem.comboTimeout s <= 1).
  { apply Qle_shift_div_r; [exact Ht|]. lra. }
  split; lra.
Qed.

(** X6.  The combo timer shown to the player stays on its scale: along
    every run of [addScore], [update] with non-negative frame times and
    [resetCombo], starting with the timer between 0 and a positive
    timeout, [getComboTimerPercent] is between 0 and 100; it is 100 right
    after an [addScore] and 0 whenever the combo is 0. *)
Theorem combo_timer_percent_in_range
    (s : ScoreSystem.t) (ops : list ScoreSystem.Op) :
  0 < ScoreSystem.comboTimeout s ->
  0 <= ScoreSystem.comboTimer s <= ScoreSystem.comboTimeout s ->
  Forall (fun op => match op with
                    | ScoreSystem.OpUpdate dt => 0 <= dt
                    | _ => True
                    end) ops ->
  let s' := ScoreSystem.run s ops in
  0 <= ScoreSystem.getComboTimerPercent s' <= 100 /\
  (ScoreSystem.combo s' = 0%Z -> ScoreSystem.getComboTimerPercent s' = 0) /\
  forall basePoints : Q,
    (0 <= ScoreSystem.combo s')%Z ->
    ScoreSystem.getComboTimerPercent
      (snd (ScoreSystem.addScore s' basePoints)) == 100.
Proof.
  intros Ht Hr Hops. cbv zeta.
  assert (Hinv : 0 < ScoreSystem.comboTimeout (ScoreSystem.run s ops) /\
                 0 <= ScoreSystem.comboTimer (ScoreSystem.run s ops)
                   <= ScoreSystem.comboTimeout (ScoreSystem.run s ops)).
  { unfold ScoreSystem.run. revert s Ht Hr.
    induction Hops as [|op ops Hop _ IH]; intros s Ht Hr; [split; assumption|].
    cbn [fold_left].
    destruct (step_timer_range s op Ht Hr Hop) as [Heq Hr'].
    cbv zeta in Heq, Hr'. apply IH; [rewrite Heq; exact Ht|exact Hr']. }
  destruct Hinv as [Ht' Hr'].
  split; [apply timer_percent_range; assumption|]. split.
  - intros Hc. unfold ScoreSystem.getComboTimerPercent. rewrite Hc. reflexivity.
  - intros basePoints Hc. unfold ScoreSystem.getComboTimerPercent.
    cbn [ScoreSystem.addScore snd ScoreSystem.combo ScoreSystem.comboTimer
         ScoreSystem.comboTimeout].
    destruct (Z.eqb_spec (ScoreSystem.combo (ScoreSystem.run s ops) + 1) 0); [lia|].
    field. lra.
Qed.

Lemma combo_timer_percent_in_range_witness :
  let ops := [ScoreSystem.OpAddScore 100; ScoreSystem.OpUpdate (3 # 2);
              ScoreSystem.OpAddScore 50; ScoreSystem.OpUpdate 1] in
  0 < ScoreSystem.comboTimeout ScoreSystem.new /\
  0 <= ScoreSystem.comboTimer ScoreSystem.new
    <= ScoreSystem.comboTimeout ScoreSystem.new /\
  Forall (fun op => match op with
                    | ScoreSystem.OpUpdate dt => 0 <= dt
                    | _ => True
                    end) ops /\
  let s' := ScoreSystem.run ScoreSystem.new ops in
  0 <= ScoreSystem.getComboTimerPercent s' <= 100 /\
  (ScoreSystem.combo s' = 0%Z -> ScoreSystem.getComboTimerPercent s' = 0) /\
  forall basePoints : Q,
    (0 <= ScoreSystem.combo s')%Z ->
    ScoreSystem.getComboTimerPercent
      (snd (ScoreSystem.addScore s' basePoints)) == 100.
Proof.
  cbv zeta.
  assert (H1 : 0 < ScoreSystem.comboTimeout ScoreSystem.new) by reflexivity.
  assert (H2 : 0 <= ScoreSystem.comboTimer ScoreSystem.new
                 <= ScoreSystem.comboTimeout ScoreSystem.new)
    by (split; vm_compute; discriminate).
  match goal with |- _ /\ _ /\ Forall ?P ?l /\ _ =>
    assert (H3 : Forall P l)
      by (repeat constructor; vm_compute; discriminate)
  end.
  split; [exact H1|]. split; [exact H2|]. split; [exact H3|].
  exact (combo_timer_percent_in_range ScoreSystem.new _ H1 H2 H3).
Defined.

(** ** ScoreSystem: final score, high score, rankings *)

(** X7.  The final score grows with the time left and with the
    destruction percentage, it is the base score plus the three bonuses,
    and with nothing negative among time, percentage and maximal combo it
    is at least the base score; a mission that ends with no time left or
    less gets a time bonus of 0 or less. *)
Theorem final_score_monotone
    (s : ScoreSystem.t) (time1 time2 percent1 percent2 : Q) :
  time1 <= time2 -> percent1 <= percent2 ->
  let f1 := ScoreSystem.calculateFinalScore s time1 percent1 in
  let f2 := ScoreSystem.calculateFinalScore s time2 percent2 in
  (ScoreSystem.finalScore f1 <= ScoreSystem.finalScore f2)%Z /\
  ScoreSystem.finalScore f1 =
    (ScoreSystem.baseScore f1 + ScoreSystem.timeBonus f1 +
     ScoreSystem.destructionBonus f1 + ScoreSystem.comboBonus f1)%Z /\
  (0 <= time1 -> 0 <= percent1 ->
   (0 <= ScoreSystem.maxCombo (ScoreSystem.stats s))%Z ->
   (ScoreSystem.score s <= ScoreSystem.finalScore f1)%Z) /\
  (time1 <= 0 -> (ScoreSystem.timeBonus f1 <= 0)%Z).
Proof.
  intros Ht Hp. cbv zeta. unfold ScoreSystem.calculateFinalScore, Math_floor.
  cbn [ScoreSystem.finalScore ScoreSystem.baseScore ScoreSystem.timeBonus
       ScoreSystem.destructionBonus ScoreSystem.comboBonus].
  assert (H1 : (Qfloor (time1 * 50) <= Qfloor (time2 * 50))%Z)
    by (apply Qfloor_resp_le; lra).
  assert (H2 : (Qfloor (percent1 * 100) <= Qfloor (percent2 * 100))%Z)
    by (apply Qfloor_resp_le; lra).
  split; [lia|]. split; [reflexivity|]. split.
  - intros Ht0 Hp0 Hm.
    assert (0 <= Qfloor (time1 * 50))%Z
      by (change 0%Z with (Qfloor 0); apply Qfloor_resp_le; lra).
    assert (0 <= Qfloor (percent1 * 100))%Z
      by (change 0%Z with (Qfloor 0); apply Qfloor_resp_le; lra).
    lia.
  - intros Ht0. change 0%Z with (Qfloor 0). apply Qfloor_resp_le. lra.
Qed.

Lemma final_score_monotone_witness :
  let s := snd (ScoreSystem.addScore ScoreSystem.new 1000) in
  (1201 # 10) <= 150 /\ (705 # 10) <= 72 /\
  let f1 := ScoreSystem.calculateFinalScore s (1201 # 10) (705 # 10) in
  let f2 := ScoreSystem.calculateFinalScore s 150 72 in
  (ScoreSystem.finalScore f1 <= ScoreSystem.finalScore f2)%Z /\
  ScoreSystem.finalScore f1 =
    (ScoreSystem.baseScore f1 + ScoreSystem.timeBonus f1 +
     ScoreSystem.destructionBonus f1 + ScoreSystem.comboBonus f1)%Z /\
  (0 <= 1201 # 10 -> 0 <= 705 # 10 ->
   (0 <= ScoreSystem.maxCombo (ScoreSystem.stats s))%Z ->
   (ScoreSystem.score s <= ScoreSystem.finalScore f1)%Z) /\
  (1201 # 10 <= 0 -> (ScoreSystem.timeBonus f1 <= 0)%Z).
Proof.
  cbv zeta.
  assert (H1 : (1201 # 10) <= 150) by (vm_compute; discriminate).
  assert (H2 : (705 # 10) <= 72) by (vm_compute; discriminate).
  split; [exact H1|]. split; [exact H2|].
  exact (final_score_monotone _ _ _ _ _ H1 H2).
Defined.

Example final_score_sample :
  ScoreSystem.finalScore
    (ScoreSystem.calculateFinalScore
       (snd (ScoreSystem.addScore ScoreSystem.new 1000)) (1201 # 10) (705 # 10))
  = (1000 + 6005 + 7050 + 100)%Z.
Proof. reflexivity. Qed.

(** X8.  [checkHighScore] keeps the maximum: it returns [true] exactly
    when the score beats the high score, the high score afterwards is the
    larger of the two, and asking again returns [false] and changes
    nothing.  A new high score is stored, so that it is what
    [loadHighScore] reads back, unless the storage refuses the write; then
    the storage stays as it was and the high score in memory is updated
    all the same. *)
Theorem checkHighScore_keeps_maximum
    (s : ScoreSystem.t) (highScore : Z) (ls : ScoreSystem.LocalStorage) :
  let result := ScoreSystem.checkHighScore s highScore ls in
  let isNew := fst (fst result) in
  let highScore' := snd (fst result) in
  let ls' := snd result in
  highScore' = Z.max highScore (ScoreSystem.score s) /\
  (isNew = true <-> (highScore < ScoreSystem.score s)%Z) /\
  ScoreSystem.checkHighScore s highScore' ls' = (false, highScore', ls') /\
  (isNew = false -> ls' = ls) /\
  (ScoreSystem.setItemThrows ls = true -> ls' = ls) /\
  (isNew = true -> ScoreSystem.setItemThrows ls = false ->
   ScoreSystem.getItemThrows ls = false ->
   ScoreSystem.loadHighScore ls' = highScore').
Proof.
  cbv zeta. unfold ScoreSystem.checkHighScore.
  destruct (Z.ltb_spec highScore (ScoreSystem.score s)) as [Hlt|Hge];
    cbn [fst snd].
  - split; [lia|]. split; [tauto|]. split.
    { rewrite Z.ltb_irrefl. reflexivity. }
    split; [discriminate|]. split.
    + intros Hthrow. unfold ScoreSystem.saveHighScore. rewrite Hthrow. reflexivity.
    + intros _ Hset Hget. unfold ScoreSystem.saveHighScore, ScoreSystem.loadHighScore.
      rewrite Hset. cbn. rewrite Hget. reflexivity.
  - split; [lia|]. split; [split; [discriminate|lia]|]. split.
    { destruct (Z.ltb_spec highScore (ScoreSystem.score s)); [lia|reflexivity]. }
    split; [reflexivity|]. split; [reflexivity|]. discriminate.
Qed.

Example high_score_with_failing_storage :
  let s := snd (ScoreSystem.addScore ScoreSystem.new 500) in
  let ls := {| ScoreSystem.getItemThrows := false;
               ScoreSystem.setItemThrows := true;
               ScoreSystem.highScoreItem := Some 300%Z;
               ScoreSystem.rankingsItem := None |} in
  ScoreSystem.checkHighScore s (ScoreSystem.loadHighScore ls) ls
  = (true, 500%Z, ls).
Proof. reflexivity. Qed.

Lemma insertByScore_perm (e : ScoreSystem.Entry) (l : list ScoreSystem.Entry) :
  ScoreSystem.insertByScore e l ≡ₚ e :: l.
Proof.
  induction l as [|a l IH]; [reflexivity|]. cbn.
  destruct (_ <? _)%Z; [reflexivity|].
  rewrite IH. apply perm_swap.
Qed.

Lemma insertByScore_sorted (e : ScoreSystem.Entry) (l : list ScoreSystem.Entry) :
  StronglySorted byScore l -> StronglySorted byScore (ScoreSystem.insertByScore e l).
Proof.
  induction 1 as [|a l Hl IH Ha]; cbn; [repeat constructor|].
  destruct (Z.ltb_spec (ScoreSystem.e_score a) (ScoreSystem.e_score e)) as [Hlt|Hge].
  - constructor; [constructor; assumption|].
    constructor; [unfold byScore; lia|].
    eapply Forall_impl; [exact Ha|]. unfold byScore. intros b Hb. lia.
  - constructor; [exact IH|].
    rewrite insertByScore_perm. constructor; [unfold byScore; lia|exact Ha].
Qed.

Lemma sortByScore_acc (l acc : list ScoreSystem.Entry) :
  StronglySorted byScore acc ->
  StronglySorted byScore (fold_left (fun acc' e => ScoreSystem.insertByScore e acc') l acc) /\
  fold_left (fun acc' e => ScoreSystem.insertByScore e acc') l acc ≡ₚ acc ++ l.
Proof.
  revert acc. induction l as [|e l IH]; intros acc Hacc; cbn [fold_left].
  - split; [exact Hacc|]. rewrite app_nil_r. reflexivity.
  - destruct (IH _ (insertByScore_sorted e acc Hacc)) as [Hs Hp].
    split; [exact Hs|]. rewrite Hp, insertByScore_perm.
    rewrite <- Permutation_middle. reflexivity.
Qed.

Lemma sortByScore_sorted (l : list ScoreSystem.Entry) :
  StronglySorted byScore (ScoreSystem.sortByScore l) /\
  ScoreSystem.sortByScore l ≡ₚ l.
Proof.
  destruct (sortByScore_acc l [] (SSorted_nil _)) as [Hs Hp].
  split; [exact Hs|exact Hp].
Qed.

Lemma findIndex_from_spec (i : Z) (e : ScoreSystem.Entry)
    (l : list ScoreSystem.Entry) :
  let r := ScoreSystem.findIndex_from i e l in
  r = (-1)%Z \/
  ((i <= r < i + Z.of_nat (length l))%Z /\
   exists a, l !! Z.to_nat (r - i) = Some a /\
             ScoreSystem.e_score a = ScoreSystem.e_score e /\
             ScoreSystem.e_date a = ScoreSystem.e_date e).
Proof.
  cbv zeta. revert i. induction l as [|a l IH]; intros i; [left; reflexivity|].
  cbn [ScoreSystem.findIndex_from].
  destruct (Z.eqb_spec (ScoreSystem.e_score a) (ScoreSystem.e_score e)) as [Hs|Hs];
    cbn [andb].
  - destruct (String.eqb_spec (ScoreSystem.e_date a) (ScoreSystem.e_date e)) as [Hd|Hd].
    + right. split; [cbn [length]; lia|]. exists a.
      rewrite Z.sub_diag. split; [reflexivity|]. split; assumption.
    + destruct (IH (i + 1)%Z) as [H|[Hr (b & Hb & Hbs & Hbd)]]; [left; exact H|].
      right. split; [cbn [length]; lia|]. exists b. split; [|split; assumption].
      replace (Z.to_nat (ScoreSystem.findIndex_from (i + 1) e l - i))
        with (S (Z.to_nat (ScoreSystem.findIndex_from (i + 1) e l - (i + 1)))) by lia.
      exact Hb.
  - destruct (IH (i + 1)%Z) as [H|[Hr (b & Hb & Hbs & Hbd)]]; [left; exact H|].
    right. split; [cbn [length]; lia|]. exists b. split; [|split; assumption].
    replace (Z.to_nat (ScoreSystem.findIndex_from (i + 1) e l - i))
      with (S (Z.to_nat (ScoreSystem.findIndex_from (i + 1) e l - (i + 1)))) by lia.
    exact Hb.
Qed.

(** X9.  With a storage that accepts the write, [saveToRankings] leaves a
    list sorted by descending score of at most ten entries: the best of
    the stored entries and the new one, none lost and none invented, with
    every entry that was dropped scoring no more than any entry kept.  The
    rank returned is -1, or a position from 1 to 10 at which the stored
    list holds an entry with the score and the date of the new one.  A
    storage that refuses the write stays as it was, and the rank is -1. *)
Theorem saveToRankings_keeps_top_ten
    (ls : ScoreSystem.LocalStorage) (finalScore : Z)
    (destructionPercent timeRemaining : Q) (date : string) :
  let loaded := ScoreSystem.loadRankings ls in
  let newEntry :=
    {| ScoreSystem.e_score := finalScore;
       ScoreSystem.e_destruction := Math_floor destructionPercent;
       ScoreSystem.e_time := Math_floor timeRemaining;
       ScoreSystem.e_date := date |} in
  let result :=
    ScoreSystem.saveToRankings ls finalScore destructionPercent timeRemaining date in
  let rank := fst result in
  let ls' := snd result in
  (ScoreSystem.setItemThrows ls = true -> rank = (-1)%Z /\ ls' = ls) /\
  (ScoreSystem.setItemThrows ls = false ->
   exists stored dropped : list ScoreSystem.Entry,
     ScoreSystem.rankingsItem ls' = Some stored /\
     ScoreSystem.highScoreItem ls' = ScoreSystem.highScoreItem ls /\
     length stored = Nat.min 10 (S (length loaded)) /\
     StronglySorted byScore stored /\
     stored ++ dropped ≡ₚ loaded ++ [newEntry] /\
     (forall a b, In a stored -> In b dropped -> byScore a b) /\
     (rank = (-1)%Z \/
      ((1 <= rank <= 10)%Z /\
       exists a, stored !! Z.to_nat (rank - 1) = Some a /\
                 ScoreSystem.e_score a = finalScore /\
                 ScoreSystem.e_date a = date))).
Proof.
  cbv zeta. unfold ScoreSystem.saveToRankings.
  destruct (ScoreSystem.setItemThrows ls) eqn:Hset; cbn [fst snd].
  - split; [intros _; split; reflexivity|discriminate].
  - split; [discriminate|]. intros _.
    set (newEntry := {| ScoreSystem.e_score := finalScore;
                        ScoreSystem.e_destruction := Math_floor destructionPercent;
                        ScoreSystem.e_time := Math_floor timeRemaining;
                        ScoreSystem.e_date := date |}).
    set (sorted := ScoreSystem.sortByScore (ScoreSystem.loadRankings ls ++ [newEntry])).
    destruct (sortByScore_sorted (ScoreSystem.loadRankings ls ++ [newEntry]))
      as [Hsorted Hperm]. fold sorted in Hsorted, Hperm.
    exists (take 10 sorted), (drop 10 sorted).
    split; [reflexivity|]. split; [reflexivity|].
    assert (Hsplit : take 10 sorted ++ drop 10 sorted = sorted) by apply take_drop.
    rewrite <- Hsplit in Hsorted.
    split.
    { rewrite length_take. apply Permutation_length in Hperm.
      rewrite Hperm, length_app. cbn [length]. lia. }
    split; [eapply StronglySorted_app_1_l; exact Hsorted|].
    split; [rewrite Hsplit; exact Hperm|].
    split.
    { intros a b Ha Hb.
      eapply (StronglySorted_app_1_elem_of byScore); [exact Hsorted| |];
        apply list_elem_of_In; assumption. }
    destruct (findIndex_from_spec 0 newEntry (take 10 sorted))
      as [Hr|[Hr (a & Ha & Has & Had)]]; cbv zeta in *.
    + left. rewrite Hr. reflexivity.
    + right.
      assert (Hlen : (length (take 10 sorted) <= 10)%nat)
        by (rewrite length_take; lia).
      destruct (Z.eqb_spec (ScoreSystem.findIndex_from 0 newEntry (take 10 sorted)) (-1));
        [lia|].
      split; [lia|]. exists a. split; [|split; assumption].
      rewrite Z.sub_0_r in Ha.
      replace (ScoreSystem.findIndex_from 0 newEntry (take 10 sorted) + 1 - 1)%Z
        with (ScoreSystem.findIndex_from 0 newEntry (take 10 sorted)) by lia.
      exact Ha.
Qed.

Lemma insertByScore_last (e : ScoreSystem.Entry) (l : list ScoreSystem.Entry) :
  Forall (fun a => byScore a e) l -> ScoreSystem.insertByScore e l = l ++ [e].
Proof.
  induction 1 as [|a l Ha _ IH]; [reflexivity|]. cbn.
  unfold byScore in Ha.
  destruct (Z.ltb_spec (ScoreSystem.e_score a) (ScoreSystem.e_score e)); [lia|].
  rewrite IH. reflexivity.
Qed.

Lemma sortByScore_sorted_id (l acc : list ScoreSystem.Entry) :
  StronglySorted byScore (acc ++ l) ->
  fold_left (fun acc' e => ScoreSystem.insertByScore e acc') l acc = acc ++ l.
Proof.
  revert acc. induction l as [|a l IH]; intros acc Hs; cbn [fold_left].
  - rewrite app_nil_r. reflexivity.
  - rewrite insertByScore_last.
    + rewrite IH; rewrite <- app_assoc; [reflexivity|exact Hs].
    + apply Forall_forall. intros b Hb.
      eapply (StronglySorted_app_1_elem_of byScore); [exact Hs|exact Hb|].
      left.
Qed.

Lemma atLeast_sorted_below (e a : ScoreSystem.Entry) (l : list ScoreSystem.Entry) :
  (ScoreSystem.e_score a < ScoreSystem.e_score e)%Z ->
  Forall (byScore a) l ->
  atLeast (ScoreSystem.e_score e) (a :: l) = 0%nat.
Proof.
  intros Hlt Hall. unfold atLeast. cbn [List.filter].
  destruct (Z.leb_spec (ScoreSystem.e_score e) (ScoreSystem.e_score a)); [lia|].
  induction Hall as [|b l Hb _ IH]; [reflexivity|]. cbn [List.filter].
  unfold byScore in Hb.
  destruct (Z.leb_spec (ScoreSystem.e_score e) (ScoreSystem.e_score b)); [lia|].
  exact IH.
Qed.

(** Where the new entry lands in a sorted list, and what [findIndex] then
    returns on the first [n] entries. *)
Lemma rank_after_insert (e : ScoreSystem.Entry) (l : list ScoreSystem.Entry) :
  StronglySorted byScore l -> unseen e l ->
  ScoreSystem.insertByScore e l !! atLeast (ScoreSystem.e_score e) l = Some e /\
  forall (i : Z) (n : nat),
    ScoreSystem.findIndex_from i e (take n (ScoreSystem.insertByScore e l)) =
    if (atLeast (ScoreSystem.e_score e) l <? n)%nat
    then (i + Z.of_nat (atLeast (ScoreSystem.e_score e) l))%Z
    else (-1)%Z.
Proof.
  assert (Hself : forall i rest, ScoreSystem.findIndex_from i e (e :: rest) = i).
  { intros i rest. cbn. rewrite Z.eqb_refl, String.eqb_refl. reflexivity. }
  induction 1 as [|a l Hl IH Ha]; intros Hun.
  - split; [reflexivity|].
    intros i [|n]; cbn [firstn ScoreSystem.insertByScore]; [reflexivity|].
    rewrite Hself. cbn. lia.
  - inversion Hun as [|? ? Hna Hunl]; subst. cbn [ScoreSystem.insertByScore].
    destruct (Z.ltb_spec (ScoreSystem.e_score a) (ScoreSystem.e_score e)) as [Hlt|Hge].
    + rewrite (atLeast_sorted_below e a l Hlt Ha).
      split; [reflexivity|]. intros i [|n]; cbn [firstn]; [reflexivity|].
      rewrite Hself. cbn. lia.
    + destruct (IH Hunl) as [Hpos Hrank].
      assert (Hk : atLeast (ScoreSystem.e_score e) (a :: l) =
                   S (atLeast (ScoreSystem.e_score e) l)).
      { unfold atLeast. cbn [List.filter].
        destruct (Z.leb_spec (ScoreSystem.e_score e) (ScoreSystem.e_score a)); [|lia].
        reflexivity. }
      rewrite Hk. split; [exact Hpos|].
      intros i [|n]; cbn [firstn]; [reflexivity|].
      cbn [ScoreSystem.findIndex_from].
      assert (Hno : (ScoreSystem.e_score a =? ScoreSystem.e_score e)%Z &&
                    String.eqb (ScoreSystem.e_date a) (ScoreSystem.e_date e) = false).
      { destruct (Z.eqb_spec (ScoreSystem.e_score a) (ScoreSystem.e_score e));
          [|reflexivity].
        destruct (String.eqb_spec (ScoreSystem.e_date a) (ScoreSystem.e_date e));
          [|reflexivity].
        exfalso. apply Hna. split; assumption. }
      rewrite Hno, Hrank.
      change (S (atLeast (ScoreSystem.e_score e) l) <? S n)%nat
        with (atLeast (ScoreSystem.e_score e) l <? n)%nat.
      destruct (_ <? _)%nat; lia.
Qed.

Lemma insert_beyond_take (e : ScoreSystem.Entry) (l : list ScoreSystem.Entry)
    (n : nat) :
  StronglySorted byScore l ->
  (n <= atLeast (ScoreSystem.e_score e) l)%nat ->
  take n (ScoreSystem.insertByScore e l) = take n l.
Proof.
  intros Hsorted. revert n.
  induction Hsorted as [|a l Hl IH Ha]; intros n Hge.
  - unfold atLeast in Hge. cbn in Hge. assert (n = 0%nat) as -> by lia. reflexivity.
  - cbn [ScoreSystem.insertByScore].
    destruct (Z.ltb_spec (ScoreSystem.e_score a) (ScoreSystem.e_score e)) as [Hlt|Hge'].
    + rewrite (atLeast_sorted_below e a l Hlt Ha) in Hge.
      assert (n = 0%nat) as -> by lia. reflexivity.
    + destruct n as [|n]; [reflexivity|]. cbn [firstn]. f_equal.
      apply IH.
      unfold atLeast in Hge |- *. cbn [List.filter] in Hge.
      destruct (Z.leb_spec (ScoreSystem.e_score e) (ScoreSystem.e_score a)); [|lia].
      cbn [length] in Hge. lia.
Qed.

(** X10.  When the stored rankings are sorted, as [saveToRankings] leaves
    them, and hold no entry with both the score and the time stamp of the
    new one, the rank returned is one more than the number of stored
    entries that score at least as much, so that a new entry ranks behind
    the earlier entries with the same score; with ten or more such
    entries the rank is -1 and the new entry is not kept. *)
Theorem new_score_ranks_behind_equals
    (ls : ScoreSystem.LocalStorage) (finalScore : Z)
    (destructionPercent timeRemaining : Q) (date : string) :
  let loaded := ScoreSystem.loadRankings ls in
  let newEntry :=
    {| ScoreSystem.e_score := finalScore;
       ScoreSystem.e_destruction := Math_floor destructionPercent;
       ScoreSystem.e_time := Math_floor timeRemaining;
       ScoreSystem.e_date := date |} in
  ScoreSystem.setItemThrows ls = false ->
  StronglySorted byScore loaded ->
  unseen newEntry loaded ->
  let result :=
    ScoreSystem.saveToRankings ls finalScore destructionPercent timeRemaining date in
  let better := atLeast finalScore loaded in
  exists stored,
    ScoreSystem.rankingsItem (snd result) = Some stored /\
    if (better <? 10)%nat
    then fst result = (Z.of_nat better + 1)%Z /\ stored !! better = Some newEntry
    else fst result = (-1)%Z /\ ~ In newEntry stored /\ stored = take 10 loaded.
Proof.
  cbv zeta. intros Hset Hsorted Hun. unfold ScoreSystem.saveToRankings.
  rewrite Hset. cbn [fst snd ScoreSystem.rankingsItem].
  set (newEntry := {| ScoreSystem.e_score := finalScore;
                      ScoreSystem.e_destruction := Math_floor destructionPercent;
                      ScoreSystem.e_time := Math_floor timeRemaining;
                      ScoreSystem.e_date := date |}) in *.
  assert (Hsort : ScoreSystem.sortByScore (ScoreSystem.loadRankings ls ++ [newEntry]) =
                  ScoreSystem.insertByScore newEntry (ScoreSystem.loadRankings ls)).
  { unfold ScoreSystem.sortByScore. rewrite fold_left_app. cbn [fold_left].
    rewrite (sortByScore_sorted_id (ScoreSystem.loadRankings ls) []); [reflexivity|].
    exact Hsorted. }
  rewrite Hsort.
  destruct (rank_after_insert newEntry (ScoreSystem.loadRankings ls) Hsorted Hun)
    as [Hpos Hrank].
  change (ScoreSystem.e_score newEntry) with finalScore in Hpos, Hrank.
  eexists. split; [reflexivity|].
  rewrite (Hrank 0%Z 10%nat).
  destruct (Nat.ltb_spec (atLeast finalScore (ScoreSystem.loadRankings ls)) 10)
    as [Hlt|Hge].
  - destruct (Z.eqb_spec (0 + Z.of_nat (atLeast finalScore (ScoreSystem.loadRankings ls))) (-1));
      [lia|].
    split; [lia|]. rewrite lookup_take_lt by exact Hlt. exact Hpos.
  - cbn [Z.eqb]. split; [reflexivity|].
    assert (Htake : take 10 (ScoreSystem.insertByScore newEntry (ScoreSystem.loadRankings ls)) =
                    take 10 (ScoreSystem.loadRankings ls))
      by (apply insert_beyond_take; assumption).
    rewrite Htake. split; [|reflexivity].
    intros Hin. apply list_elem_of_In in Hin.
    apply (subseteq_take 10) in Hin.
    unfold unseen in Hun. rewrite Forall_forall in Hun.
    apply (Hun newEntry Hin). split; reflexivity.
Qed.

(** The theorem at work: a third game with 300 points takes rank 4,
    behind the two earlier ones. *)
Lemma new_score_ranks_behind_equals_witness :
  let date := "2024-01-04T10:00:00.000Z" in
  let loaded := ScoreSystem.loadRankings sampleStorage in
  let newEntry :=
    {| ScoreSystem.e_score := 300;
       ScoreSystem.e_destruction := Math_floor (405 # 10);
       ScoreSystem.e_time := Math_floor (- (1 # 60));
       ScoreSystem.e_date := date |} in
  ScoreSystem.setItemThrows sampleStorage = false /\
  StronglySorted byScore loaded /\
  unseen newEntry loaded /\
  let result :=
    ScoreSystem.saveToRankings sampleStorage 300 (405 # 10) (- (1 # 60)) date in
  let better := atLeast 300 loaded in
  exists stored,
    ScoreSystem.rankingsItem (snd result) = Some stored /\
    if (better <? 10)%nat
    then fst result = (Z.of_nat better + 1)%Z /\ stored !! better = Some newEntry
    else fst result = (-1)%Z /\ ~ In newEntry stored /\ stored = take 10 loaded.
Proof.
  cbv zeta.
  assert (H1 : ScoreSystem.setItemThrows sampleStorage = false) by reflexivity.
  assert (H2 : StronglySorted byScore (ScoreSystem.loadRankings sampleStorage)).
  { vm_compute. repeat constructor; vm_compute; discriminate. }
  match goal with |- _ /\ _ /\ ?U /\ _ =>
    assert (H3 : U)
      by (vm_compute; repeat constructor; intros [_ H]; discriminate H)
  end.
  split; [exact H1|]. split; [exact H2|]. split; [exact H3|].
  exact (new_score_ranks_behind_equals sampleStorage 300 (405 # 10) (- (1 # 60))
           "2024-01-04T10:00:00.000Z" H1 H2 H3).
Defined.

Example third_game_with_300_points_ranks_fourth :
  fst (ScoreSystem.saveToRankings sampleStorage 300 (405 # 10) (- (1 # 60))
         "2024-01-04T10:00:00.000Z") = 4%Z /\
  fst (ScoreSystem.saveToRankings sampleStorage 301 (405 # 10) (- (1 # 60))
         "2024-01-04T10:00:00.000Z") = 2%Z.
Proof. split; reflexivity. Qed.

(** A new entry with the score and the time stamp of a stored one is
    reported at the rank of the stored one. *)
Example same_score_and_date_reports_earlier_rank :
  fst (ScoreSystem.saveToRankings sampleStorage 300 (405 # 10) (- (1 # 60))
         "2024-01-02T10:00:00.000Z") = 2%Z.
Proof. reflexivity. Qed.

(** ** The bullets of a frame *)

Lemma with_bullets_twice (zk : Zaku.t) (a b : list Zaku.Bullet) :
  Zaku.with_bullets (Zaku.with_bullets zk a) b = Zaku.with_bullets zk b.
Proof. reflexivity. Qed.

(** The loop invariant of [checkBulletCollisions]: with the bullets of
    [back] already visited and those of [front] still to visit, the loop
    ends, keeps of [front] the bullets whose ray met nothing, and keeps
    every property of the structure and the score that a resolved hit
    preserves. *)
Lemma checkBulletCollisions_loop_spec
    (intersectObjects : Ray -> list Object3D -> list Intersection)
    (targets : list Object3D)
    (P : Colony.t -> ScoreSystem.t -> Prop) :
  (forall g i d,
     P (Game.colony g) (Game.scoreSystem g) ->
     P (Game.colony (Game.applyHit g i d))
       (Game.scoreSystem (Game.applyHit g i d))) ->
  forall (front back : list Zaku.Bullet) (g : Game.t),
    Zaku.bullets (Game.zaku g) = front ++ back ->
    P (Game.colony g) (Game.scoreSystem g) ->
    exists g',
      Game.checkBulletCollisions_loop intersectObjects (length front) targets g
        = Some g' /\
      Game.zaku g' =
        Zaku.with_bullets (Game.zaku g)
          (List.filter (missed intersectObjects (Game.deltaTime g) targets) front
           ++ back) /\
      Game.deltaTime g' = Game.deltaTime g /\
      P (Game.colony g') (Game.scoreSystem g').
Proof.
  intros HP front.
  induction front as [|b front IH] using rev_ind; intros back g Hbs Hg.
  - exists g. cbn. repeat split; [|assumption].
    cbn in Hbs. rewrite <- Hbs. destruct g as [[] ? ? ?]. reflexivity.
  - rewrite length_app, Nat.add_1_r. cbn [Game.checkBulletCollisions_loop].
    rewrite <- app_assoc in Hbs. cbn [app] in Hbs.
    rewrite Hbs, list_lookup_middle by reflexivity.
    rewrite List.filter_app. cbn [List.filter]. unfold missed at 2.
    destruct (intersectObjects (Game.bulletRay b (Game.deltaTime g)) targets)
      as [|hit rest] eqn:Hray.
    + destruct (IH (b :: back) g Hbs Hg) as (g' & Hrun & Hzk & Hdt & HP').
      exists g'. rewrite <- app_assoc. cbn [app]. repeat split; assumption.
    + set (g1 := match Colony.getSectionAtPoint (Game.colony g) hit with
                 | Some (index, _) =>
                     Game.applyHit g index (Zaku.damage (Zaku.userData b))
                 | None => g
                 end).
      assert (H1 : Game.zaku g1 = Game.zaku g /\
                   Game.deltaTime g1 = Game.deltaTime g /\
                   P (Game.colony g1) (Game.scoreSystem g1)).
      { unfold g1. destruct (Colony.getSectionAtPoint (Game.colony g) hit)
          as [[index ?]|].
        - destruct (applyHit_zaku g index (Zaku.damage (Zaku.userData b))).
          repeat split; [assumption|assumption|apply HP, Hg].
        - repeat split; assumption. }
      destruct H1 as (Hz1 & Hd1 & HP1).
      rewrite Hz1, Hbs, delete_middle.
      edestruct (IH back
                   (Game.with_zaku g1
                      (Zaku.with_bullets (Game.zaku g) (front ++ back))))
        as (g' & Hrun & Hzk & Hdt & HP'); [reflexivity|exact HP1|].
      exists g'. split; [exact Hrun|].
      cbn [Game.with_zaku Game.zaku Game.deltaTime] in Hzk, Hdt.
      rewrite with_bullets_twice in Hzk. rewrite Hd1 in Hzk, Hdt.
      rewrite app_nil_r. repeat split; assumption.
Qed.

(** X11.  [checkBulletCollisions] never reads past the end of the bullet
    array although it removes bullets while it walks the array backwards:
    it always returns, and it leaves exactly the bullets whose ray met none
    of the targets computed at the start of the call, in their order; the
    other fields of the Zaku and the frame time are as before. *)
Theorem checkBulletCollisions_keeps_missed
    (intersectObjects : Ray -> list Object3D -> list Intersection)
    (g : Game.t) :
  exists g',
    Game.checkBulletCollisions intersectObjects g = Some g' /\
    Game.zaku g' =
      Zaku.with_bullets (Game.zaku g)
        (List.filter
           (missed intersectObjects (Game.deltaTime g)
                   (Colony.getHitTargets (Game.colony g)))
           (Zaku.bullets (Game.zaku g))) /\
    Game.deltaTime g' = Game.deltaTime g.
Proof.
  destruct (checkBulletCollisions_loop_spec intersectObjects
              (Colony.getHitTargets (Game.colony g)) (fun _ _ => True)
              (fun _ _ _ _ => I) (Zaku.bullets (Game.zaku g)) [] g)
    as (g' & Hrun & Hzk & Hdt & _); [symmetry; apply app_nil_r|exact I|].
  exists g'. rewrite app_nil_r in Hzk. repeat split; assumption.
Qed.

(** ** Statistics and structure *)

Lemma destroyed_count_insert (l : list Colony.section) (n : nat)
    (s s' : Colony.section) :
  l !! n = Some s ->
  length (List.filter Colony.destroyed (<[n := s']> l)) =
  (length (List.filter Colony.destroyed l)
   + (if Colony.destroyed s' then 1 else 0)
   - (if Colony.destroyed s then 1 else 0))%nat.
Proof.
  revert n. induction l as [|a l IH]; intros [|n] Hn; try discriminate.
  - cbn in Hn. injection Hn as ->. cbn.
    destruct (Colony.destroyed s'), (Colony.destroyed s); cbn; lia.
  - cbn in Hn. specialize (IH n Hn).
    change (<[S n := s']> (a :: l)) with (a :: <[n := s']> l).
    cbn [List.filter].
    destruct (Colony.destroyed a); cbn [length]; rewrite IH; [|reflexivity].
    destruct (Colony.destroyed s') eqn:E', (Colony.destroyed s) eqn:E; try lia.
    assert (0 < length (List.filter Colony.destroyed l))%nat; [|lia].
    clear IH. revert n Hn. induction l as [|b l IHl]; intros [|n] Hn;
      try discriminate; cbn in Hn |- *.
    + injection Hn as ->. rewrite E. cbn. lia.
    + destruct (Colony.destroyed b); cbn; [lia|]. eapply IHl, Hn.
Qed.

Ltac score_cbn :=
  cbn [ScoreSystem.stats ScoreSystem.totalDamage ScoreSystem.sectionsDestroyed
       ScoreSystem.shotsHit ScoreSystem.shotsFired ScoreSystem.combo
       ScoreSystem.maxCombo ScoreSystem.score ScoreSystem.comboTimer
       ScoreSystem.recordShot ScoreSystem.recordDamage
       ScoreSystem.recordDestruction ScoreSystem.with_stats
       ScoreSystem.addScore ScoreSystem.set_maxCombo ScoreSystem.resetCombo
       fst snd Game.colony Game.scoreSystem Game.zaku Game.deltaTime
       Game.with_scoreSystem Game.with_colony Game.with_zaku
       Game.with_deltaTime].

Lemma applyHit_consistent (g : Game.t) (i : nat) (d : Q) :
  consistent (Game.colony g) (Game.scoreSystem g) ->
  consistent (Game.colony (Game.applyHit g i d))
             (Game.scoreSystem (Game.applyHit g i d)).
Proof.
  intros (Hcount & Hshots & Hcombo & Hmax).
  unfold destroyedCount in Hcount. unfold Game.applyHit.
  pose proof (damageSection_outcome (Game.colony g) (Z.of_nat i) d) as H.
  destruct (Colony.damageSection (Game.colony g) (Z.of_nat i) d) as [r c'].
  cbn [fst snd] in H.
  destruct H as [H|s c' Hi Hd Hh Hs Ht Hc Hp|s c' Hi Hd Hh Hs Ht Hc Hp].
  - repeat split; assumption || apply Hshots || apply Hcombo.
  - cbn [Colony.r_destroyed Game.with_scoreSystem Game.with_colony
         Game.colony Game.scoreSystem].
    apply at_index_Some in Hi. destruct Hi as (_ & Hi & _).
    unfold consistent, destroyedCount. score_cbn.
    rewrite Hs, (destroyed_count_insert _ _ _ _ Hi).
    cbn [Colony.damaged Colony.destroyed]. rewrite Hd.
    repeat split; lia.
  - cbn [Colony.r_destroyed Colony.r_points Game.with_scoreSystem
         Game.with_colony Game.colony Game.scoreSystem].
    apply at_index_Some in Hi. destruct Hi as (_ & Hi & _).
    unfold consistent, destroyedCount. score_cbn.
    rewrite Hs, (destroyed_count_insert _ _ _ _ Hi).
    cbn [Colony.wrecked Colony.destroyed]. rewrite Hd.
    destruct (_ <? _)%Z eqn:E; score_cbn;
      [apply Z.ltb_lt in E|apply Z.ltb_ge in E];
      repeat split; lia.
Qed.

Lemma handleShooting_keeps
    (intersectObjects : Ray -> list Object3D -> list Intersection)
    (P : Colony.t -> ScoreSystem.t -> Prop) :
  (forall g i d,
     P (Game.colony g) (Game.scoreSystem g) ->
     P (Game.colony (Game.applyHit g i d))
       (Game.scoreSystem (Game.applyHit g i d))) ->
  (forall c s, P c s -> P c (ScoreSystem.recordShot s false)) ->
  forall (g : Game.t) (now : Z) (muzzlePoint : Zaku.MuzzlePoint) (ray : Ray),
    P (Game.colony g) (Game.scoreSystem g) ->
    let g' := Game.handleShooting intersectObjects g now muzzlePoint ray in
    P (Game.colony g') (Game.scoreSystem g') /\
    Game.deltaTime g' = Game.deltaTime g.
Proof.
  intros Hhit Hmiss g now muzzlePoint ray Hg. cbv zeta.
  unfold Game.handleShooting.
  set (g0 := Game.with_zaku g (snd (Zaku.fire (Game.zaku g) now muzzlePoint))).
  assert (H0 : P (Game.colony g0) (Game.scoreSystem g0)) by exact Hg.
  destruct (intersectObjects ray (Colony.getHitTargets (Game.colony g0)))
    as [|hit rest].
  - split; [apply Hmiss, H0|reflexivity].
  - destruct (Colony.getSectionAtPoint (Game.colony g0) hit) as [[index ?]|].
    + split; [apply Hhit, H0|].
      destruct (applyHit_zaku g0 index (10 * Game.deltaTime g0 * 60)) as [_ ->].
      reflexivity.
    + split; [exact H0|reflexivity].
Qed.

(** What [update(deltaTime)] does, for every property [P] of the
    structure and the score that resolved hits, recorded misses and the
    combo timer preserve: it always returns; when the time has run out it
    only ends the game; otherwise it leaves a core that still has [P],
    counts a crash, and ends the game when the target is reached. *)
Lemma update_spec
    (intersectObjects : Ray -> list Object3D -> list Intersection)
    (P : Colony.t -> ScoreSystem.t -> Prop) :
  (forall g i d,
     P (Game.colony g) (Game.scoreSystem g) ->
     P (Game.colony (Game.applyHit g i d))
       (Game.scoreSystem (Game.applyHit g i d))) ->
  (forall c s, P c s -> P c (ScoreSystem.recordShot s false)) ->
  (forall c s dt, P c s -> P c (ScoreSystem.update s dt)) ->
  forall (m : Mission.t) (f : Mission.Frame),
    P (Game.colony (Mission.game m)) (Game.scoreSystem (Mission.game m)) ->
    let m1 :=
      Mission.with_missionTimer m
        (Mission.missionTimer m - Mission.frameTime f) in
    if js_le (Mission.missionTimer m1) 0
    then Mission.update intersectObjects m f =
         Some (Mission.endGame m1 false Mission.timeout (Mission.date f))
    else
      exists g4,
        P (Game.colony g4) (Game.scoreSystem g4) /\
        Game.deltaTime g4 = Game.deltaTime (Mission.game m) /\
        Mission.update intersectObjects m f =
        Some (let m2 := Mission.with_game m1 g4 in
              let m3 :=
                if Mission.collides f then Mission.handleZakuCrash m2 else m2 in
              if js_ge (Colony.getDestructionPercentage (Game.colony g4))
                       Mission.GAME_targetDestructionRate
              then Mission.endGame m3 true Mission.timeout (Mission.date f)
              else m3).
Proof.
  intros Hhit Hmiss Hupd m f Hm. cbv zeta. unfold Mission.update.
  destruct (js_le _ 0); [reflexivity|].
  cbn [Mission.game Mission.with_missionTimer].
  rewrite updateBullets_spec.
  set (g1 := Game.with_zaku (Mission.game m) _).
  set (g2 := if Mission.fireHeld f then _ else g1).
  assert (H2 : P (Game.colony g2) (Game.scoreSystem g2) /\
               Game.deltaTime g2 = Game.deltaTime (Mission.game m)).
  { unfold g2. destruct (Mission.fireHeld f); [|split; [exact Hm|reflexivity]].
    apply (handleShooting_keeps intersectObjects P Hhit Hmiss g1). exact Hm. }
  destruct H2 as [HP2 Hdt2].
  destruct (checkBulletCollisions_loop_spec intersectObjects
              (Colony.getHitTargets (Game.colony g2)) P Hhit
              (Zaku.bullets (Game.zaku g2)) [] g2)
    as (g3 & Hrun & _ & Hdt3 & HP3); [symmetry; apply app_nil_r|exact HP2|].
  unfold Game.checkBulletCollisions, Zaku.getBullets. rewrite Hrun.
  exists (Game.with_scoreSystem g3
            (ScoreSystem.update (Game.scoreSystem g3) (Mission.frameTime f))).
  split; [|split; [|cbv zeta; destruct (js_ge _ _); reflexivity]].
  - cbn [Game.with_scoreSystem Game.colony Game.scoreSystem].
    apply Hupd, HP3.
  - cbn [Game.with_scoreSystem Game.deltaTime]. congruence.
Qed.

Lemma endGame_game (m : Mission.t) (victory : bool) (reason : Mission.Reason)
    (date : string) :
  Mission.game (Mission.endGame m victory reason date) = Mission.game m.
Proof.
  unfold Mission.endGame.
  destruct (ScoreSystem.checkHighScore _ _ _) as [[? ?] ?].
  destruct (ScoreSystem.saveToRankings _ _ _ _ _) as [? ?].
  destruct (Mission.state m); reflexivity.
Qed.

(** Every event of a mission is handled without an exception, and keeps
    every property of the structure and the score that resolved hits,
    recorded misses, the combo timer and a restart establish or preserve. *)
Lemma handle_keeps
    (intersectObjects : Ray -> list Object3D -> list Intersection)
    (P : Colony.t -> ScoreSystem.t -> Prop) :
  (forall g i d,
     P (Game.colony g) (Game.scoreSystem g) ->
     P (Game.colony (Game.applyHit g i d))
       (Game.scoreSystem (Game.applyHit g i d))) ->
  (forall c s, P c s -> P c (ScoreSystem.recordShot s false)) ->
  (forall c s dt, P c s -> P c (ScoreSystem.update s dt)) ->
  (forall s, P Colony.new (ScoreSystem.reset s)) ->
  forall (m : Mission.t) (e : Mission.Event),
    P (Game.colony (Mission.game m)) (Game.scoreSystem (Mission.game m)) ->
    exists m',
      Mission.handle intersectObjects m e = Some m' /\
      P (Game.colony (Mission.game m')) (Game.scoreSystem (Mission.game m')).
Proof.
  intros Hhit Hmiss Hupd Hreset m [f|d| |] Hm; cbn [Mission.handle].
  - unfold Mission.gameLoop.
    set (m0 := Mission.with_game m _).
    assert (H0 : P (Game.colony (Mission.game m0))
                   (Game.scoreSystem (Mission.game m0))) by exact Hm.
    destruct (Mission.state m0); try (exists m0; split; [reflexivity|exact H0]).
    pose proof (update_spec intersectObjects P Hhit Hmiss Hupd m0 f H0) as H.
    cbv zeta in H. destruct (js_le _ 0).
    + eexists. split; [exact H|]. rewrite endGame_game. exact H0.
    + destruct H as (g4 & H4 & _ & ->). eexists. split; [reflexivity|].
      destruct (js_ge _ _); [rewrite endGame_game|];
        destruct (Mission.collides f); exact H4.
  - eexists. split; [reflexivity|]. unfold Mission.crashTimerFires.
    destruct (Mission.crashTimers m); [exact Hm|].
    rewrite endGame_game. exact Hm.
  - eexists. split; [reflexivity|]. unfold Mission.onBlur.
    destruct (Mission.state m); exact Hm.
  - eexists. split; [reflexivity|]. apply Hreset.
Qed.

Lemma handleAll_keeps
    (intersectObjects : Ray -> list Object3D -> list Intersection)
    (P : Colony.t -> ScoreSystem.t -> Prop) :
  (forall g i d,
     P (Game.colony g) (Game.scoreSystem g) ->
     P (Game.colony (Game.applyHit g i d))
       (Game.scoreSystem (Game.applyHit g i d))) ->
  (forall c s, P c s -> P c (ScoreSystem.recordShot s false)) ->
  (forall c s dt, P c s -> P c (ScoreSystem.update s dt)) ->
  (forall s, P Colony.new (ScoreSystem.reset s)) ->
  forall (events : list Mission.Event) (m : Mission.t),
    P (Game.colony (Mission.game m)) (Game.scoreSystem (Mission.game m)) ->
    exists m',
      Mission.handleAll intersectObjects m events = Some m' /\
      P (Game.colony (Mission.game m')) (Game.scoreSystem (Mission.game m')).
Proof.
  intros Hhit Hmiss Hupd Hreset events.
  induction events as [|e events IH]; intros m Hm.
  - exists m. split; [reflexivity|exact Hm].
  - destruct (handle_keeps intersectObjects P Hhit Hmiss Hupd Hreset m e Hm)
      as (m1 & H1 & HP1).
    cbn [Mission.handleAll]. rewrite H1. apply IH, HP1.
Qed.

Lemma recordShot_miss_consistent (c : Colony.t) (s : ScoreSystem.t) :
  consistent c s -> consistent c (ScoreSystem.recordShot s false).
Proof.
  intros (Hcount & Hshots & Hcombo & Hmax).
  unfold consistent. score_cbn. repeat split; try assumption; lia.
Qed.

Lemma update_consistent (c : Colony.t) (s : ScoreSystem.t) (dt : Q) :
  consistent c s -> consistent c (ScoreSystem.update s dt).
Proof.
  intros (Hcount & Hshots & Hcombo & Hmax).
  unfold ScoreSystem.update.
  destruct (0 <? ScoreSystem.combo s)%Z;
    [|repeat split; assumption || apply Hshots || apply Hcombo].
  cbn [ScoreSystem.comboTimer]. destruct (js_le _ 0);
    unfold consistent; score_cbn; repeat split; try assumption; lia.
Qed.

Lemma reset_consistent (s : ScoreSystem.t) :
  consistent Colony.new (ScoreSystem.reset s).
Proof.
  unfold consistent. cbn [ScoreSystem.reset ScoreSystem.stats
    ScoreSystem.initialStats ScoreSystem.totalDamage
    ScoreSystem.sectionsDestroyed ScoreSystem.shotsHit ScoreSystem.shotsFired
    ScoreSystem.combo ScoreSystem.maxCombo].
  repeat split; try lia.
Qed.

(** X12.  The counters never drift from the structure: a mission started
    by [init()] handles every sequence of frames, crash timers, blur events
    and restarts without an exception, and after it the destructions
    recorded are the destroyed sections of the colony, the hits recorded
    are no more than the shots, and the combo is at most the maximal combo,
    which is at most the number of destructions. *)
Theorem statistics_agree_with_structure
    (intersectObjects : Ray -> list Object3D -> list Intersection)
    (ls : ScoreSystem.LocalStorage) (events : list Mission.Event) :
  exists m',
    Mission.handleAll intersectObjects (Mission.new ls) events = Some m' /\
    consistent (Game.colony (Mission.game m'))
               (Game.scoreSystem (Mission.game m')).
Proof.
  apply (handleAll_keeps intersectObjects consistent).
  - apply applyHit_consistent.
  - apply recordShot_miss_consistent.
  - apply update_consistent.
  - apply reset_consistent.
  - apply (reset_consistent ScoreSystem.new).
Qed.

(** ** The end of a mission *)

Lemma endGame_over (m : Mission.t) (victory : bool) (reason : Mission.Reason)
    (date : string) :
  Mission.state m = Mission.gameover ->
  Mission.endGame m victory reason date = m.
Proof. intros H. unfold Mission.endGame. rewrite H. reflexivity. Qed.

(** What [endGame] records when the game is not over yet. *)
Lemma endGame_record (m : Mission.t) (victory : bool) (reason : Mission.Reason)
    (date : string) :
  Mission.state m <> Mission.gameover ->
  let m' := Mission.endGame m victory reason date in
  let percentage :=
    Colony.getDestructionPercentage (Game.colony (Mission.game m)) in
  Mission.state m' = Mission.gameover /\
  Mission.missionTimer m' = Mission.missionTimer m /\
  Mission.crashTimers m' = Mission.crashTimers m /\
  Mission.zakuVisible m' = Mission.zakuVisible m /\
  exists d,
    Mission.lastGameData m' = Some d /\
    Mission.scoreData d =
      ScoreSystem.calculateFinalScore (Game.scoreSystem (Mission.game m))
        (Mission.missionTimer m) percentage /\
    Mission.destruction d = percentage /\
    Mission.timeRemaining d = Mission.missionTimer m /\
    Mission.isVictory d = victory /\
    Mission.title d =
      (if victory then Mission.MISSION_COMPLETE
       else match reason with
            | Mission.collision => Mission.DESTROYED
            | Mission.timeout => Mission.TIME_UP
            end).
Proof.
  intros Hstate. cbv zeta. unfold Mission.endGame.
  destruct (ScoreSystem.checkHighScore _ _ _) as [[? ?] ?].
  destruct (ScoreSystem.saveToRankings _ _ _ _ _) as [? ?].
  destruct (Mission.state m); try contradiction;
    cbn; repeat split; eexists; repeat split.
Qed.

Lemma endGame_justified (m : Mission.t) (victory : bool)
    (reason : Mission.Reason) (date : string) :
  Mission.state m <> Mission.gameover ->
  Mission.state m <> Mission.menu ->
  (forall d, Mission.lastGameData m = Some d -> justified d) ->
  (if victory
   then Mission.GAME_targetDestructionRate
          <= Colony.getDestructionPercentage (Game.colony (Mission.game m)) /\
        0 < Mission.missionTimer m
   else Colony.getDestructionPercentage (Game.colony (Mission.game m))
          < Mission.GAME_targetDestructionRate /\
        match reason with
        | Mission.collision => 0 < Mission.missionTimer m
        | Mission.timeout => Mission.missionTimer m <= 0
        end) ->
  live (Mission.endGame m victory reason date).
Proof.
  intros Hstate Hmenu Hold Hnow.
  destruct (endGame_record m victory reason date Hstate)
    as (Hs & Ht & _ & _ & d & Hd & Hscore & Hdestr & Htime & Hvict & Htitle).
  unfold live. rewrite Hs, Hd. split; [discriminate|].
  split; [intros H; contradiction H; reflexivity|].
  split; [intros _; discriminate|].
  intros d' [= <-]. unfold justified.
  rewrite Hscore, Hdestr, Htime, Hvict, Htitle.
  cbn [ScoreSystem.calculateFinalScore ScoreSystem.timeBonus
       ScoreSystem.destructionBonus].
  split; [reflexivity|]. split; [reflexivity|].
  destruct victory; [|destruct reason]; intuition.
Qed.

Lemma new_percentage :
  Colony.getDestructionPercentage Colony.new < Mission.GAME_targetDestructionRate.
Proof. vm_compute. reflexivity. Qed.

Lemma handle_live
    (intersectObjects : Ray -> list Object3D -> list Intersection)
    (m : Mission.t) (e : Mission.Event) :
  live m ->
  exists m', Mission.handle intersectObjects m e = Some m' /\ live m'.
Proof.
  intros (Hmenu & Hrun & Hover & Hold).
  destruct e as [f|d| |]; cbn [Mission.handle].
  - unfold Mission.gameLoop.
    set (m0 := Mission.with_game m _).
    assert (H0 : live m0) by exact (conj Hmenu (conj Hrun (conj Hover Hold))).
    destruct (Mission.state m0) eqn:Hstate;
      try (exists m0; split; [reflexivity|exact H0]).
    assert (Hplaying : Mission.state m <> Mission.gameover)
      by (change (Mission.state m) with (Mission.state m0);
          rewrite Hstate; discriminate).
    destruct (Hrun Hplaying) as [Htimer Hpct].
    pose proof (update_spec intersectObjects (fun _ _ => True)
                  (fun _ _ _ _ => I) (fun _ _ _ => I) (fun _ _ _ _ => I)
                  m0 f I) as H.
    cbv zeta in H.
    destruct (js_le _ 0) eqn:Hle.
    + eexists. split; [exact H|]. apply js_le_true in Hle.
      apply endGame_justified; cbn; try assumption.
      split; assumption.
    + destruct H as (g4 & _ & _ & ->). apply js_le_false in Hle.
      eexists. split; [reflexivity|].
      destruct (js_ge _ _) eqn:Hge.
      * apply js_ge_true in Hge.
        apply endGame_justified;
          destruct (Mission.collides f); cbn; try assumption.
        -- split; assumption.
        -- split; assumption.
      * apply js_ge_false in Hge.
        destruct (Mission.collides f); unfold live; cbn;
          (split; [assumption|]); (split; [intros _; split; assumption|]);
          (split; [intros Hs; contradiction|assumption]).
  - eexists. split; [reflexivity|]. unfold Mission.crashTimerFires.
    destruct (Mission.crashTimers m) as [|k];
      [exact (conj Hmenu (conj Hrun (conj Hover Hold)))|].
    set (m1 := Mission.Build_t _ _ _ _ _ _ _ k).
    destruct (Mission.state m) eqn:Hstate.
    + exfalso. apply Hmenu. reflexivity.
    + apply endGame_justified; cbn; try assumption; try discriminate.
      destruct Hrun as [? ?]; [discriminate|]. split; assumption.
    + apply endGame_justified; cbn; try assumption; try discriminate.
      destruct Hrun as [? ?]; [discriminate|]. split; assumption.
    + rewrite endGame_over by reflexivity.
      unfold live, m1. cbn.
      split; [discriminate|]. split; [intros H; contradiction H; reflexivity|].
      split; [intros _; apply Hover; reflexivity|assumption].
  - eexists. split; [reflexivity|]. unfold Mission.onBlur.
    pose proof (conj Hmenu (conj Hrun (conj Hover Hold)) : live m) as Hm.
    destruct (Mission.state m) eqn:Hstate; try exact Hm.
    unfold live, Mission.pauseGame. cbn.
    split; [discriminate|]. split; [intros _; apply Hrun; discriminate|].
    split; [discriminate|assumption].
  - eexists. split; [reflexivity|]. unfold live, Mission.restartGame. cbn.
    split; [discriminate|].
    split; [intros _; split; [reflexivity|exact new_percentage]|].
    split; [discriminate|assumption].
Qed.

Lemma new_live (ls : ScoreSystem.LocalStorage) : live (Mission.new ls).
Proof.
  unfold live, Mission.new. cbn.
  split; [discriminate|].
  split; [intros _; split; [reflexivity|exact new_percentage]|].
  split; [discriminate|]. intros d. discriminate.
Qed.

(** X13.  Every game-over record is justified: along every sequence of
    frames, crash timers, blur events and restarts of a mission started
    by [init()], a game that is not over has time left and has not reached
    the target of 70 percent, a game that is over has a record, and the
    record kept says MISSION COMPLETE only for a game that reached the
    target with time left, TIME UP only for a game without time left and
    DESTROYED only for a game with time left, both below the target; its
    time and destruction bonuses are those of the time and the destruction
    it shows. *)
Theorem game_over_records_are_justified
    (intersectObjects : Ray -> list Object3D -> list Intersection)
    (ls : ScoreSystem.LocalStorage) (events : list Mission.Event) :
  exists m',
    Mission.handleAll intersectObjects (Mission.new ls) events = Some m' /\
    live m'.
Proof.
  generalize (new_live ls). generalize (Mission.new ls).
  induction events as [|e events IH]; intros m Hm.
  - exists m. split; [reflexivity|exact Hm].
  - destruct (handle_live intersectObjects m e Hm) as (m1 & H1 & Hlive).
    cbn [Mission.handleAll]. rewrite H1. apply IH, Hlive.
Qed.

Lemma handle_stopped
    (intersectObjects : Ray -> list Object3D -> list Intersection)
    (m : Mission.t) (e : Mission.Event) :
  Mission.state m <> Mission.playing ->
  e <> Mission.Restart ->
  exists m',
    Mission.handle intersectObjects m e = Some m' /\
    Mission.state m' <> Mission.playing /\
    Mission.missionTimer m' = Mission.missionTimer m /\
    Game.colony (Mission.game m') = Game.colony (Mission.game m) /\
    Game.scoreSystem (Mission.game m') = Game.scoreSystem (Mission.game m) /\
    Game.zaku (Mission.game m') = Game.zaku (Mission.game m) /\
    (Mission.state m = Mission.gameover ->
     Mission.state m' = Mission.gameover /\
     Mission.lastGameData m' = Mission.lastGameData m /\
     Mission.highScore m' = Mission.highScore m /\
     Mission.localStorage m' = Mission.localStorage m).
Proof.
  intros Hstate He. destruct e as [f|d| |]; cbn [Mission.handle].
  - unfold Mission.gameLoop. cbn [Mission.state Mission.with_game].
    destruct (Mission.state m) eqn:E; try (contradiction Hstate; reflexivity);
      (eexists; split; [reflexivity|]); cbn;
      repeat split; rewrite ?E; discriminate || reflexivity.
  - eexists. split; [reflexivity|]. unfold Mission.crashTimerFires.
    destruct (Mission.crashTimers m) as [|k].
    { repeat split; try assumption; apply H. }
    set (m1 := Mission.Build_t _ _ _ _ _ _ _ k).
    destruct (Mission.state m) eqn:E.
    + destruct (endGame_record m1 false Mission.collision d)
        as (Hs & Ht & _); [cbn; discriminate|].
      rewrite endGame_game, Hs, Ht.
      repeat split; discriminate.
    + contradiction Hstate; reflexivity.
    + destruct (endGame_record m1 false Mission.collision d)
        as (Hs & Ht & _); [cbn; discriminate|].
      rewrite endGame_game, Hs, Ht.
      repeat split; discriminate.
    + rewrite endGame_over by reflexivity. cbn.
      repeat split; discriminate.
  - eexists. split; [reflexivity|]. unfold Mission.onBlur.
    destruct (Mission.state m) eqn:E; try (contradiction Hstate; reflexivity);
      rewrite E; repeat split; discriminate || assumption.
  - contradiction He; reflexivity.
Qed.

(** X14.  A game that is not playing is frozen: without a restart, no
    sequence of frames, crash timers and blur events brings it back to
    play or changes the mission timer, the colony, the score system or the
    Zaku; and once it is over it stays over with the record, the high
    score and the stored rankings it had, so one game is ranked once.
    (Nothing calls [resumeGame], so this holds for a game paused by a
    blur as well.) *)
Theorem stopped_game_is_frozen
    (intersectObjects : Ray -> list Object3D -> list Intersection)
    (m : Mission.t) (events : list Mission.Event) :
  Mission.state m <> Mission.playing ->
  Forall (fun e => e <> Mission.Restart) events ->
  exists m',
    Mission.handleAll intersectObjects m events = Some m' /\
    Mission.state m' <> Mission.playing /\
    Mission.missionTimer m' = Mission.missionTimer m /\
    Game.colony (Mission.game m') = Game.colony (Mission.game m) /\
    Game.scoreSystem (Mission.game m') = Game.scoreSystem (Mission.game m) /\
    Game.zaku (Mission.game m') = Game.zaku (Mission.game m) /\
    (Mission.state m = Mission.gameover ->
     Mission.state m' = Mission.gameover /\
     Mission.lastGameData m' = Mission.lastGameData m /\
     Mission.highScore m' = Mission.highScore m /\
     Mission.localStorage m' = Mission.localStorage m).
Proof.
  intros Hstate Hevents. revert m Hstate.
  induction Hevents as [|e events He _ IH]; intros m Hstate.
  - exists m. split; [reflexivity|]. repeat split; assumption.
  - destruct (handle_stopped intersectObjects m e Hstate He)
      as (m1 & H1 & Hs1 & Ht1 & Hc1 & Hsc1 & Hz1 & Hover1).
    destruct (IH m1 Hs1) as (m' & H' & Hs' & Ht' & Hc' & Hsc' & Hz' & Hover').
    exists m'. cbn [Mission.handleAll]. rewrite H1.
    split; [exact H'|]. split; [exact Hs'|].
    split; [congruence|]. split; [congruence|]. split; [congruence|].
    split; [congruence|].
    intros Hover. destruct (Hover1 Hover) as (Ha & Hb & Hc & Hd).
    destruct (Hover' Ha) as (Ha' & Hb' & Hc'' & Hd').
    repeat split; congruence.
Qed.

(** The theorem at work: a game that ended in a crash stays as it is
    through a frame with the trigger held, a crash timer and a blur. *)
Lemma stopped_game_is_frozen_witness :
  let events := [Mission.Loop (Mission.withFire Mission.idleFrame);
                 Mission.CrashTimer "2024-01-01T00:00:02.000Z";
                 Mission.Blur] in
  Mission.state crashedMission <> Mission.playing /\
  Forall (fun e => e <> Mission.Restart) events /\
  exists m',
    Mission.handleAll Game.hitFirstTarget crashedMission events = Some m' /\
    Mission.state m' <> Mission.playing /\
    Mission.missionTimer m' = Mission.missionTimer crashedMission /\
    Game.colony (Mission.game m') = Game.colony (Mission.game crashedMission) /\
    Game.scoreSystem (Mission.game m') =
      Game.scoreSystem (Mission.game crashedMission) /\
    Game.zaku (Mission.game m') = Game.zaku (Mission.game crashedMission) /\
    (Mission.state crashedMission = Mission.gameover ->
     Mission.state m' = Mission.gameover /\
     Mission.lastGameData m' = Mission.lastGameData crashedMission /\
     Mission.highScore m' = Mission.highScore crashedMission /\
     Mission.localStorage m' = Mission.localStorage crashedMission).
Proof.
  cbv zeta.
  assert (H1 : Mission.state crashedMission <> Mission.playing)
    by (vm_compute; discriminate).
  assert (H2 : Forall (fun e => e <> Mission.Restart)
                 [Mission.Loop (Mission.withFire Mission.idleFrame);
                  Mission.CrashTimer "2024-01-01T00:00:02.000Z";
                  Mission.Blur])
    by (repeat constructor; discriminate).
  split; [exact H1|]. split; [exact H2|].
  exact (stopped_game_is_frozen Game.hitFirstTarget crashedMission _ H1 H2).
Defined.

Lemma floor_nonpositive (q : Q) : q <= 0 -> (Math_floor q <= 0)%Z.
Proof.
  intros H. unfold Math_floor.
  change 0%Z with (Qfloor 0). apply Qfloor_resp_le, H.
Qed.

(** X15.  The frame in which the time runs out only ends the game: while
    playing, a frame at least as long as the time left handles no
    movement, shot or bullet (the core is as before, with the new frame
    time), and records TIME UP without victory, with the time left after
    the frame, which is zero or negative, and so with a time bonus of
    [floor (50 * timeRemaining)] that is zero or negative. *)
Theorem time_out_frame_only_ends_the_game
    (intersectObjects : Ray -> list Object3D -> list Intersection)
    (m : Mission.t) (f : Mission.Frame) :
  Mission.state m = Mission.playing ->
  Mission.missionTimer m <= Mission.frameTime f ->
  exists m' d,
    Mission.gameLoop intersectObjects m f = Some m' /\
    Mission.state m' = Mission.gameover /\
    Mission.game m' =
      Game.with_deltaTime (Mission.game m) (Mission.frameTime f) /\
    Mission.lastGameData m' = Some d /\
    Mission.title d = Mission.TIME_UP /\
    Mission.isVictory d = false /\
    Mission.timeRemaining d = Mission.missionTimer m - Mission.frameTime f /\
    ScoreSystem.timeBonus (Mission.scoreData d) =
      Math_floor ((Mission.missionTimer m - Mission.frameTime f) * 50) /\
    (ScoreSystem.timeBonus (Mission.scoreData d) <= 0)%Z.
Proof.
  intros Hstate Htime. unfold Mission.gameLoop.
  cbn [Mission.state Mission.with_game]. rewrite Hstate.
  unfold Mission.update.
  cbn [Mission.missionTimer Mission.with_missionTimer Mission.with_game].
  assert (Hle : js_le (Mission.missionTimer m - Mission.frameTime f) 0 = true)
    by (apply js_le_true; lra).
  rewrite Hle.
  set (m1 := Mission.with_missionTimer _ _).
  destruct (endGame_record m1 false Mission.timeout (Mission.date f))
    as (Hs & _ & _ & _ & d & Hd & Hscore & _ & Hrem & Hvict & Htitle).
  { cbn. rewrite Hstate. discriminate. }
  exists (Mission.endGame m1 false Mission.timeout (Mission.date f)), d.
  split; [reflexivity|]. split; [exact Hs|].
  split; [apply endGame_game|]. split; [exact Hd|].
  split; [exact Htitle|]. split; [exact Hvict|]. split; [exact Hrem|].
  rewrite Hscore. cbn [ScoreSystem.calculateFinalScore ScoreSystem.timeBonus
                       Mission.missionTimer m1 Mission.with_missionTimer].
  split; [reflexivity|]. apply floor_nonpositive.
  unfold m1. cbn [Mission.missionTimer Mission.with_missionTimer Mission.with_game].
  lra.
Qed.

(** The theorem at work: with a hundredth of a second left, a frame of a
    sixtieth of a second ends the game. *)
Lemma time_out_frame_only_ends_the_game_witness :
  Mission.state lateMission = Mission.playing /\
  Mission.missionTimer lateMission <= Mission.frameTime Mission.idleFrame /\
  exists m' d,
    Mission.gameLoop Game.hitFirstTarget lateMission Mission.idleFrame
      = Some m' /\
    Mission.state m' = Mission.gameover /\
    Mission.game m' =
      Game.with_deltaTime (Mission.game lateMission)
                          (Mission.frameTime Mission.idleFrame) /\
    Mission.lastGameData m' = Some d /\
    Mission.title d = Mission.TIME_UP /\
    Mission.isVictory d = false /\
    Mission.timeRemaining d =
      Mission.missionTimer lateMission - Mission.frameTime Mission.idleFrame /\
    ScoreSystem.timeBonus (Mission.scoreData d) =
      Math_floor ((Mission.missionTimer lateMission
                   - Mission.frameTime Mission.idleFrame) * 50) /\
    (ScoreSystem.timeBonus (Mission.scoreData d) <= 0)%Z.
Proof.
  assert (H1 : Mission.state lateMission = Mission.playing) by reflexivity.
  assert (H2 : Mission.missionTimer lateMission
               <= Mission.frameTime Mission.idleFrame)
    by (vm_compute; discriminate).
  split; [exact H1|]. split; [exact H2|].
  exact (time_out_frame_only_ends_the_game Game.hitFirstTarget lateMission
           Mission.idleFrame H1 H2).
Defined.

(** A late frame costs points: with a hundredth of a second left, a frame
    of a twentieth of a second gives a time bonus of -2. *)
Example late_frame_gives_negative_time_bonus :
  match Mission.gameLoop Game.noIntersection lateMission
          (Mission.withFrameTime Mission.idleFrame (1 # 20)) with
  | Some m' =>
      match Mission.lastGameData m' with
      | Some d =>
          ScoreSystem.timeBonus (Mission.scoreData d) = (-2)%Z /\
          ScoreSystem.finalScore (Mission.scoreData d) = (-2)%Z
      | None => False
      end
  | None => False
  end.
Proof. vm_compute. split; reflexivity. Qed.

(** X16.  [restartGame] does not cancel a pending crash timer: when the
    timer fires after the restart, the new game ends at once as DESTROYED,
    without victory, with the full mission time left and nothing
    destroyed, so with a base score of 0, a time bonus of 15000 and a
    final score of 15000, and this score is entered into the rankings
    and gives the rank shown. *)
Theorem crash_timer_survives_restart (m : Mission.t) (date : string) :
  (0 < Mission.crashTimers m)%nat ->
  let restarted := Mission.restartGame m in
  let m' := Mission.crashTimerFires restarted date in
  let ranked :=
    ScoreSystem.saveToRankings (Mission.localStorage m) 15000 0
      Mission.GAME_missionTime date in
  Mission.state restarted = Mission.playing /\
  Mission.state m' = Mission.gameover /\
  ScoreSystem.rankingsItem (Mission.localStorage m') =
    ScoreSystem.rankingsItem (snd ranked) /\
  exists d,
    Mission.lastGameData m' = Some d /\
    Mission.title d = Mission.DESTROYED /\
    Mission.isVictory d = false /\
    Mission.timeRemaining d = Mission.GAME_missionTime /\
    Mission.destruction d = 0 /\
    ScoreSystem.baseScore (Mission.scoreData d) = 0%Z /\
    ScoreSystem.timeBonus (Mission.scoreData d) = 15000%Z /\
    ScoreSystem.finalScore (Mission.scoreData d) = 15000%Z /\
    Mission.rank d = fst ranked.
Proof.
  intros Htimers. cbv zeta. split; [reflexivity|].
  unfold Mission.crashTimerFires.
  cbn [Mission.crashTimers Mission.restartGame].
  destruct (Mission.crashTimers m) as [|k]; [lia|].
  unfold Mission.endGame.
  cbn [Mission.state Mission.game Mission.missionTimer Mission.highScore
       Mission.localStorage Mission.restartGame Mission.lastGameData
       Mission.zakuVisible Game.colony Game.scoreSystem].
  unfold ScoreSystem.checkHighScore, ScoreSystem.saveHighScore,
    ScoreSystem.saveToRankings, ScoreSystem.loadRankings.
  cbn [ScoreSystem.reset ScoreSystem.score].
  destruct (Mission.localStorage m) as [getThrows setThrows high rankings].
  cbn [ScoreSystem.setItemThrows ScoreSystem.getItemThrows
       ScoreSystem.rankingsItem ScoreSystem.highScoreItem].
  destruct (Mission.highScore m <? 0)%Z, setThrows, getThrows;
    cbn [ScoreSystem.setItemThrows ScoreSystem.getItemThrows
         ScoreSystem.rankingsItem ScoreSystem.highScoreItem
         Mission.state Mission.lastGameData Mission.localStorage fst snd];
    (split; [reflexivity|]); (split; [reflexivity|]);
    eexists; (split; [reflexivity|]); repeat split.
Qed.

(** The theorem at work: a crash, a restart, and the timer of the crash. *)
Lemma crash_timer_survives_restart_witness :
  let date := "2024-01-05T10:00:00.000Z" in
  let restarted := Mission.restartGame crashingMission in
  let m' := Mission.crashTimerFires restarted date in
  let ranked :=
    ScoreSystem.saveToRankings (Mission.localStorage crashingMission) 15000 0
      Mission.GAME_missionTime date in
  (0 < Mission.crashTimers crashingMission)%nat /\
  Mission.state restarted = Mission.playing /\
  Mission.state m' = Mission.gameover /\
  ScoreSystem.rankingsItem (Mission.localStorage m') =
    ScoreSystem.rankingsItem (snd ranked) /\
  exists d,
    Mission.lastGameData m' = Some d /\
    Mission.title d = Mission.DESTROYED /\
    Mission.isVictory d = false /\
    Mission.timeRemaining d = Mission.GAME_missionTime /\
    Mission.destruction d = 0 /\
    ScoreSystem.baseScore (Mission.scoreData d) = 0%Z /\
    ScoreSystem.timeBonus (Mission.scoreData d) = 15000%Z /\
    ScoreSystem.finalScore (Mission.scoreData d) = 15000%Z /\
    Mission.rank d = fst ranked.
Proof.
  cbv zeta.
  assert (H : (0 < Mission.crashTimers crashingMission)%nat)
    by (vm_compute; lia).
  split; [exact H|].
  exact (crash_timer_survives_restart crashingMission
           "2024-01-05T10:00:00.000Z" H).
Defined.

(** With the sample rankings, the game ended by the stale timer takes the
    first place. *)
Example stale_crash_timer_takes_first_place :
  match Mission.lastGameData
          (Mission.crashTimerFires (Mission.restartGame crashingMission)
             "2024-01-05T10:00:00.000Z") with
  | Some d => Mission.rank d = 1%Z
  | None => False
  end.
Proof. vm_compute. reflexivity. Qed.

(** ** Boost and tilt *)

(** X17.  Holding the boost key on an empty tank makes the boost stutter:
    the first frame does not boost and refills the tank by the regeneration
    of that frame, the second frame boosts and, as long as it drains at
    least what the first one refilled, empties the tank again, so that the
    two frames repeat for as long as the key is held. *)
Theorem held_boost_on_empty_tank_stutters
    (zk : Zaku.t) (input1 input2 : Zaku.Input) (dt1 dt2 : Q) :
  Zaku.boost input1 = true ->
  Zaku.boost input2 = true ->
  Zaku.boostEnergy zk == 0 ->
  0 < Zaku.maxBoostEnergy zk ->
  0 < Zaku.boostRegenRate zk ->
  0 < dt1 ->
  Zaku.boostRegenRate zk * dt1 <= Zaku.boostDrainRate zk * dt2 ->
  let zk1 := Zaku.processMovement zk input1 dt1 in
  let zk2 := Zaku.processMovement zk1 input2 dt2 in
  Zaku.isBoosting zk1 = false /\
  0 < Zaku.boostEnergy zk1 /\
  Zaku.boostEnergy zk1
    == Math_min (Zaku.maxBoostEnergy zk) (Zaku.boostRegenRate zk * dt1) /\
  Zaku.isBoosting zk2 = true /\
  Zaku.boostEnergy zk2 == 0.
Proof.
  intros Hb1 Hb2 Hempty Hmax Hregen Hdt1 Hdrain. cbv zeta.
  assert (Hr : 0 < Zaku.boostRegenRate zk * dt1)
    by (apply Qmult_lt_0_compat; assumption).
  assert (Hgt : js_gt (Zaku.boostEnergy zk) 0 = false)
    by (apply js_gt_false; lra).
  unfold Zaku.processMovement.
  cbn [Zaku.isBoosting Zaku.boostEnergy Zaku.boostDrainRate
       Zaku.maxBoostEnergy Zaku.boostRegenRate].
  rewrite Hb1, Hb2, Hgt. cbn [andb].
  set (e1 := Math_min (Zaku.maxBoostEnergy zk)
                      (Zaku.boostEnergy zk + Zaku.boostRegenRate zk * dt1)).
  assert (He1 : e1 == Math_min (Zaku.maxBoostEnergy zk)
                               (Zaku.boostRegenRate zk * dt1)).
  { unfold e1, Math_min. apply Q.min_compat; [reflexivity|]. lra. }
  assert (Hpos : 0 < e1).
  { rewrite He1. unfold Math_min. apply Q.min_glb_lt; assumption. }
  assert (Hsmall : e1 <= Zaku.boostRegenRate zk * dt1).
  { rewrite He1. apply Q.le_min_r. }
  assert (Hgt1 : js_gt e1 0 = true) by (apply js_gt_true; exact Hpos).
  rewrite Hgt1.
  split; [reflexivity|]. split; [exact Hpos|]. split; [exact He1|].
  split; [reflexivity|].
  unfold Math_max. apply Q.max_l. lra.
Qed.

(** The theorem at work: the Zaku as built, with an empty tank, in two
    frames of a sixtieth of a second. *)
Lemma held_boost_on_empty_tank_stutters_witness :
  let zk1 := Zaku.processMovement emptyTank boostHeld (1 # 60) in
  let zk2 := Zaku.processMovement zk1 boostHeld (1 # 60) in
  Zaku.isBoosting zk1 = false /\
  0 < Zaku.boostEnergy zk1 /\
  Zaku.boostEnergy zk1
    == Math_min (Zaku.maxBoostEnergy emptyTank)
                (Zaku.boostRegenRate emptyTank * (1 # 60)) /\
  Zaku.isBoosting zk2 = true /\
  Zaku.boostEnergy zk2 == 0.
Proof.
  apply (held_boost_on_empty_tank_stutters emptyTank boostHeld boostHeld
           (1 # 60) (1 # 60)).
  - reflexivity.
  - reflexivity.
  - reflexivity.
  - reflexivity.
  - reflexivity.
  - reflexivity.
  - vm_compute. discriminate.
Defined.

(** X18.  The tilt targets never exceed the boost tilt angle: with the
    input sampled from the input manager, [processMovement] stores as
    target pitch the tilt angle of the frame (0.9 when the frame boosts,
    0.6 otherwise) when only the backward key is down, its opposite when
    only the forward key is down, and 0 otherwise; as target roll the tilt
    angle when only the left key is down, its opposite when only the right
    key is down, and 0 otherwise; both targets lie within plus or minus
    0.9; and pitch and roll are moved towards their targets by [lerp] with
    the factor [tiltSpeed * deltaTime]. *)
Theorem tilt_targets_within_boost_angle
    (zk : Zaku.t) (pose : ZakuPose.t) (im : InputManager.t) (dt : Q) :
  let step :=
    ZakuPose.processMovement zk pose (InputManager.getMovementInput im) dt in
  let pose' := snd step in
  let angle :=
    if Zaku.isBoosting (fst step) then ZakuPose.boostTiltAngle
    else ZakuPose.maxTiltAngle in
  fst step = Zaku.processMovement zk (InputManager.getMovementInput im) dt /\
  ZakuPose.targetPitch pose' ==
    match InputManager.isKeyDown im InputManager.KEYS_backward,
          InputManager.isKeyDown im InputManager.KEYS_forward with
    | true, false => angle
    | false, true => - angle
    | _, _ => 0
    end /\
  ZakuPose.targetRoll pose' ==
    match InputManager.isKeyDown im InputManager.KEYS_left,
          InputManager.isKeyDown im InputManager.KEYS_right with
    | true, false => angle
    | false, true => - angle
    | _, _ => 0
    end /\
  - ZakuPose.boostTiltAngle <= ZakuPose.targetPitch pose'
    <= ZakuPose.boostTiltAngle /\
  - ZakuPose.boostTiltAngle <= ZakuPose.targetRoll pose'
    <= ZakuPose.boostTiltAngle /\
  ZakuPose.pitch pose' =
    MathUtils.lerp (ZakuPose.pitch pose) (ZakuPose.targetPitch pose')
                   (ZakuPose.tiltSpeed * dt) /\
  ZakuPose.roll pose' =
    MathUtils.lerp (ZakuPose.roll pose) (ZakuPose.targetRoll pose')
                   (ZakuPose.tiltSpeed * dt).
Proof.
  cbv zeta. unfold ZakuPose.processMovement.
  cbn [fst snd ZakuPose.pitch ZakuPose.roll ZakuPose.targetPitch
       ZakuPose.targetRoll].
  split; [reflexivity|].
  generalize (Zaku.isBoosting
                (Zaku.processMovement zk (InputManager.getMovementInput im) dt)).
  intros boosting. unfold InputManager.getMovementInput.
  cbn [Zaku.right Zaku.left Zaku.backward Zaku.forward].
  generalize (InputManager.isKeyDown im InputManager.KEYS_backward),
             (InputManager.isKeyDown im InputManager.KEYS_forward),
             (InputManager.isKeyDown im InputManager.KEYS_left),
             (InputManager.isKeyDown im InputManager.KEYS_right).
  intros back fwd left right. clear.
  destruct boosting, back, fwd, left, right;
    (split; [vm_compute; reflexivity|]);
    (split; [vm_compute; reflexivity|]);
    (split; [split; vm_compute; discriminate|]);
    (split; [split; vm_compute; discriminate|]);
    split; reflexivity.
Qed.

(** [lerp] is not clamped: half a second of boosted forward flight from
    level gives a pitch of -1.8, twice the target of -0.9. *)
Example long_frame_overshoots_tilt :
  let pose' :=
    snd (ZakuPose.processMovement Zaku.new ZakuPose.new
           (InputManager.getMovementInput forwardRightBoost) (1 # 2)) in
  ZakuPose.targetPitch pose' == - (9 # 10) /\
  ZakuPose.pitch pose' == - (18 # 10).
Proof. cbv zeta. split; vm_compute; reflexivity. Qed.

(** ** Input *)

Lemma isKeyDown_handle (im : InputManager.t) (e : InputManager.Event)
    (code : string) :
  InputManager.isKeyDown (InputManager.handle im e) code =
  match e with
  | InputManager.KeyDown c =>
      if String.eqb c code then true else InputManager.isKeyDown im code
  | InputManager.KeyUp c =>
      if String.eqb c code then false else InputManager.isKeyDown im code
  | _ => InputManager.isKeyDown im code
  end.
Proof.
  unfold InputManager.isKeyDown.
  destruct e as [c|c| | | | |]; cbn [InputManager.handle]; try reflexivity.
  - cbn [InputManager.onKeyDown InputManager.keys].
    destruct (String.eqb_spec c code) as [->|Hne].
    + apply bool_decide_eq_true, elem_of_union. left.
      apply elem_of_singleton. reflexivity.
    + apply bool_decide_ext. rewrite elem_of_union, elem_of_singleton.
      split; [intros [Heq|Hin]; [congruence|exact Hin]|intros Hin; right; exact Hin].
  - cbn [InputManager.onKeyUp InputManager.keys].
    destruct (String.eqb_spec c code) as [->|Hne].
    + apply bool_decide_eq_false. rewrite elem_of_difference, elem_of_singleton.
      intros [_ Hne]. apply Hne. reflexivity.
    + apply bool_decide_ext. rewrite elem_of_difference, elem_of_singleton.
      split; [intros [Hin _]; exact Hin|intros Hin; split; [exact Hin|congruence]].
Qed.

(** X19.  A key is down exactly when the last event about it was a
    [keydown]: after any sequence of key, mouse, wheel and end-of-frame
    events, [isKeyDown] answers by the last [keydown] or [keyup] of that
    key in the sequence, and as before the sequence when there is none. *)
Theorem isKeyDown_follows_last_key_event
    (im : InputManager.t) (events : list InputManager.Event) (code : string) :
  InputManager.isKeyDown (InputManager.handleAll im events) code =
  match InputManager.lastKeyEvent code events with
  | Some down => down
  | None => InputManager.isKeyDown im code
  end.
Proof.
  revert im. induction events as [|e events IH]; intros im; [reflexivity|].
  unfold InputManager.handleAll in *. cbn [fold_left InputManager.lastKeyEvent].
  rewrite IH.
  destruct (InputManager.lastKeyEvent code events) as [down|]; [reflexivity|].
  rewrite isKeyDown_handle.
  destruct e as [c|c| | | | |]; try reflexivity;
    destruct (String.eqb c code); reflexivity.
Qed.

Lemma mouse_delta_handleAll (im : InputManager.t)
    (events : list InputManager.Event) :
  let ms := InputManager.mouse (InputManager.handleAll im events) in
  InputManager.deltaX ms
    == InputManager.deltaX (InputManager.mouse im)
       + InputManager.totalMovementX events /\
  InputManager.deltaY ms
    == InputManager.deltaY (InputManager.mouse im)
       + InputManager.totalMovementY events.
Proof.
  cbv zeta. revert im. unfold InputManager.handleAll.
  induction events as [|e events IH]; intros im.
  - cbn. split; ring.
  - cbn [fold_left]. destruct (IH (InputManager.handle im e)) as [Hx Hy].
    rewrite Hx, Hy.
    destruct e; cbn [InputManager.handle InputManager.totalMovementX
                     InputManager.totalMovementY];
      cbn; split; ring.
Qed.

(** X20.  Mouse movement is reported in full and once: what
    [getMouseDelta] returns is the sum of the movements of the [mousemove]
    events since the previous call (a missing [movementX] or [movementY]
    counting as 0), whatever other events came in between, the ends of
    frames included; and a call right after it returns 0 and 0. *)
Theorem mouse_movement_is_reported_once
    (im : InputManager.t) (events : list InputManager.Event) :
  let im0 := snd (InputManager.getMouseDelta im) in
  let read := InputManager.getMouseDelta (InputManager.handleAll im0 events) in
  fst (fst read) == InputManager.totalMovementX events /\
  snd (fst read) == InputManager.totalMovementY events /\
  fst (InputManager.getMouseDelta (snd read)) = (0, 0).
Proof.
  cbv zeta.
  destruct (mouse_delta_handleAll (snd (InputManager.getMouseDelta im)) events)
    as [Hx Hy].
  cbn [InputManager.getMouseDelta fst snd] in *.
  rewrite Hx, Hy. cbn.
  split; [ring|]. split; [ring|reflexivity].
Qed.

Lemma handle_held_key (im : InputManager.t) (e : InputManager.Event)
    (code : string) :
  e <> InputManager.KeyUp code ->
  code ∈ InputManager.keys im ->
  code ∉ InputManager.keysJustPressed im ->
  code ∈ InputManager.keys (InputManager.handle im e) /\
  code ∉ InputManager.keysJustPressed (InputManager.handle im e).
Proof.
  intros He Hdown Hnot.
  destruct e as [c|c| | | | |]; cbn [InputManager.handle];
    try (split; assumption).
  - cbn [InputManager.onKeyDown InputManager.keys InputManager.keysJustPressed].
    split; [apply elem_of_union; right; exact Hdown|].
    destruct (bool_decide (c ∈ InputManager.keys im)) eqn:Hc; [exact Hnot|].
    apply bool_decide_eq_false in Hc.
    rewrite elem_of_union, elem_of_singleton.
    intros [->|Hin]; [apply Hc, Hdown|apply Hnot, Hin].
  - cbn [InputManager.onKeyUp InputManager.keys InputManager.keysJustPressed].
    split; [|exact Hnot].
    apply elem_of_difference. split; [exact Hdown|].
    rewrite elem_of_singleton. intros ->. apply He. reflexivity.
  - cbn. split; [exact Hdown|]. apply not_elem_of_empty.
Qed.

(** X21.  A held key is pressed once: from the end of a frame in which a
    key is down until the key is released, no event reports it as just
    pressed again, repeated [keydown] events of the held key included,
    and the key stays down. *)
Theorem held_key_is_pressed_once
    (im : InputManager.t) (events : list InputManager.Event) (code : string) :
  InputManager.isKeyDown im code = true ->
  Forall (fun e => e <> InputManager.KeyUp code) events ->
  let im' := InputManager.handleAll (InputManager.update im) events in
  InputManager.isKeyJustPressed im' code = false /\
  InputManager.isKeyDown im' code = true.
Proof.
  intros Hdown Hevents. cbv zeta.
  unfold InputManager.isKeyJustPressed, InputManager.isKeyDown in *.
  apply bool_decide_eq_true in Hdown.
  rewrite bool_decide_eq_false, bool_decide_eq_true.
  assert (H0 : code ∈ InputManager.keys (InputManager.update im) /\
               code ∉ InputManager.keysJustPressed (InputManager.update im))
    by (split; [exact Hdown|apply not_elem_of_empty]).
  revert H0. generalize (InputManager.update im).
  unfold InputManager.handleAll.
  induction Hevents as [|e events He _ IH]; intros im0 [Hk Hj].
  - split; assumption.
  - cbn [fold_left]. apply IH. apply handle_held_key; assumption.
Qed.

(** The theorem at work: W is held through an auto-repeated [keydown], a
    mouse click and the end of a frame. *)
Lemma held_key_is_pressed_once_witness :
  let events := [InputManager.KeyDown InputManager.KEYS_forward;
                 InputManager.MouseDown 0; InputManager.FrameEnd;
                 InputManager.KeyDown InputManager.KEYS_forward] in
  let im' :=
    InputManager.handleAll (InputManager.update forwardRightBoost) events in
  InputManager.isKeyJustPressed im' InputManager.KEYS_forward = false /\
  InputManager.isKeyDown im' InputManager.KEYS_forward = true.
Proof.
  apply (held_key_is_pressed_once forwardRightBoost
           [InputManager.KeyDown InputManager.KEYS_forward;
            InputManager.MouseDown 0; InputManager.FrameEnd;
            InputManager.KeyDown InputManager.KEYS_forward]
           InputManager.KEYS_forward).
  - vm_compute. reflexivity.
  - repeat constructor; discriminate.
Defined.

(** ** Camera *)

Lemma clamp_bounds (value min max : Q) :
  min <= max -> min <= MathUtils.clamp value min max <= max.
Proof.
  intros Hle. unfold MathUtils.clamp, Math_max, Math_min.
  split; [apply Q.le_max_l|].
  apply Q.max_lub; [exact Hle|apply Q.le_min_l].
Qed.

Lemma clamp_in_range (value min max : Q) :
  min <= value <= max -> MathUtils.clamp value min max == value.
Proof.
  intros [Hlo Hhi]. unfold MathUtils.clamp, Math_max, Math_min.
  assert (E : Qmin max value == value) by (apply Q.min_r; exact Hhi).
  transitivity (Qmin max value); [|exact E].
  apply Q.max_r. rewrite E. exact Hlo.
Qed.

(** X22.  [clamp(value, min, max)] is never below [min]; with
    [min <= max] it is not above [max] either, it is [value] itself
    exactly when [value] lies between the two, and clamping twice is
    clamping once; with [max < min] it is [min] for every value. *)
Theorem clamp_spec (value min max : Q) :
  min <= MathUtils.clamp value min max /\
  (min <= max ->
   MathUtils.clamp value min max <= max /\
   (MathUtils.clamp value min max == value <-> min <= value <= max) /\
   MathUtils.clamp (MathUtils.clamp value min max) min max
     == MathUtils.clamp value min max) /\
  (max < min -> MathUtils.clamp value min max == min).
Proof.
  split; [apply Q.le_max_l|]. split.
  - intros Hle. pose proof (clamp_bounds value min max Hle) as Hb.
    split; [apply Hb|]. split.
    + split; [intros E; rewrite <- E; exact Hb|apply clamp_in_range].
    + apply clamp_in_range, Hb.
  - intros Hlt. unfold MathUtils.clamp, Math_max, Math_min.
    apply Q.max_l. pose proof (Q.le_min_l max value). lra.
Qed.

Lemma toggles_app (ops : list CameraController.Op) (op : CameraController.Op) :
  toggles (ops ++ [op]) =
  match op with
  | CameraController.OpToggleViewMode => S (toggles ops)
  | _ => toggles ops
  end.
Proof.
  induction ops as [|a ops IH].
  - destruct op; reflexivity.
  - cbn [app toggles]. destruct a; rewrite IH; destruct op; reflexivity.
Qed.

(** X23.  The camera stays within its limits and always has a view mode:
    after any sequence of [toggleViewMode], [rotate], [zoom], [shake] and
    [reset] calls on a new controller the vertical angle is between -0.5
    and 0.8, the zoom level between 0.5 and 2, the limits are those of the
    constructor, and the view mode is the entry of [viewModes] at the
    number of toggles modulo 3, so it is never [undefined] and every third
    toggle returns to the third-person view. *)
Theorem camera_stays_within_limits (ops : list CameraController.Op) :
  let c := CameraController.run CameraController.new ops in
  - (1 # 2) <= CameraController.verticalAngle c <= 4 # 5 /\
  1 # 2 <= CameraController.zoomLevel c <= 2 /\
  CameraController.minVerticalAngle c = - (1 # 2) /\
  CameraController.maxVerticalAngle c = 4 # 5 /\
  CameraController.minZoom c = 1 # 2 /\
  CameraController.maxZoom c = 2 /\
  CameraController.viewModes c =
    [CameraController.third_person; CameraController.first_person;
     CameraController.cockpit] /\
  CameraController.currentViewIndex c = (toggles ops mod 3)%nat /\
  CameraController.viewMode c =
    CameraController.viewModes c !! (toggles ops mod 3)%nat /\
  is_Some (CameraController.viewMode c).
Proof.
  cbv zeta. induction ops as [|op ops IH] using rev_ind.
  - cbn. repeat split; try discriminate. eexists; reflexivity.
  - unfold CameraController.run in *. rewrite fold_left_app, toggles_app.
    cbn [fold_left].
    set (c := fold_left CameraController.step ops CameraController.new) in *.
    destruct IH as (Hv & Hz & Hminv & Hmaxv & Hminz & Hmaxz & Hmodes & Hidx
                    & Hmode & Hsome).
    destruct op as [|dx dy|delta|intensity duration|];
      cbn [CameraController.step].
    + unfold CameraController.toggleViewMode.
      cbn [CameraController.verticalAngle CameraController.zoomLevel
           CameraController.minVerticalAngle CameraController.maxVerticalAngle
           CameraController.minZoom CameraController.maxZoom
           CameraController.viewModes CameraController.currentViewIndex
           CameraController.viewMode].
      rewrite Hmodes, Hidx. cbn [length].
      assert (E : ((toggles ops mod 3 + 1) mod 3 = S (toggles ops) mod 3)%nat).
      { replace (S (toggles ops)) with (toggles ops + 1)%nat by lia.
        apply Nat.Div0.add_mod_idemp_l. }
      rewrite E.
      repeat split; try assumption; try apply Hv; try apply Hz.
      pose proof (Nat.mod_upper_bound (S (toggles ops)) 3 ltac:(lia)) as Hlt.
      destruct (S (toggles ops) mod 3)%nat as [|[|[|n]]];
        try (eexists; reflexivity). lia.
    + unfold CameraController.rotate.
      cbn [CameraController.verticalAngle CameraController.zoomLevel
           CameraController.minVerticalAngle CameraController.maxVerticalAngle
           CameraController.minZoom CameraController.maxZoom
           CameraController.viewModes CameraController.currentViewIndex
           CameraController.viewMode].
      split; [|repeat split; try assumption; apply Hz].
      rewrite Hminv, Hmaxv. apply clamp_bounds. lra.
    + unfold CameraController.zoom.
      cbn [CameraController.verticalAngle CameraController.zoomLevel
           CameraController.minVerticalAngle CameraController.maxVerticalAngle
           CameraController.minZoom CameraController.maxZoom
           CameraController.viewModes CameraController.currentViewIndex
           CameraController.viewMode].
      split; [exact Hv|]. split; [|repeat split; assumption].
      rewrite Hminz, Hmaxz. apply clamp_bounds. lra.
    + cbn. repeat split; try assumption; try apply Hv; try apply Hz.
    + cbn. repeat split; try assumption; try discriminate.
Qed.

(** ** Formatting *)

Lemma floor_unique (x : Q) (k : Z) :
  inject_Z k <= x -> x < inject_Z (k + 1) -> Math_floor x = k.
Proof.
  intros Hlo Hhi. unfold Math_floor.
  pose proof (Qfloor_le x) as H1. pose proof (Qlt_floor x) as H2.
  assert (Ha : (k < Qfloor x + 1)%Z).
  { rewrite Zlt_Qlt. eapply Qle_lt_trans; [exact Hlo|exact H2]. }
  assert (Hb : (Qfloor x < k + 1)%Z).
  { rewrite Zlt_Qlt. eapply Qle_lt_trans; [exact H1|exact Hhi]. }
  lia.
Qed.

Lemma floor_bounds (x : Q) :
  inject_Z (Math_floor x) <= x /\ x < inject_Z (Math_floor x) + 1.
Proof.
  unfold Math_floor. split; [apply Qfloor_le|].
  pose proof (Qlt_floor x) as H. rewrite inject_Z_plus in H. exact H.
Qed.

(** The two numbers [formatTime] prints, for a time that is not negative:
    the whole seconds divided by 60, and their remainder. *)
Lemma formatTime_parts (seconds : Q) :
  0 <= seconds ->
  Math_floor (seconds / 60) = (Math_floor seconds / 60)%Z /\
  Math_floor (MathUtils.js_rem seconds 60) = (Math_floor seconds mod 60)%Z.
Proof.
  intros Hpos.
  destruct (floor_bounds seconds) as [Hlo Hhi].
  set (n := Math_floor seconds) in *.
  pose proof (Z.div_mod n 60 ltac:(lia)) as Hdm.
  pose proof (Z.mod_pos_bound n 60 ltac:(lia)) as Hr.
  set (k := (n / 60)%Z) in *. set (r := (n mod 60)%Z) in *.
  assert (Hn : inject_Z n == 60 * inject_Z k + inject_Z r).
  { rewrite Hdm, inject_Z_plus, inject_Z_mult. reflexivity. }
  assert (Hr0 : 0 <= inject_Z r) by (rewrite <- (Zle_Qle 0); lia).
  assert (Hr1 : inject_Z r + 1 <= 60).
  { change 60 with (inject_Z 60). change 1 with (inject_Z 1).
    rewrite <- inject_Z_plus, <- Zle_Qle. lia. }
  assert (Hdiv : seconds / 60 == seconds * (1 # 60)) by reflexivity.
  assert (Hmins : Math_floor (seconds / 60) = k).
  { apply floor_unique; rewrite Hdiv; [lra|].
    rewrite inject_Z_plus. change (inject_Z 1) with 1. lra. }
  split; [exact Hmins|].
  unfold MathUtils.js_rem, MathUtils.truncate.
  assert (Hle : js_le 0 (seconds / 60) = true)
    by (apply js_le_true; rewrite Hdiv; lra).
  rewrite Hle. fold (Math_floor (seconds / 60)). rewrite Hmins.
  apply floor_unique; [lra|].
  rewrite inject_Z_plus. change (inject_Z 1) with 1. lra.
Qed.

Lemma length_append (a b : string) :
  String.length (String.append a b) = (String.length a + String.length b)%nat.
Proof.
  induction a as [|c a IH]; [reflexivity|].
  change (String.append (String c a) b) with (String c (String.append a b)).
  cbn [String.length Nat.add]. f_equal. exact IH.
Qed.

(** Numbers from 0 to 99 are printed with two characters. *)
Lemma two_digits (k : Z) :
  (0 <= k < 100)%Z ->
  String.length (MathUtils.padStart0 2 (MathUtils.toString k)) = 2%nat.
Proof.
  intros Hk.
  assert (Hall : forallb
            (fun i => Nat.eqb (String.length
                                 (MathUtils.padStart0 2
                                    (MathUtils.toString (Z.of_nat i)))) 2)
            (seq 0 100) = true) by (vm_compute; reflexivity).
  rewrite forallb_forall in Hall.
  specialize (Hall (Z.to_nat k)).
  rewrite Z2Nat.id in Hall by lia.
  apply Nat.eqb_eq, Hall, in_seq. lia.
Qed.

(** X24.  [formatTime] shows whole seconds as minutes and seconds: for a
    time from 0 to below 100 minutes it prints the whole seconds divided
    by 60, a colon, and the remainder, which is between 0 and 59, each
    padded with a zero to two characters; the fraction of a second does
    not show, and the text has exactly the five characters of MM:SS. *)
Theorem formatTime_minutes_and_seconds (seconds : Q) :
  0 <= seconds -> seconds < 6000 ->
  let whole := Math_floor seconds in
  MathUtils.formatTime seconds =
    String.append (MathUtils.padStart0 2 (MathUtils.toString (whole / 60)))
      (String.append ":"
         (MathUtils.padStart0 2 (MathUtils.toString (whole mod 60)))) /\
  (0 <= whole mod 60 < 60)%Z /\
  (0 <= whole / 60 < 100)%Z /\
  MathUtils.formatTime seconds = MathUtils.formatTime (inject_Z whole) /\
  String.length (MathUtils.formatTime seconds) = 5%nat.
Proof.
  intros Hpos Hlt. cbv zeta.
  destruct (formatTime_parts seconds Hpos) as [Hm Hs].
  assert (Hwhole : (0 <= Math_floor seconds)%Z).
  { unfold Math_floor. change 0%Z with (Qfloor 0). apply Qfloor_resp_le, Hpos. }
  assert (Hpos' : 0 <= inject_Z (Math_floor seconds))
    by (rewrite <- (Zle_Qle 0); exact Hwhole).
  destruct (formatTime_parts (inject_Z (Math_floor seconds)) Hpos') as [Hm' Hs'].
  assert (Hfl : Math_floor (inject_Z (Math_floor seconds)) = Math_floor seconds)
    by apply Qfloor_Z.
  rewrite Hfl in Hm', Hs'.
  assert (Hfmt : MathUtils.formatTime seconds =
                 String.append
                   (MathUtils.padStart0 2
                      (MathUtils.toString (Math_floor seconds / 60)))
                   (String.append ":"
                      (MathUtils.padStart0 2
                         (MathUtils.toString (Math_floor seconds mod 60))))).
  { unfold MathUtils.formatTime. rewrite Hm, Hs. reflexivity. }
  assert (Hn : (Math_floor seconds < 6000)%Z).
  { destruct (floor_bounds seconds) as [Hlo _].
    rewrite Zlt_Qlt. eapply Qle_lt_trans; [exact Hlo|exact Hlt]. }
  assert (Hmins : (0 <= Math_floor seconds / 60 < 100)%Z).
  { split; [apply Z.div_pos; lia|]. apply Z.div_lt_upper_bound; lia. }
  split; [exact Hfmt|].
  split; [apply Z.mod_pos_bound; lia|].
  split; [exact Hmins|].
  split.
  - rewrite Hfmt. unfold MathUtils.formatTime. rewrite Hm', Hs'. reflexivity.
  - rewrite Hfmt, !length_append.
    pose proof (Z.mod_pos_bound (Math_floor seconds) 60 ltac:(lia)) as Hsecs.
    rewrite (two_digits _ Hmins), (two_digits (Math_floor seconds mod 60)) by lia.
    reflexivity.
Qed.

(** The theorem at work: a sixtieth of a second before five minutes. *)
Lemma formatTime_minutes_and_seconds_witness :
  let seconds := 17999 # 60 in
  let whole := Math_floor seconds in
  0 <= seconds /\ seconds < 6000 /\
  MathUtils.formatTime seconds =
    String.append (MathUtils.padStart0 2 (MathUtils.toString (whole / 60)))
      (String.append ":"
         (MathUtils.padStart0 2 (MathUtils.toString (whole mod 60)))) /\
  (0 <= whole mod 60 < 60)%Z /\
  (0 <= whole / 60 < 100)%Z /\
  MathUtils.formatTime seconds = MathUtils.formatTime (inject_Z whole) /\
  String.length (MathUtils.formatTime seconds) = 5%nat.
Proof.
  cbv zeta.
  assert (H : 0 <= 17999 # 60) by (vm_compute; discriminate).
  assert (H' : 17999 # 60 < 6000) by reflexivity.
  split; [exact H|]. split; [exact H'|].
  exact (formatTime_minutes_and_seconds (17999 # 60) H H').
Defined.

(** The minutes in the arithmetic of the program: for every whole minute
    [k] below 100, the quotient by 60 of the time [60 * k] is [k], and the
    quotient of the largest number below [60 * (k + 1)] is rounded to a
    number below [k + 1]; the quotient being monotone, [Math.floor] gives
    [k] for every time from [60 * k] to below [60 * (k + 1)]. *)
Example minutes_in_binary64 :
  forallb
    (fun k : nat =>
       let k := Z.of_nat k in
       PrimFloat.eqb (Binary64.minutes (Binary64.ofZ (60 * k)))
                     (Binary64.ofZ k)
       && PrimFloat.eqb
            (Binary64.minutes
               (PrimFloat.next_down (Binary64.ofZ (60 * (k + 1)))))
            (Binary64.ofZ k))
    (seq 0 100) = true.
Proof. vm_compute. reflexivity. Qed.

Example formatTime_samples :
  MathUtils.formatTime (17999 # 60) = "04:59"%string /\
  MathUtils.formatTime 300 = "05:00"%string /\
  MathUtils.formatTime 0 = "00:00"%string /\
  MathUtils.formatTime 6000 = "100:00"%string.
Proof. repeat split; vm_compute; reflexivity. Qed.

Lemma negative_seconds_unpadded (k : Z) :
  (-60 <= k <= -1)%Z ->
  MathUtils.padStart0 2 (MathUtils.toString k) = MathUtils.toString k.
Proof.
  intros Hk.
  assert (Hall : forallb
            (fun i => String.eqb
                        (MathUtils.padStart0 2
                           (MathUtils.toString (- Z.of_nat i)))
                        (MathUtils.toString (- Z.of_nat i)))
            (seq 1 60) = true) by (vm_compute; reflexivity).
  rewrite forallb_forall in Hall.
  specialize (Hall (Z.to_nat (- k))).
  rewrite Z2Nat.id, Z.opp_involutive in Hall by lia.
  apply String.eqb_eq, Hall, in_seq. lia.
Qed.

(** X25.  [formatTime] of a negative time: between -60 and 0 it prints
    minus one minute and the whole seconds with their sign, without
    padding; so the time of a mission that ran out by less than a second,
    which is what the game-over screen and the rankings get, is shown as
    -1:-1. *)
Theorem formatTime_of_negative_time (seconds : Q) :
  - (60) < seconds ->
  seconds < 0 ->
  MathUtils.formatTime seconds =
    String.append "-1:" (MathUtils.toString (Math_floor seconds)) /\
  (- (1) <= seconds -> MathUtils.formatTime seconds = "-1:-1"%string).
Proof.
  intros Hlo Hhi.
  assert (Hdiv : seconds / 60 == seconds * (1 # 60)) by reflexivity.
  assert (Hmins : Math_floor (seconds / 60) = (-1)%Z).
  { apply floor_unique; rewrite Hdiv; [change (inject_Z (-1)) with (- (1))|
                                        change (inject_Z (-1 + 1)) with 0]; lra. }
  assert (Htrunc : MathUtils.truncate (seconds / 60) = 0%Z).
  { unfold MathUtils.truncate.
    assert (Hle : js_le 0 (seconds / 60) = false)
      by (apply js_le_false; rewrite Hdiv; lra).
    rewrite Hle. unfold Qceiling.
    assert (Hf : Qfloor (- (seconds / 60)) = 0%Z).
    { apply (floor_unique _ 0); rewrite Hdiv;
        [change (inject_Z 0) with 0|change (inject_Z (0 + 1)) with 1]; lra. }
    rewrite Hf. reflexivity. }
  assert (Hrem : MathUtils.js_rem seconds 60 == seconds).
  { unfold MathUtils.js_rem. rewrite Htrunc. change (inject_Z 0) with 0. ring. }
  assert (Hsecs : Math_floor (MathUtils.js_rem seconds 60) = Math_floor seconds).
  { unfold Math_floor. apply Qfloor_comp, Hrem. }
  assert (Hrange : (-60 <= Math_floor seconds <= -1)%Z).
  { destruct (floor_bounds seconds) as [H1 H2]. split.
    - assert (Hk : (-61 < Math_floor seconds)%Z); [|lia].
      rewrite Zlt_Qlt. change (inject_Z (-61)) with (- (61)). lra.
    - assert (Hk : (Math_floor seconds < 0)%Z); [|lia].
      rewrite Zlt_Qlt. change (inject_Z 0) with 0. lra. }
  assert (Hfmt : MathUtils.formatTime seconds =
                 String.append "-1:" (MathUtils.toString (Math_floor seconds))).
  { unfold MathUtils.formatTime. rewrite Hmins, Hsecs.
    rewrite (negative_seconds_unpadded _ Hrange). reflexivity. }
  split; [exact Hfmt|].
  intros Hone. rewrite Hfmt.
  assert (Hfl : Math_floor seconds = (-1)%Z).
  { apply floor_unique; [change (inject_Z (-1)) with (- (1))|
                         change (inject_Z (-1 + 1)) with 0]; lra. }
  rewrite Hfl. reflexivity.
Qed.

(** The theorem at work: a sixtieth of a second after the time ran out. *)
Lemma formatTime_of_negative_time_witness :
  let seconds := - (1 # 60) in
  - (60) < seconds /\
  seconds < 0 /\
  MathUtils.formatTime seconds =
    String.append "-1:" (MathUtils.toString (Math_floor seconds)) /\
  (- (1) <= seconds -> MathUtils.formatTime seconds = "-1:-1"%string).
Proof.
  cbv zeta.
  assert (H1 : - (60) < - (1 # 60)) by reflexivity.
  assert (H2 : - (1 # 60) < 0) by reflexivity.
  split; [exact H1|]. split; [exact H2|].
  exact (formatTime_of_negative_time (- (1 # 60)) H1 H2).
Defined.

Lemma uint_digits (u : Decimal.uint) :
  Forall (fun c => MathUtils.isDigit c = true)
         (String.list_ascii_of_string (DecimalString.NilEmpty.string_of_uint u)).
Proof.
  induction u; cbn [DecimalString.NilEmpty.string_of_uint
                    String.list_ascii_of_string];
    constructor; try reflexivity; assumption.
Qed.

Lemma toString_digits (n : Z) :
  (0 <= n)%Z ->
  Forall (fun c => MathUtils.isDigit c = true)
         (String.list_ascii_of_string (MathUtils.toString n)).
Proof.
  intros Hn. unfold MathUtils.toString.
  destruct n as [|p|p]; [repeat constructor| |lia].
  cbn [Z.to_int DecimalString.NilZero.string_of_int].
  unfold DecimalString.NilZero.string_of_uint.
  pose proof (uint_digits (Pos.to_uint p)) as H.
  destruct (Pos.to_uint p); try exact H. repeat constructor.
Qed.

Lemma toString_negative (p : positive) :
  MathUtils.toString (Z.neg p) =
  String MathUtils.minus (MathUtils.toString (Z.pos p)).
Proof. reflexivity. Qed.

Lemma digitRun_digits (l : list Ascii.ascii) :
  Forall (fun c => MathUtils.isDigit c = true) l ->
  MathUtils.digitRun l = length l.
Proof.
  induction 1 as [|c l Hc _ IH]; [reflexivity|].
  cbn [MathUtils.digitRun length]. rewrite Hc, IH. reflexivity.
Qed.

Lemma insertCommas_after_digit (d : Ascii.ascii) (l : list Ascii.ascii) :
  MathUtils.isDigit d = true ->
  Forall (fun c => MathUtils.isDigit c = true) l ->
  MathUtils.insertCommas (Some d) l =
  if (0 <? length l)%nat && (length l mod 3 =? 0)%nat
  then MathUtils.comma :: grouped l else grouped l.
Proof.
  intros Hd Hl. revert d Hd.
  induction Hl as [|c l Hc Hl IH]; intros d Hd; [reflexivity|].
  cbn [MathUtils.insertCommas grouped].
  rewrite (IH c Hc).
  unfold MathUtils.groupStartsHere.
  rewrite (digitRun_digits (c :: l)) by (constructor; assumption).
  unfold MathUtils.isWordChar. rewrite Hd. cbn [orb andb].
  destruct ((0 <? length (c :: l))%nat && (length (c :: l) mod 3 =? 0)%nat);
    reflexivity.
Qed.

Lemma insertCommas_at_start (prev : option Ascii.ascii) (l : list Ascii.ascii) :
  prev = None \/ prev = Some MathUtils.minus ->
  Forall (fun c => MathUtils.isDigit c = true) l ->
  MathUtils.insertCommas prev l = grouped l.
Proof.
  intros Hprev Hl. destruct Hl as [|c l Hc Hl]; [reflexivity|].
  cbn [MathUtils.insertCommas grouped].
  rewrite (insertCommas_after_digit c l Hc Hl).
  unfold MathUtils.groupStartsHere.
  destruct Hprev as [-> | ->]; reflexivity.
Qed.

Lemma grouped_without_commas (l : list Ascii.ascii) :
  Forall (fun c => MathUtils.isDigit c = true) l ->
  List.filter (fun c => negb (Ascii.eqb c MathUtils.comma)) (grouped l) = l.
Proof.
  induction 1 as [|c l Hc _ IH]; [reflexivity|].
  cbn [grouped List.filter].
  assert (Hne : Ascii.eqb c MathUtils.comma = false).
  { destruct (Ascii.eqb_spec c MathUtils.comma) as [->|]; [discriminate|reflexivity]. }
  rewrite Hne. cbn [negb]. f_equal.
  destruct ((0 <? length l)%nat && (length l mod 3 =? 0)%nat); [|exact IH].
  cbn [List.filter]. exact IH.
Qed.

(** X26.  [formatNumber] writes an integer below 2^53 in absolute value
    with a comma between groups of three digits counted from the right:
    the text is the sign, if the number is negative, followed by the
    digits of the absolute value with a comma after every digit that has a
    positive multiple of three digits after it; no comma follows the sign,
    and without its commas the text is [num.toString()]. *)
Theorem formatNumber_groups_of_three (num : Z) :
  (Z.abs num < 2 ^ 53)%Z ->
  let digits := String.list_ascii_of_string (MathUtils.toString (Z.abs num)) in
  MathUtils.formatNumber num =
    String.string_of_list_ascii
      (if (num <? 0)%Z then MathUtils.minus :: grouped digits
       else grouped digits) /\
  withoutCommas (MathUtils.formatNumber num) =
    String.list_ascii_of_string (MathUtils.toString num).
Proof.
  intros _. cbv zeta. unfold withoutCommas, MathUtils.formatNumber.
  rewrite String.list_ascii_of_string_of_list_ascii.
  destruct num as [|p|p].
  - split; reflexivity.
  - change (Z.abs (Z.pos p)) with (Z.pos p).
    change (Z.pos p <? 0)%Z with false. cbv iota.
    pose proof (toString_digits (Z.pos p) ltac:(lia)) as Hd.
    rewrite (insertCommas_at_start None _ (or_introl eq_refl) Hd).
    split; [reflexivity|apply grouped_without_commas, Hd].
  - change (Z.abs (Z.neg p)) with (Z.pos p).
    change (Z.neg p <? 0)%Z with true. cbv iota.
    rewrite toString_negative.
    pose proof (toString_digits (Z.pos p) ltac:(lia)) as Hd.
    cbn [String.list_ascii_of_string].
    assert (E : MathUtils.insertCommas None
                  (MathUtils.minus
                   :: String.list_ascii_of_string (MathUtils.toString (Z.pos p)))
                = MathUtils.minus
                  :: grouped (String.list_ascii_of_string
                                (MathUtils.toString (Z.pos p)))).
    { cbn [MathUtils.insertCommas]. unfold MathUtils.groupStartsHere at 1.
      cbn [andb app]. f_equal.
      apply insertCommas_at_start; [right; reflexivity|exact Hd]. }
    rewrite E. split; [reflexivity|].
    cbn [List.filter].
    change (negb (Ascii.eqb MathUtils.minus MathUtils.comma)) with true.
    cbv iota. f_equal. apply grouped_without_commas, Hd.
Qed.

(** The theorem at work on the score -1234567. *)
Lemma formatNumber_groups_of_three_witness :
  (Z.abs (-1234567) < 2 ^ 53)%Z /\
  MathUtils.formatNumber (-1234567) = "-1,234,567"%string /\
  withoutCommas (MathUtils.formatNumber (-1234567)) =
    String.list_ascii_of_string (MathUtils.toString (-1234567)).
Proof.
  assert (H : (Z.abs (-1234567) < 2 ^ 53)%Z) by reflexivity.
  split; [exact H|].
  destruct (formatNumber_groups_of_three (-1234567) H) as [Hfmt Hdigits].
  split; [rewrite Hfmt; vm_compute; reflexivity|exact Hdigits].
Defined.

Example formatNumber_samples :
  MathUtils.formatNumber 0 = "0"%string /\
  MathUtils.formatNumber 999 = "999"%string /\
  MathUtils.formatNumber 1000 = "1,000"%string /\
  MathUtils.formatNumber 15000 = "15,000"%string /\
  MathUtils.formatNumber 1234567 = "1,234,567"%string /\
  MathUtils.formatNumber (-2) = "-2"%string /\
  MathUtils.formatNumber (-123456) = "-123,456"%string.
Proof. repeat split; vm_compute; reflexivity. Qed.

(** ** The high score of a mission *)

(** An event either leaves the high score, the storage and the record of
    the last game over alone, or ends a game that differs from the one
    before in none of them. *)
Lemma handle_books
    (intersectObjects : Ray -> list Object3D -> list Intersection)
    (m : Mission.t) (e : Mission.Event) :
  exists m' m1,
    Mission.handle intersectObjects m e = Some m' /\
    Mission.highScore m1 = Mission.highScore m /\
    Mission.localStorage m1 = Mission.localStorage m /\
    Mission.lastGameData m1 = Mission.lastGameData m /\
    (m' = m1 \/ exists victory reason date,
                  m' = Mission.endGame m1 victory reason date).
Proof.
  destruct e as [f|d| |]; cbn [Mission.handle].
  - unfold Mission.gameLoop. set (m0 := Mission.with_game m _).
    destruct (Mission.state m0);
      try (exists m0, m0; repeat split; left; reflexivity).
    pose proof (update_spec intersectObjects (fun _ _ => True)
                  (fun _ _ _ _ => I) (fun _ _ _ => I) (fun _ _ _ _ => I)
                  m0 f I) as H.
    cbv zeta in H. destruct (js_le _ 0).
    + eexists _, (Mission.with_missionTimer m0 _).
      split; [exact H|]. repeat split.
      right. eexists _, _, _. reflexivity.
    + destruct H as (g4 & _ & _ & ->).
      set (m2 := Mission.with_game _ g4).
      exists (if js_ge (Colony.getDestructionPercentage (Game.colony g4))
                       Mission.GAME_targetDestructionRate
              then Mission.endGame
                     (if Mission.collides f then Mission.handleZakuCrash m2
                      else m2) true Mission.timeout (Mission.date f)
              else if Mission.collides f then Mission.handleZakuCrash m2
                   else m2),
             (if Mission.collides f then Mission.handleZakuCrash m2 else m2).
      split; [reflexivity|].
      split; [destruct (Mission.collides f); reflexivity|].
      split; [destruct (Mission.collides f); reflexivity|].
      split; [destruct (Mission.collides f); reflexivity|].
      destruct (js_ge _ _); [right; eexists _, _, _|left]; reflexivity.
  - unfold Mission.crashTimerFires. destruct (Mission.crashTimers m) as [|k].
    + exists m, m. repeat split. left. reflexivity.
    + eexists _, (Mission.Build_t _ _ _ _ _ _ _ k).
      split; [reflexivity|]. repeat split.
      right. eexists _, _, _. reflexivity.
  - exists (Mission.onBlur m), (Mission.onBlur m).
    split; [reflexivity|]. unfold Mission.onBlur.
    destruct (Mission.state m); repeat split; left; reflexivity.
  - exists (Mission.restartGame m), (Mission.restartGame m).
    split; [reflexivity|]. repeat split. left. reflexivity.
Qed.

Lemma endGame_highScoreKept (ls0 : ScoreSystem.LocalStorage) (m : Mission.t)
    (victory : bool) (reason : Mission.Reason) (date : string) :
  highScoreKept ls0 m ->
  highScoreKept ls0 (Mission.endGame m victory reason date).
Proof.
  intros (H0 & Hstored & Hget & Hset & Hworks & Hrecord).
  unfold Mission.endGame.
  destruct (Mission.state m);
    try exact (conj H0 (conj Hstored (conj Hget (conj Hset (conj Hworks Hrecord))))).
  all: unfold highScoreKept, ScoreSystem.checkHighScore,
         ScoreSystem.saveHighScore, ScoreSystem.saveToRankings,
         ScoreSystem.loadHighScore in *.
  all: destruct (Mission.localStorage m) as [getThrows setThrows high rankings].
  all: cbn [ScoreSystem.getItemThrows ScoreSystem.setItemThrows
            ScoreSystem.highScoreItem ScoreSystem.rankingsItem] in *.
  all: destruct (Mission.highScore m <? _)%Z eqn:Hlt;
         [apply Z.ltb_lt in Hlt|apply Z.ltb_ge in Hlt].
  all: destruct setThrows, getThrows;
         cbn [Mission.highScore Mission.localStorage Mission.lastGameData
              ScoreSystem.getItemThrows ScoreSystem.setItemThrows
              ScoreSystem.highScoreItem ScoreSystem.rankingsItem fst snd];
         rewrite <- ?Hget, <- ?Hset in *;
         (split; [lia|]); (split; [try lia|]);
         try (split; [reflexivity|]); try (split; [reflexivity|]);
         try (split; [intros; try discriminate; try reflexivity; auto|]);
         try (intros d' [= <-]; cbn; lia).
Qed.

Lemma highScoreKept_books (ls0 : ScoreSystem.LocalStorage) (m m1 : Mission.t) :
  Mission.highScore m1 = Mission.highScore m ->
  Mission.localStorage m1 = Mission.localStorage m ->
  Mission.lastGameData m1 = Mission.lastGameData m ->
  highScoreKept ls0 m -> highScoreKept ls0 m1.
Proof.
  intros Hh Hl Hd. unfold highScoreKept. rewrite Hh, Hl, Hd. exact id.
Qed.

(** X27.  The high score never goes down and never falls behind the
    storage: along every sequence of frames, crash timers, blur events and
    restarts of a mission, the high score in memory is at least the one
    loaded at the start, at least the stored one and at least the base
    score of the last game over; with a storage that neither fails to read
    nor to write it is exactly the stored one. *)
Theorem high_score_is_kept
    (intersectObjects : Ray -> list Object3D -> list Intersection)
    (ls : ScoreSystem.LocalStorage) (events : list Mission.Event) :
  exists m',
    Mission.handleAll intersectObjects (Mission.new ls) events = Some m' /\
    highScoreKept ls m'.
Proof.
  assert (Hnew : highScoreKept ls (Mission.new ls)).
  { unfold highScoreKept, Mission.new. cbn.
    repeat split; try lia. intros d. discriminate. }
  revert Hnew. generalize (Mission.new ls).
  induction events as [|e events IH]; intros m Hm.
  - exists m. split; [reflexivity|exact Hm].
  - destruct (handle_books intersectObjects m e)
      as (m' & m1 & Hrun & Hh & Hl & Hd & Hcases).
    cbn [Mission.handleAll]. rewrite Hrun. apply IH.
    pose proof (highScoreKept_books ls m m1 Hh Hl Hd Hm) as H1.
    destruct Hcases as [->|(victory & reason & date & ->)];
      [exact H1|apply endGame_highScoreKept, H1].
Qed.

(** The high score compares base scores: a game that ends with the best
    final score so far is not a new high score when its base score is not
    above the stored one. *)
Example high_score_ignores_bonuses :
  match Mission.lastGameData
          (Mission.crashTimerFires
             (Mission.restartGame crashingMission)
             "2024-01-05T10:00:00.000Z") with
  | Some d =>
      ScoreSystem.finalScore (Mission.scoreData d) = 15000%Z /\
      Mission.rank d = 1%Z /\
      Mission.isHighScore d = false
  | None => False
  end.
Proof. vm_compute. repeat split. Qed.

(** ** The beam and the fire rate *)

(** X28.  The damage of the beam does not pass through the fire-rate
    gate: what [handleShooting] does to the colony and to the score system
    is the same whatever the clock and the muzzle, so whether [zaku.fire()]
    accepts or rejects the shot; a frame with the trigger held takes
    [600 * deltaTime] from the health of the colony when a section is
    under the crosshair, also when no bullet is spawned, and records a
    missed shot when nothing is. *)
Theorem beam_damage_ignores_fire_rate
    (intersectObjects : Ray -> list Object3D -> list Intersection)
    (g : Game.t) (now now' : Z) (muzzlePoint muzzlePoint' : Zaku.MuzzlePoint)
    (ray : Ray) :
  let g1 := Game.handleShooting intersectObjects g now muzzlePoint ray in
  let g2 := Game.handleShooting intersectObjects g now' muzzlePoint' ray in
  Game.colony g1 = Game.colony g2 /\
  Game.scoreSystem g1 = Game.scoreSystem g2 /\
  match intersectObjects ray (Colony.getHitTargets (Game.colony g)) with
  | hit :: _ =>
      match Colony.getSectionAtPoint (Game.colony g) hit with
      | Some (index, _) =>
          Colony.currentHealth (Game.colony g1)
            == Colony.currentHealth (Game.colony g) - 600 * Game.deltaTime g
      | None =>
          Game.colony g1 = Game.colony g /\
          Game.scoreSystem g1 = Game.scoreSystem g
      end
  | [] =>
      Game.colony g1 = Game.colony g /\
      Game.scoreSystem g1 = ScoreSystem.recordShot (Game.scoreSystem g) false
  end.
Proof.
  cbv zeta. unfold Game.handleShooting.
  cbn [Game.colony Game.with_zaku Game.scoreSystem Game.deltaTime].
  destruct (intersectObjects ray (Colony.getHitTargets (Game.colony g)))
    as [|hit rest]; [repeat split|].
  destruct (Colony.getSectionAtPoint (Game.colony g) hit) as [[index s]|] eqn:Hs;
    [|repeat split].
  rewrite !applyHit_colony.
  cbn [Game.colony Game.with_zaku].
  assert (Hscore : forall zk zk',
            Game.scoreSystem (Game.applyHit (Game.with_zaku g zk) index
                                (10 * Game.deltaTime g * 60)) =
            Game.scoreSystem (Game.applyHit (Game.with_zaku g zk') index
                                (10 * Game.deltaTime g * 60))).
  { intros zk zk'. unfold Game.applyHit.
    cbn [Game.colony Game.with_zaku].
    destruct (Colony.damageSection (Game.colony g) (Z.of_nat index)
                (10 * Game.deltaTime g * 60)) as [[r|] c']; [|reflexivity].
    destruct (Colony.r_destroyed r); reflexivity. }
  split; [reflexivity|]. split; [apply Hscore|].
  apply getSectionAtPoint_live in Hs. destruct Hs as (Hi & Hd & _).
  destruct (damageSection_live (Game.colony g) (Z.of_nat index)
              (10 * Game.deltaTime g * 60) s Hi Hd) as (r & _ & Hc).
  rewrite Hc. ring.
Qed.

(** The shot is rejected and the window is damaged all the same: right
    after a shot at time 1000, a frame at time 1001 spawns no bullet and
    takes 10 from the health of the colony. *)
Example rejected_shot_still_damages :
  let g := Game.handleShooting Game.hitFirstTarget
             (Game.atFrameTime (1 # 60)) 1000 Game.sampleMuzzle Game.sampleRay in
  let g' := Game.handleShooting Game.hitFirstTarget g 1001 Game.sampleMuzzle
              Game.sampleRay in
  fst (Zaku.fire (Game.zaku g) 1001 Game.sampleMuzzle) = false /\
  length (Zaku.bullets (Game.zaku g')) = length (Zaku.bullets (Game.zaku g)) /\
  Colony.currentHealth (Game.colony g')
    == Colony.currentHealth (Game.colony g) - 10.
Proof. vm_compute. repeat split. Qed.

(** ** Victory and the mission timer *)

Lemma applyHit_destroyed_count (c0 : Colony.t) (g : Game.t) (i : nat) (d : Q) :
  let P := fun c : Colony.t =>
    (destroyedCount c0 <= destroyedCount c)%nat /\
    (destroyedCount c = destroyedCount c0 ->
     Colony.getDestructionPercentage c = Colony.getDestructionPercentage c0) in
  P (Game.colony g) -> P (Game.colony (Game.applyHit g i d)).
Proof.
  cbv zeta. intros [Hle Hsame]. rewrite applyHit_colony.
  pose proof (damageSection_outcome (Game.colony g) (Z.of_nat i) d) as H.
  destruct (Colony.damageSection (Game.colony g) (Z.of_nat i) d) as [r c'].
  cbn [fst snd] in *.
  destruct H as [H|s c' Hi Hd Hh Hs Ht Hc Hp|s c' Hi Hd Hh Hs Ht Hc Hp].
  - split; assumption.
  - apply at_index_Some in Hi. destruct Hi as (_ & Hi & _).
    unfold destroyedCount in *.
    rewrite Hs, (destroyed_count_insert _ _ _ _ Hi).
    cbn [Colony.damaged Colony.destroyed]. rewrite Hd.
    unfold Colony.getDestructionPercentage in *. rewrite Hp.
    split; [lia|]. intros E. apply Hsame. lia.
  - apply at_index_Some in Hi. destruct Hi as (_ & Hi & _).
    unfold destroyedCount in *.
    rewrite Hs, (destroyed_count_insert _ _ _ _ Hi).
    cbn [Colony.wrecked Colony.destroyed]. rewrite Hd.
    split; [lia|]. intros E. lia.
Qed.

(** X29.  Victory is declared in a frame that destroys a section, and
    only in such a frame: while playing below the target with time left
    after the frame, the frame is handled, the number of destroyed
    sections does not go down, and the game is over after it only if that
    number went up; the record then says MISSION COMPLETE. *)
Theorem victory_needs_a_destruction
    (intersectObjects : Ray -> list Object3D -> list Intersection)
    (m : Mission.t) (f : Mission.Frame) :
  Mission.state m = Mission.playing ->
  Colony.getDestructionPercentage (Game.colony (Mission.game m))
    < Mission.GAME_targetDestructionRate ->
  Mission.frameTime f < Mission.missionTimer m ->
  exists m',
    Mission.gameLoop intersectObjects m f = Some m' /\
    (destroyedCount (Game.colony (Mission.game m))
     <= destroyedCount (Game.colony (Mission.game m')))%nat /\
    (Mission.state m' = Mission.gameover ->
     (destroyedCount (Game.colony (Mission.game m))
      < destroyedCount (Game.colony (Mission.game m')))%nat /\
     exists d, Mission.lastGameData m' = Some d /\
               Mission.title d = Mission.MISSION_COMPLETE /\
               Mission.isVictory d = true).
Proof.
  intros Hstate Hpct Htime. unfold Mission.gameLoop.
  set (m0 := Mission.with_game m _).
  change (Mission.state m0) with (Mission.state m). rewrite Hstate.
  set (c0 := Game.colony (Mission.game m)).
  pose proof (update_spec intersectObjects
                (fun c _ =>
                   (destroyedCount c0 <= destroyedCount c)%nat /\
                   (destroyedCount c = destroyedCount c0 ->
                    Colony.getDestructionPercentage c =
                    Colony.getDestructionPercentage c0))
                (fun g i d => applyHit_destroyed_count c0 g i d)
                (fun _ _ H => H) (fun _ _ _ H => H) m0 f
                (conj (le_n _) (fun _ => eq_refl))) as H.
  cbv zeta in H.
  assert (Hle : js_le (Mission.missionTimer
                         (Mission.with_missionTimer m0
                            (Mission.missionTimer m0 - Mission.frameTime f))) 0
                = false).
  { apply js_le_false. cbn. lra. }
  rewrite Hle in H. destruct H as (g4 & [Hcount Hsame] & _ & ->).
  set (m2 := Mission.with_game _ g4).
  set (m3 := if Mission.collides f then Mission.handleZakuCrash m2 else m2).
  assert (H3 : Mission.game m3 = g4 /\ Mission.state m3 = Mission.playing).
  { unfold m3. destruct (Mission.collides f); split; try reflexivity;
      cbn; exact Hstate. }
  destruct H3 as [Hg3 Hs3].
  destruct (js_ge _ _) eqn:Hge.
  - eexists. split; [reflexivity|]. rewrite endGame_game, Hg3.
    split; [exact Hcount|]. intros _.
    apply js_ge_true in Hge.
    split.
    + destruct (Nat.eq_dec (destroyedCount (Game.colony g4)) (destroyedCount c0))
        as [E|E]; [|lia].
      rewrite (Hsame E) in Hge. unfold c0 in Hge. lra.
    + destruct (endGame_record m3 true Mission.timeout (Mission.date f))
        as (_ & _ & _ & _ & d & Hd & _ & _ & _ & Hv & Ht);
        [rewrite Hs3; discriminate|].
      exists d. repeat split; assumption.
  - exists m3. split; [reflexivity|]. rewrite Hg3.
    split; [exact Hcount|]. rewrite Hs3. discriminate.
Qed.

(** The theorem at work: the first frame of a mission. *)
Lemma victory_needs_a_destruction_witness :
  let m := Mission.new Mission.emptyStorage in
  let f := Mission.withFire Mission.idleFrame in
  exists m',
    Mission.gameLoop Game.hitFirstTarget m f = Some m' /\
    (destroyedCount (Game.colony (Mission.game m))
     <= destroyedCount (Game.colony (Mission.game m')))%nat /\
    (Mission.state m' = Mission.gameover ->
     (destroyedCount (Game.colony (Mission.game m))
      < destroyedCount (Game.colony (Mission.game m')))%nat /\
     exists d, Mission.lastGameData m' = Some d /\
               Mission.title d = Mission.MISSION_COMPLETE /\
               Mission.isVictory d = true).
Proof.
  apply (victory_needs_a_destruction Game.hitFirstTarget
           (Mission.new Mission.emptyStorage)
           (Mission.withFire Mission.idleFrame)).
  - reflexivity.
  - vm_compute. reflexivity.
  - vm_compute. reflexivity.
Defined.

Lemma gameLoop_timer
    (intersectObjects : Ray -> list Object3D -> list Intersection)
    (m : Mission.t) (f : Mission.Frame) :
  exists m',
    Mission.gameLoop intersectObjects m f = Some m' /\
    (Mission.state m' = Mission.playing ->
     Mission.state m = Mission.playing /\
     Mission.missionTimer m' = Mission.missionTimer m - Mission.frameTime f /\
     0 < Mission.missionTimer m').
Proof.
  unfold Mission.gameLoop. set (m0 := Mission.with_game m _).
  change (Mission.state m0) with (Mission.state m).
  destruct (Mission.state m) eqn:Hstate;
    try (exists m0; split; [reflexivity|];
         cbn; rewrite Hstate; discriminate).
  pose proof (update_spec intersectObjects (fun _ _ => True)
                (fun _ _ _ _ => I) (fun _ _ _ => I) (fun _ _ _ _ => I)
                m0 f I) as H.
  cbv zeta in H. destruct (js_le _ 0) eqn:Hle.
  - eexists. split; [exact H|]. intros Hplaying. exfalso.
    destruct (endGame_record
                (Mission.with_missionTimer m0
                   (Mission.missionTimer m0 - Mission.frameTime f))
                false Mission.timeout (Mission.date f)) as (Hs & _);
      [cbn; rewrite Hstate; discriminate|].
    rewrite Hs in Hplaying. discriminate.
  - destruct H as (g4 & _ & _ & ->). apply js_le_false in Hle.
    set (m2 := Mission.with_game _ g4).
    set (m3 := if Mission.collides f then Mission.handleZakuCrash m2 else m2).
    assert (H3 : Mission.state m3 = Mission.playing /\
                 Mission.missionTimer m3 =
                   Mission.missionTimer m - Mission.frameTime f).
    { unfold m3. destruct (Mission.collides f); split; try reflexivity;
        cbn; exact Hstate. }
    destruct H3 as [Hs3 Ht3].
    destruct (js_ge _ _).
    + eexists. split; [reflexivity|]. intros Hplaying. exfalso.
      destruct (endGame_record m3 true Mission.timeout (Mission.date f))
        as (Hs & _); [rewrite Hs3; discriminate|].
      rewrite Hs in Hplaying. discriminate.
    + exists m3. split; [reflexivity|]. intros _.
      split; [reflexivity|]. split; [exact Ht3|]. rewrite Ht3. exact Hle.
Qed.

(** X30.  The mission timer only counts down while the game is played: a
    game that is still playing after a sequence of frames was playing all
    along; after one frame or more its timer is above 0; if no frame time
    was negative the timer is not above where it started; and the next
    frame, if it leaves the game playing, stores the timer less its frame
    time. *)
Theorem mission_timer_counts_frame_time
    (intersectObjects : Ray -> list Object3D -> list Intersection)
    (m : Mission.t) (frames : list Mission.Frame) :
  exists m',
    Mission.handleAll intersectObjects m (map Mission.Loop frames) = Some m' /\
    (Mission.state m' = Mission.playing ->
     Mission.state m = Mission.playing /\
     (frames <> [] -> 0 < Mission.missionTimer m') /\
     (Forall (fun f => 0 <= Mission.frameTime f) frames ->
      Mission.missionTimer m' <= Mission.missionTimer m)) /\
    forall f : Mission.Frame,
      exists m'',
        Mission.gameLoop intersectObjects m' f = Some m'' /\
        (Mission.state m'' = Mission.playing ->
         Mission.state m' = Mission.playing /\
         Mission.missionTimer m'' =
           Mission.missionTimer m' - Mission.frameTime f /\
         0 < Mission.missionTimer m'').
Proof.
  revert m. induction frames as [|f frames IH]; intros m.
  - exists m. split; [reflexivity|]. split.
    + intros Hs. split; [exact Hs|]. split.
      * intros H. contradiction H. reflexivity.
      * intros _. apply Qle_refl.
    + intros f. apply gameLoop_timer.
  - destruct (gameLoop_timer intersectObjects m f) as (m1 & Hrun & H1).
    destruct (IH m1) as (m' & Hrest & H' & Hnext).
    exists m'. cbn [map Mission.handleAll Mission.handle]. rewrite Hrun.
    split; [exact Hrest|]. split; [|exact Hnext]. intros Hplaying.
    destruct (H' Hplaying) as (Hs1 & Hpos' & Hle').
    destruct (H1 Hs1) as (Hs & Ht1 & Hpos1).
    split; [exact Hs|]. split.
    + intros _. destruct frames as [|f' frames'].
      * cbn in Hrest. injection Hrest as <-. exact Hpos1.
      * apply Hpos'. discriminate.
    + intros Hall. inversion Hall as [|? ? Hf Hfs]; subst.
      specialize (Hle' Hfs). rewrite Ht1 in Hle'. lra.
Qed.
